(** * PyBaMM expression-tree compilers: a shallow embedding

    This development embeds the code generators of
    [pybamm/expression_tree/operations/evaluate.py] (the Python / JAX
    backend), [pybamm/expression_tree/operations/evaluate_julia.py] (the
    Julia backend) and [pybamm/expression_tree/input_parameter.py], and
    states the properties of the design document against them.

    Conventions
    - Python exceptions are values of [exn]; a function that may raise
      returns [result A].
    - A [collections.OrderedDict] is an association list in insertion
      order (module [OrderedDict]); a plain [dict] used as a map is a
      [gmap].
    - Array payloads are kept abstract (a type [T] of scalars with the
      operations the kernels use), index arrays are lists of [Z]. *)

From Stdlib Require Import ZArith String Ascii List Lia DecimalString.
From Stdlib Require DecimalZ DecimalPos.
From stdpp Require Import base option list strings gmap sorting.

Set Default Proof Using "Type".
Local Open Scope Z_scope.

(** ** Python exceptions and the error monad *)

Inductive exn : Type :=
| TypeError (msg : string)
| KeyError (key : string)
| IndexError (msg : string)
| AttributeError (msg : string)
| ValueError (msg : string)
| UnboundLocalError (var : string)
| NotImplementedError (msg : string).

Inductive result (A : Type) : Type :=
| Ok (a : A)
| Raise (e : exn).
Arguments Ok {A} a.
Arguments Raise {A} e.

Definition rbind {A B} (m : result A) (k : A -> result B) : result B :=
  match m with
  | Ok a => k a
  | Raise e => Raise e
  end.

Notation "'do' x <- m ; k" := (rbind m (fun x => k))
  (at level 10, x name, m at level 100, k at level 200).
Notation "'do' ' p <- m ; k" := (rbind m (fun x => match x with p => k end))
  (at level 10, p pattern, m at level 100, k at level 200).

Definition is_ok {A} (m : result A) : bool :=
  match m with Ok _ => true | Raise _ => false end.

Definition raises {A} (m : result A) : Prop := exists e, m = Raise e.

Lemma rbind_ok_inv {A B} (m : result A) (k : A -> result B) b :
  rbind m k = Ok b -> exists a, m = Ok a /\ k a = Ok b.
Proof. destruct m as [a|e]; simpl; [eauto | discriminate]. Qed.

Lemma rbind_raise_inv {A B} (m : result A) (k : A -> result B) e :
  rbind m k = Raise e -> m = Raise e \/ exists a, m = Ok a /\ k a = Raise e.
Proof. destruct m as [a|e']; simpl; [eauto | intros [= ->]; auto]. Qed.

(** ** The coordinate sparse matrix of the JAX backend *)

Module Jax.
Section Kernels.
(** Scalars of the arrays: the element type with the sum and product
    of the array library. *)
Context {T : Type} (zero : T) (add mul : T -> T -> T).

(** [class JaxCooMatrix]: [__init__] stores the three parallel arrays,
    the shape and the derived count [nnz = len(data)]. *)
Record JaxCooMatrix : Type := mkJaxCooMatrix {
  row : list Z;
  col : list Z;
  data : list T;
  shape : Z * Z;
  nnz : nat
}.

Definition JaxCooMatrix_init (row col : list Z) (data : list T)
    (shape : Z * Z) : JaxCooMatrix :=
  mkJaxCooMatrix row col data shape (length data).

(** Index normalisation of the array library: a negative index counts
    from the end. *)
Definition normalize_index (n : nat) (i : Z) : Z :=
  if i <? 0 then i + Z.of_nat n else i.

(** [b[i]] inside a traced computation: an index out of range is
    clamped to the nearest valid position. *)
Definition gather1 (b : list T) (i : Z) : T :=
  let j := normalize_index (length b) i in
  let j := Z.max 0 (Z.min j (Z.of_nat (length b) - 1)) in
  nth (Z.to_nat j) b zero.

(** [b[idx]] for an index array [idx]. *)
Definition gather (b : list T) (idx : list Z) : list T :=
  map (gather1 b) idx.

(** One update of [x.at[i].add(u)]: an index out of range is dropped. *)
Definition at_add1 (x : list T) (i : Z) (u : T) : list T :=
  let j := normalize_index (length x) i in
  if (0 <=? j) && (j <? Z.of_nat (length x))
  then alter (fun v => add v u) (Z.to_nat j) x
  else x.

(** [x.at[idx].add(us)]: all updates are applied, repeated indices
    accumulate. *)
Definition at_add (x : list T) (idx : list Z) (us : list T) : list T :=
  foldl (fun acc iu => at_add1 acc iu.1 iu.2) x (zip idx us).

(** [JaxCooMatrix.dot_product]; a column vector of shape [(n, 1)] is the
    list of its [n] entries.
<<
    result = jax.numpy.zeros((self.shape[0], 1), dtype=b.dtype)
    result = result.at[self.row].add(self.data.reshape(-1, 1) * b[self.col])
    return result
>> *)
Definition dot_product (self : JaxCooMatrix) (b : list T) : list T :=
  let result := replicate (Z.to_nat (shape self).1) zero in
  let result := at_add result (row self)
                  (zip_with mul (data self) (gather b (col self))) in
  result.

(** A coordinate matrix is well formed when its three arrays are
    parallel and every entry lies inside the shape. *)
Definition wf_coo (m : JaxCooMatrix) : Prop :=
  length (row m) = length (data m) /\
  length (col m) = length (data m) /\
  Forall (fun r => 0 <= r < (shape m).1) (row m) /\
  Forall (fun c => 0 <= c < (shape m).2) (col m).

(** The words of the design: entry [k] contributes
    [data[k] * b[col[k]]] to position [row[k]]. [contributions m b r]
    lists, in entry order, what is accumulated into position [r]. *)
Fixpoint contributions_aux (rows cols : list Z) (ds : list T) (b : list T)
    (r : nat) : list T :=
  match rows, cols, ds with
  | rk :: rows', ck :: cols', dk :: ds' =>
      let rest := contributions_aux rows' cols' ds' b r in
      if decide (rk = Z.of_nat r)
      then mul dk (nth (Z.to_nat ck) b zero) :: rest
      else rest
  | _, _, _ => []
  end.

Definition contributions (m : JaxCooMatrix) (b : list T) (r : nat) : list T :=
  contributions_aux (row m) (col m) (data m) b r.

Definition accumulate (start : T) (us : list T) : T :=
  foldl add start us.

(** *** Facts about the scatter-add *)

Lemma at_add1_length x i u : length (at_add1 x i u) = length x.
Proof.
  unfold at_add1. case_match; [|done]. by rewrite length_alter.
Qed.

Lemma at_add_length idx : forall us x, length (at_add x idx us) = length x.
Proof.
  unfold at_add. induction idx as [|i idx IH]; intros [|u us] x; simpl; try done.
  rewrite IH. apply at_add1_length.
Qed.

(** The updates of [zip idx us] that land on position [r]. *)
Fixpoint landing (idx : list Z) (us : list T) (r : nat) : list T :=
  match idx, us with
  | i :: idx', u :: us' =>
      if decide (i = Z.of_nat r) then u :: landing idx' us' r
      else landing idx' us' r
  | _, _ => []
  end.

Lemma at_add1_lookup x i u r v :
  0 <= i < Z.of_nat (length x) ->
  x !! r = Some v ->
  at_add1 x i u !! r =
    Some (if decide (i = Z.of_nat r) then add v u else v).
Proof.
  intros Hi Hr. unfold at_add1, normalize_index.
  destruct (Z.ltb_spec i 0) as [?|_]; [lia|].
  destruct (Z.leb_spec 0 i) as [_|?]; [|lia].
  destruct (Z.ltb_spec i (Z.of_nat (length x))) as [_|?]; [|lia]. simpl.
  destruct (decide (i = Z.of_nat r)) as [->|Hne].
  - rewrite Nat2Z.id, list_lookup_alter_eq, Hr. done.
  - rewrite list_lookup_alter_ne; [done|]. intros <-. apply Hne. lia.
Qed.

Lemma at_add_lookup idx : forall us x r v,
  Forall (fun i => 0 <= i < Z.of_nat (length x)) idx ->
  x !! r = Some v ->
  at_add x idx us !! r = Some (accumulate v (landing idx us r)).
Proof.
  unfold at_add, accumulate.
  induction idx as [|i idx IH]; intros [|u us] x r v Hall Hr; simpl; try done.
  apply Forall_cons in Hall as [Hi Hall].
  rewrite (IH us (at_add1 x i u) r
             (if decide (i = Z.of_nat r) then add v u else v)).
  - by destruct (decide (i = Z.of_nat r)).
  - by rewrite at_add1_length.
  - by apply at_add1_lookup.
Qed.

Lemma gather1_in_range b c :
  0 <= c < Z.of_nat (length b) -> gather1 b c = nth (Z.to_nat c) b zero.
Proof.
  intros Hc. unfold gather1, normalize_index.
  destruct (Z.ltb_spec c 0); [lia|]. f_equal. lia.
Qed.

Lemma landing_contributions rows : forall cols ds b r,
  Forall (fun c => 0 <= c < Z.of_nat (length b)) cols ->
  landing rows (zip_with mul ds (gather b cols)) r =
  contributions_aux rows cols ds b r.
Proof.
  induction rows as [|rk rows IH]; intros [|ck cols] [|dk ds] b r Hc;
    simpl; try done.
  apply Forall_cons in Hc as [Hck Hc].
  rewrite (IH cols ds b r Hc), (gather1_in_range b ck Hck). done.
Qed.

Lemma dot_product_length self b :
  length (dot_product self b) = Z.to_nat (shape self).1.
Proof. unfold dot_product. by rewrite at_add_length, length_replicate. Qed.

Lemma dot_product_lookup self b r :
  wf_coo self ->
  Z.of_nat (length b) = (shape self).2 ->
  (r < Z.to_nat (shape self).1)%nat ->
  dot_product self b !! r = Some (accumulate zero (contributions self b r)).
Proof.
  intros (_ & _ & Hrow & Hcol) Hb Hr. unfold dot_product, contributions.
  rewrite (at_add_lookup _ _ _ r zero).
  - rewrite landing_contributions; [done|]. by rewrite Hb.
  - rewrite length_replicate. eapply Forall_impl; [exact Hrow|].
    simpl. intros; lia.
  - by apply lookup_replicate_2.
Qed.

(** *** [jax_coo_vstack] *)

(** [np.cumsum]. *)
Fixpoint np_cumsum_from (acc : Z) (l : list Z) : list Z :=
  match l with
  | [] => []
  | x :: l' => (acc + x) :: np_cumsum_from (acc + x) l'
  end.
Definition np_cumsum (l : list Z) : list Z := np_cumsum_from 0 l.

(** [np.nonzero] of a two-dimensional boolean array: the positions
    [(i, j)] of its true cells, in row-major order. *)
Definition np_nonzero (mask : list (list bool)) : list (nat * nat) :=
  concat (imap (fun i r =>
    omap (fun jb : nat * bool => if jb.2 then Some (i, jb.1) else None)
         (imap (fun j b => (j, b)) r)) mask).

(** [blocks[block_mask]] and [blocks[i, j]] where [blocks] is the tuple
    the generated code passes ([jax_coo_vstack((a,b))]): a tuple accepts
    integers and slices only, anything else is a [TypeError]. *)
Definition tuple_getitem_mask (blocks : list JaxCooMatrix)
    (mask : list (list bool)) : result (list JaxCooMatrix) :=
  Raise (TypeError "tuple indices must be integers or slices").

Definition tuple_getitem_pair (blocks : list JaxCooMatrix)
    (i j : nat) : result JaxCooMatrix :=
  Raise (TypeError "tuple indices must be integers or slices").

(** [blocks[0]]. *)
Definition tuple_getitem0 (blocks : list JaxCooMatrix) : result JaxCooMatrix :=
  match blocks with
  | B :: _ => Ok B
  | [] => Raise (IndexError "tuple index out of range")
  end.

(** [a[lo:lo+len(v)] = v] on an array. *)
Definition set_slice {A} (a : list A) (lo : nat) (v : list A) : list A :=
  take lo a ++ v ++ drop (lo + length v) a.

(** [row_offsets[-1]] of an array that starts with the appended [0]. *)
Definition last_offset (offsets : list Z) : Z := List.last offsets 0.

(** The shape [jax_coo_vstack] computes for [M] blocks. *)
Definition vstack_shape (M : nat) : Z * Z :=
  let N := 1%nat in
  let brow_lengths := replicate M 0 in
  let bcol_lengths := replicate N 0 in
  let row_offsets := 0 :: np_cumsum brow_lengths in
  let col_offsets := 0 :: np_cumsum bcol_lengths in
  (last_offset row_offsets, last_offset col_offsets).

(** The body of the copy loop, for the block at [(i, j)]; the state is
    the arrays [data], [row], [col] and the running count [nnz]. *)
Definition vstack_copy (blocks : list JaxCooMatrix)
    (row_offsets col_offsets : list Z)
    (st : list T * list Z * list Z * nat) (ij : nat * nat)
    : result (list T * list Z * list Z * nat) :=
  let '(data_, row_, col_, nnz_) := st in
  do B <- tuple_getitem_pair blocks ij.1 ij.2;
  let data_ := set_slice data_ nnz_ (data B) in
  let row_ := set_slice row_ nnz_
                (map (fun r => r + nth ij.1 row_offsets 0) (row B)) in
  let col_ := set_slice col_ nnz_
                (map (fun c => c + nth ij.2 col_offsets 0) (col B)) in
  Ok (data_, row_, col_, (nnz_ + nnz B)%nat).

Fixpoint vstack_loop (blocks : list JaxCooMatrix)
    (row_offsets col_offsets : list Z)
    (st : list T * list Z * list Z * nat) (ijs : list (nat * nat))
    : result (list T * list Z * list Z * nat) :=
  match ijs with
  | [] => Ok st
  | ij :: ijs' =>
      do st' <- vstack_copy blocks row_offsets col_offsets st ij;
      vstack_loop blocks row_offsets col_offsets st' ijs'
  end.

(** [jax_coo_vstack(blocks)]. The source never fills [block_mask],
    [brow_lengths] and [bcol_lengths] after creating them with
    [np.zeros]. [np.empty(n)] is an array of [n] unspecified entries,
    written here with [zero] and [0]. *)
Definition jax_coo_vstack (blocks : list JaxCooMatrix) : result JaxCooMatrix :=
  let M := length blocks in
  let N := 1%nat in
  let block_mask := replicate M (replicate N false) in
  let brow_lengths := replicate M 0 in
  let bcol_lengths := replicate N 0 in
  do selected <- tuple_getitem_mask blocks block_mask;
  let nnz_ := foldr (fun B n => (nnz B + n)%nat) 0%nat selected in
  do _ <- tuple_getitem0 blocks;
  let row_offsets := 0 :: np_cumsum brow_lengths in
  let col_offsets := 0 :: np_cumsum bcol_lengths in
  let shape_ := (last_offset row_offsets, last_offset col_offsets) in
  let data_ := replicate nnz_ zero in
  let row_ := replicate nnz_ 0 in
  let col_ := replicate nnz_ 0 in
  do '(data_, row_, col_, _) <-
     vstack_loop blocks row_offsets col_offsets
       (data_, row_, col_, 0%nat) (np_nonzero block_mask);
  Ok (JaxCooMatrix_init row_ col_ data_ shape_).

(** What the design asks of [vstack]: the summed extents of the blocks. *)
Definition summed_extents (blocks : list JaxCooMatrix) : Z * Z :=
  (foldr (fun B n => (shape B).1 + n) 0 blocks,
   foldr (fun B n => (shape B).2 + n) 0 blocks).

Lemma np_cumsum_from_zeros n :
  np_cumsum_from 0 (replicate n 0) = replicate n 0.
Proof.
  induction n as [|n IH]; simpl; [done|]. by rewrite Z.add_0_l, IH.
Qed.

Lemma last_offset_zeros n : last_offset (0 :: replicate n 0) = 0.
Proof.
  unfold last_offset. induction n as [|n IH]; simpl; [done|].
  destruct n; simpl in *; done.
Qed.

Lemma vstack_shape_zero M : vstack_shape M = (0, 0).
Proof.
  unfold vstack_shape, np_cumsum.
  rewrite (np_cumsum_from_zeros M), (np_cumsum_from_zeros 1).
  by rewrite (last_offset_zeros M), (last_offset_zeros 1).
Qed.

Lemma jax_coo_vstack_raises blocks :
  jax_coo_vstack blocks =
  Raise (TypeError "tuple indices must be integers or slices").
Proof. reflexivity. Qed.

End Kernels.
End Jax.

(** ** Python strings *)

Module PyStr.
Local Open Scope string_scope.

(** [sub in s]. *)
Fixpoint contains (sub s : string) : bool :=
  if String.prefix sub s then true
  else match s with
       | EmptyString => false
       | String _ s' => contains sub s'
       end.

(** [s.replace(old, new)] for a non-empty [old]: the occurrences are
    found left to right and do not overlap. [skip] counts the
    characters of a matched occurrence still to be dropped. *)
Fixpoint replace_from (old new : string) (skip : nat) (s : string) : string :=
  match s with
  | EmptyString => EmptyString
  | String c s' =>
      match skip with
      | S k => replace_from old new k s'
      | O =>
          if String.prefix old s
          then new +:+ replace_from old new (String.length old - 1) s'
          else String c (replace_from old new 0 s')
      end
  end.

(** With an empty [old], Python inserts [new] before every character
    and at the end. *)
Fixpoint intersperse_new (new s : string) : string :=
  match s with
  | EmptyString => new
  | String c s' => new +:+ String c (intersperse_new new s')
  end.

Definition replace (old new s : string) : string :=
  match old with
  | EmptyString => intersperse_new new s
  | _ => replace_from old new 0 s
  end.

(** [sep.join(l)]. *)
Fixpoint join (sep : string) (l : list string) : string :=
  match l with
  | [] => ""
  | [x] => x
  | x :: l' => x +:+ sep +:+ join sep l'
  end.

(** [str(n)] and ["{}".format(n)] for an integer. *)
Definition of_Z (n : Z) : string := NilZero.string_of_int (Z.to_int n).

Fixpoint zeros (n : nat) : string :=
  match n with O => "" | S n' => "0" +:+ zeros n' end.

(** ["{:05d}".format(n)]: at least five characters, the sign included,
    padded with zeros after the sign. *)
Definition format_05d (n : Z) : string :=
  if (n <? 0)%Z
  then let d := of_Z (- n) in "-" +:+ zeros (4 - String.length d) +:+ d
  else let d := of_Z n in zeros (5 - String.length d) +:+ d.

(** The order of [str]: lexicographic on the code points. *)
Definition le (s1 s2 : string) : Prop := String.leb s1 s2 = true.

Example contains_ex : contains " * " "const_00001 * var_00002" = true.
Proof. reflexivity. Qed.
Example replace_ex : replace "ab" "x" "abcabab-a" = "xcxx-a".
Proof. reflexivity. Qed.
Example replace_overlap_ex : replace "aa" "b" "aaa" = "ba".
Proof. reflexivity. Qed.
Example replace_empty_ex : replace "" "-" "abc" = "-a-b-c-".
Proof. reflexivity. Qed.
Example format_05d_ex :
  format_05d 42 = "00042" /\ format_05d (-12) = "-0012" /\
  format_05d 1234567 = "1234567" /\ format_05d 0 = "00000".
Proof. repeat split; reflexivity. Qed.
End PyStr.

(** ** [collections.OrderedDict] keyed by node ids *)

Module OrderedDict.
Section Dict.
Context {V : Type}.

Definition t : Type := list (Z * V).

Definition empty : t := [].

(** [d[k] = v]: a key already present keeps its position and takes the
    new value, a new key goes to the end. *)
Fixpoint set (k : Z) (v : V) (d : t) : t :=
  match d with
  | [] => [(k, v)]
  | (k', v') :: d' =>
      if decide (k = k') then (k, v) :: d' else (k', v') :: set k v d'
  end.

(** [d.get(k)]. *)
Fixpoint get (k : Z) (d : t) : option V :=
  match d with
  | [] => None
  | (k', v') :: d' => if decide (k = k') then Some v' else get k d'
  end.

Definition keys (d : t) : list Z := d.*1.
Definition values (d : t) : list V := d.*2.

(** [d.popitem(last=False)]. *)
Definition popitem_first (d : t) : option ((Z * V) * t) :=
  match d with
  | [] => None
  | kv :: d' => Some (kv, d')
  end.

(** The keys after recording [k]: unchanged when [k] is there. *)
Definition record_key (ks : list Z) (k : Z) : list Z :=
  if decide (k ∈ ks) then ks else ks ++ [k].

Lemma keys_set k v d : keys (set k v d) = record_key (keys d) k.
Proof.
  unfold keys, record_key. induction d as [|[k' v'] d IH].
  - cbn [set fmap list_fmap fst]. rewrite decide_False; [done|].
    apply not_elem_of_nil.
  - cbn [set]. destruct (decide (k = k')) as [->|Hne].
    + cbn [fmap list_fmap fst]. rewrite decide_True; [done|].
      apply elem_of_cons; auto.
    + cbn [fmap list_fmap fst] in *. rewrite IH.
      destruct (decide (k ∈ d.*1)) as [Hin|Hnin].
      * rewrite decide_True; [done|]. apply elem_of_cons; auto.
      * rewrite decide_False; [done|].
        intros [?|?]%elem_of_cons; done.
Qed.

Lemma get_set_eq k v d : get k (set k v d) = Some v.
Proof.
  induction d as [|[k' v'] d IH]; cbn [get set].
  - by rewrite decide_True.
  - destruct (decide (k = k')) as [->|Hne]; cbn [get].
    + by rewrite decide_True.
    + by rewrite decide_False.
Qed.

Lemma get_set_ne k k' v d : k <> k' -> get k' (set k v d) = get k' d.
Proof.
  intros Hne. induction d as [|[k0 v0] d IH]; cbn [get set].
  - by rewrite decide_False.
  - destruct (decide (k = k0)) as [->|Hne0]; cbn [get].
    + by rewrite !decide_False.
    + destruct (decide (k' = k0)); [done|]. apply IH.
Qed.

Lemma record_key_NoDup ks k : NoDup ks -> NoDup (record_key ks k).
Proof.
  intros Hnd. unfold record_key. destruct (decide (k ∈ ks)); [done|].
  apply NoDup_app. split_and!; [done| |apply NoDup_singleton].
  intros x Hx ->%list_elem_of_singleton. done.
Qed.

Lemma set_NoDup k v d : NoDup (keys d) -> NoDup (keys (set k v d)).
Proof. rewrite keys_set. apply record_key_NoDup. Qed.

Lemma get_Some_elem_of k v d : get k d = Some v -> (k, v) ∈ d.
Proof.
  induction d as [|[k' v'] d IH]; cbn [get]; [done|].
  destruct (decide (k = k')) as [->|Hne].
  - intros [= ->]. apply elem_of_cons; auto.
  - intros H. apply elem_of_cons; auto.
Qed.

Lemma get_None_keys k d : get k d = None <-> k ∉ keys d.
Proof.
  unfold keys. induction d as [|[k' v'] d IH]; cbn [get fmap list_fmap fst].
  - split; [intros _; apply not_elem_of_nil | done].
  - destruct (decide (k = k')) as [->|Hne].
    + split; [done|]. intros H. exfalso. apply H. apply elem_of_cons; auto.
    + rewrite IH, not_elem_of_cons. split; [auto | by intros [_ ?]].
Qed.

End Dict.
Arguments t V : clear implicits.
End OrderedDict.

(** ** The expression tree read by the compilers

    The tree belongs to the symbolic front end; the compilers read a
    node's [id], [name], [children], its class, [is_constant()] with
    [evaluate()], [evaluate_for_shape()] and [shape], and the attributes
    of particular classes. These are data of the node here. *)

Module Tree.
Section Nodes.
Context {T : Type}.

(** [np.ndarray]: a shape and the entries in row-major order. *)
Record ndarray : Type := mk_ndarray {
  nd_shape : list nat;
  nd_data : list T
}.

(** A [scipy.sparse] matrix, through what [tocoo()] exposes. *)
Record scipy_sparse : Type := mk_scipy_sparse {
  sp_row : list Z;
  sp_col : list Z;
  sp_data : list T;
  sp_shape : Z * Z
}.

(** What [evaluate()] and [evaluate_for_shape()] return.  A number
    ([numbers.Number]) is carried with its [str()]. *)
Inductive Value : Type :=
| VNumber (repr : string)
| VArray (a : ndarray)
| VSparse (m : scipy_sparse).

(** [isinstance(value, numbers.Number)] and [scipy.sparse.issparse]. *)
Definition is_number (v : Value) : bool :=
  match v with VNumber _ => true | _ => false end.
Definition issparse (v : Value) : bool :=
  match v with VSparse _ => true | _ => false end.

(** A Python [slice] with integer bounds. *)
Record slice : Type := mk_slice { start : Z; stop : Z }.

(** [symbol.function] of a [pybamm.Function]: a [np.ufunc], known by
    its [__name__], or any other callable. *)
Inductive PyFunction : Type :=
| Ufunc (__name__ : string)
| Callable (label : string).

(** The attributes of a [pybamm.DomainConcatenation]: [_slices] maps a
    domain to its slices, one per secondary point; [_children_slices]
    holds, per child, the ordered dictionary of its domains. *)
Record DomainConcatenationData : Type := mk_domain_concatenation {
  secondary_dimensions_npts : nat;
  _slices : gmap string (list slice);
  _children_slices : list (list (string * list slice))
}.

(** The classes the compilers distinguish with [isinstance]. *)
Inductive BinaryClass : Type :=
| Multiplication | Division | Inner | Minimum | Maximum
| MatrixMultiplication | Power
| OtherBinary.

Inductive UnaryClass : Type :=
| Index (slice_ : slice)
| OtherUnary.

Inductive ConcatenationClass : Type :=
| NumpyConcatenation
| SparseStack
| DomainConcatenation (dc : DomainConcatenationData)
| OtherConcatenation.

Inductive SymbolClass : Type :=
| BinaryOperator (b : BinaryClass)
| UnaryOperator (u : UnaryClass)
| Function_ (function : PyFunction) (julia_name : string)
| Concatenation (c : ConcatenationClass)
| StateVector (evaluation_array : list bool)
| Time
| InputParameter
| Variable_
| OtherSymbol (type_repr : string).

(** A node.  [folded] is [Some v] when [is_constant()] holds, [v] being
    the result of [evaluate()]; [None] when the node is not constant. *)
#[local] Unset Elimination Schemes.
Inductive Symbol : Type := mkSymbol {
  id : Z;
  name : string;
  kind : SymbolClass;
  folded : option Value;
  evaluate_for_shape : Value;
  shape : nat * nat;
  children : list Symbol
}.
#[local] Set Elimination Schemes.

Definition is_constant (s : Symbol) : bool :=
  match folded s with Some _ => true | None => false end.

(** [str(type(symbol))], as the error messages print it. *)
Definition type_repr_of (c : SymbolClass) : string :=
  match c with
  | OtherSymbol r => r
  | Variable_ => "<class 'pybamm.expression_tree.variable.Variable'>"
  | BinaryOperator _ => "<class 'pybamm.expression_tree.binary_operators.BinaryOperator'>"
  | UnaryOperator _ => "<class 'pybamm.expression_tree.unary_operators.UnaryOperator'>"
  | Function_ _ _ => "<class 'pybamm.expression_tree.functions.Function'>"
  | Concatenation _ => "<class 'pybamm.expression_tree.concatenations.Concatenation'>"
  | StateVector _ => "<class 'pybamm.expression_tree.state_vector.StateVector'>"
  | Time => "<class 'pybamm.expression_tree.independent_variable.Time'>"
  | InputParameter => "<class 'pybamm.expression_tree.input_parameter.InputParameter'>"
  end.

(** An induction principle that reaches the children. *)
Fixpoint Symbol_ind' (P : Symbol -> Prop)
    (step : forall s, Forall P (children s) -> P s) (s : Symbol) : P s :=
  step s
    ((fix go (l : list Symbol) : Forall P l :=
        match l with
        | [] => List.Forall_nil P
        | c :: l' => @List.Forall_cons _ P c l' (Symbol_ind' P step c) (go l')
        end) (children s)).

(** [l[i]] on a Python list. *)
Definition list_getitem {A} (l : list A) (i : nat) : result A :=
  match l !! i with
  | Some x => Ok x
  | None => Raise (IndexError "list index out of range")
  end.

(** The nodes a traversal that stops at constant nodes visits below
    (and including) [root]. *)
Inductive reaches (root : Symbol) : Symbol -> Prop :=
| reaches_root : reaches root root
| reaches_child p c :
    reaches root p -> folded p = None -> c ∈ children p -> reaches root c.

End Nodes.
Arguments ndarray T : clear implicits.
Arguments scipy_sparse T : clear implicits.
Arguments Value T : clear implicits.
Arguments Symbol T : clear implicits.
End Tree.

(** ** Helpers shared by the two code generators *)

Module Gen.
Import Tree.
Local Open Scope string_scope.
Local Open Scope list_scope.
Local Open Scope Z_scope.

(** A loop whose body may raise. *)
Fixpoint foldM {A S : Type} (f : S -> A -> result S) (s : S) (l : list A)
    : result S :=
  match l with
  | [] => Ok s
  | a :: l' => do s' <- f s a; foldM f s' l'
  end.

(** [d[k]] on a [dict] with string keys. *)
Definition dict_getitem {V} (d : gmap string V) (k : string) : result V :=
  match d !! k with
  | Some v => Ok v
  | None => Raise (KeyError k)
  end.

(** [a[-1]] on an array. *)
Definition array_last (a : list Z) : result Z :=
  match a with
  | [] => Raise (IndexError "index -1 is out of bounds for axis 0 with size 0")
  | x :: a' => Ok (List.last a' x)
  end.

(** [a[0]] on an array. *)
Definition array_first (a : list Z) : result Z :=
  match a with
  | [] => Raise (IndexError "index 0 is out of bounds for axis 0 with size 0")
  | x :: _ => Ok x
  end.

(** [np.argwhere(mask).reshape(-1)]: the positions of the true
    entries, ascending. *)
Fixpoint argwhere_from (i : Z) (mask : list bool) : list Z :=
  match mask with
  | [] => []
  | b :: mask' =>
      if b then i :: argwhere_from (i + 1)%Z mask'
      else argwhere_from (i + 1)%Z mask'
  end.
Definition argwhere (mask : list bool) : list Z := argwhere_from 0 mask.

(** [astype(np.int32)] and 32-bit array arithmetic: wrap-around into
    [-2^31, 2^31). *)
Definition int32 (z : Z) : Z := ((z + 2^31) mod 2^32 - 2^31)%Z.

(** [np.all(indices[1:] - indices[:-1] == 1)]. *)
Definition consecutive (indices : list Z) : bool :=
  forallb (fun d => Z.eqb d 1)
    (zip_with (fun a b => int32 (a - b))
       (drop 1 indices) (take (length indices - 1) indices)).

(** The comparison of the tuples [(start, fragment)] that [sorted]
    uses: on the first components, and on the second when the first
    are equal. *)
Definition tuple_le (a b : Z * string) : Prop :=
  (a.1 < b.1)%Z \/ (a.1 = b.1 /\ PyStr.le a.2 b.2).

#[global] Instance tuple_le_dec a b : Decision (tuple_le a b).
Proof. unfold tuple_le, PyStr.le. apply _. Defined.

(** [sorted(l)] on such tuples.  The order is total and antisymmetric,
    so the sorted arrangement of [l] is unique ([sorted_unique]
    below) and the sorting algorithm does not matter. *)
Definition sorted (l : list (Z * string)) : list (Z * string) :=
  merge_sort tuple_le l.

(** The two inner loops of the [DomainConcatenation] rule, for the
    secondary point [i]; [render] formats one sub-fragment. *)
Definition domain_item (dc : DomainConcatenationData) (i : nat)
    (render : string -> slice -> string) (child_var : string)
    (acc : list Z * list string) (item : string * list slice)
    : result (list Z * list string) :=
  let '(slice_starts, child_vectors) := acc in
  let '(child_dom, child_slice) := item in
  do dom_slices <- dict_getitem (_slices dc) child_dom;
  do s <- list_getitem dom_slices i;
  let slice_starts := slice_starts ++ [start s] in
  do cs <- list_getitem child_slice i;
  Ok (slice_starts, child_vectors ++ [render child_var cs]).

Definition domain_child (dc : DomainConcatenationData) (i : nat)
    (render : string -> slice -> string)
    (acc : list Z * list string)
    (cv : string * list (string * list slice))
    : result (list Z * list string) :=
  foldM (domain_item dc i render cv.1) acc cv.2.

(** The body of [for i in range(symbol.secondary_dimensions_npts)]:
    [child_vectors] is fresh for every [i], [slice_starts] is not. *)
Definition domain_point (dc : DomainConcatenationData)
    (render : string -> slice -> string) (children_vars : list string)
    (st : list Z * list string) (i : nat) : result (list Z * list string) :=
  let '(slice_starts, all_child_vectors) := st in
  do '(slice_starts, child_vectors) <-
     foldM (domain_child dc i render) (slice_starts, [])
       (zip children_vars (_children_slices dc));
  Ok (slice_starts,
      all_child_vectors ++ (sorted (zip slice_starts child_vectors)).*2).

(** [all_child_vectors] after the loop over the secondary points. *)
Definition domain_vectors (dc : DomainConcatenationData)
    (render : string -> slice -> string) (children_vars : list string)
    : result (list string) :=
  do '(_, all_child_vectors) <-
     foldM (domain_point dc render children_vars) ([], [])
       (seq 0 (secondary_dimensions_npts dc));
  Ok all_child_vectors.

(** The [DomainConcatenation] rule, the same in both generators up to
    the rendering of a sub-fragment. *)
Definition domain_concatenation (dc : DomainConcatenationData)
    (render : string -> slice -> string) (children_vars : list string)
    : result string :=
  do all_child_vectors <- domain_vectors dc render children_vars;
  if decide (1 < length children_vars \/ 1 < secondary_dimensions_npts dc)%nat
  then Ok ("np.concatenate((" +:+ PyStr.join "," all_child_vectors +:+ "))")
  else Ok (PyStr.join "," children_vars).

(** The loop that builds [children_str] for a [Function]. *)
Definition function_args (children_vars : list string) : string :=
  foldl (fun children_str child_var =>
           if decide (children_str = "") then child_var
           else children_str +:+ ", " +:+ child_var)
        "" children_vars.

(** The newline character. *)
Definition nl : string := String (ascii_of_nat 10) "".

End Gen.

(** ** [evaluate.py]: the Python / JAX code generator *)

Module Python.
Import Tree Gen.
Local Open Scope string_scope.
Local Open Scope list_scope.
Local Open Scope Z_scope.

(** [id_to_python_variable(symbol_id, constant)]. *)
Definition id_to_python_variable (symbol_id : Z) (constant : bool) : string :=
  let var_format := if constant then "const_" else "var_" in
  PyStr.replace "-" "m" (var_format +:+ PyStr.format_05d symbol_id).

Section Generator.
Context {T : Type}.
(** [pybamm.Array(indices).id], computed by the front end. *)
Context (array_id : list Z -> Z).

(** What [constant_symbols] holds: a folded value, a coordinate
    matrix, the callable of a [Function], or an index array. *)
Inductive Constant : Type :=
| CValue (v : Value T)
| CJaxCoo (m : @Jax.JaxCooMatrix T)
| CFunction (f : PyFunction)
| CIndices (indices : list Z).

Record Tables : Type := mkTables {
  constant_symbols : OrderedDict.t Constant;
  variable_symbols : OrderedDict.t string
}.

Definition empty_tables : Tables := mkTables [] [].

(** The name or literal that stands for a child in its parent's
    fragment. *)
Definition child_var (child : Symbol T) : string :=
  match folded child with
  | Some (VNumber repr) => repr
  | Some _ => id_to_python_variable (id child) true
  | None => id_to_python_variable (id child) false
  end.

(** The branch [if symbol.is_constant()] with [value] the result of
    [symbol.evaluate()]. *)
Definition fold_constant (symbol : Symbol T) (value : Value T)
    (constant_symbols : OrderedDict.t Constant) (no_sparse : bool)
    : OrderedDict.t Constant :=
  match value with
  | VNumber _ => constant_symbols
  | VSparse scipy_coo =>
      if no_sparse
      then OrderedDict.set (id symbol)
             (CJaxCoo (Jax.JaxCooMatrix_init (sp_row scipy_coo)
                         (sp_col scipy_coo) (sp_data scipy_coo)
                         (sp_shape scipy_coo)))
             constant_symbols
      else OrderedDict.set (id symbol) (CValue value) constant_symbols
  | VArray _ => OrderedDict.set (id symbol) (CValue value) constant_symbols
  end.

(** The rules for [pybamm.BinaryOperator].  The [print] calls of the
    source write to the console only and are left out, except the one
    of the [Division] rule under [no_sparse], which reads the local
    [dummy_eval_right] that this rule never assigns. *)
Definition binary_operator (symbol : Symbol T) (b : BinaryClass)
    (children_vars : list string) (no_sparse : bool) : result string :=
  match b with
  | Multiplication =>
      do left <- list_getitem (children symbol) 0;
      do right <- list_getitem (children symbol) 1;
      let dummy_eval_left := evaluate_for_shape left in
      let dummy_eval_right := evaluate_for_shape right in
      do c0 <- list_getitem children_vars 0;
      do c1 <- list_getitem children_vars 1;
      if issparse dummy_eval_left then
        if no_sparse
        then Ok (c0 +:+ ".dot_product(" +:+ c1 +:+ ")")
        else Ok (c0 +:+ ".multiply(" +:+ c1 +:+ ")")
      else if issparse dummy_eval_right then
        if no_sparse
        then Ok (c1 +:+ ".dot_product(" +:+ c1 +:+ ")")
        else Ok (c1 +:+ ".multiply(" +:+ c0 +:+ ")")
      else Ok (c0 +:+ " * " +:+ c1)
  | Division =>
      do left <- list_getitem (children symbol) 0;
      let dummy_eval_left := evaluate_for_shape left in
      if issparse dummy_eval_left then
        if no_sparse
        then Raise (UnboundLocalError "dummy_eval_right")
        else
          do c0 <- list_getitem children_vars 0;
          do c1 <- list_getitem children_vars 1;
          Ok (c0 +:+ ".multiply(1/" +:+ c1 +:+ ")")
      else
        do c0 <- list_getitem children_vars 0;
        do c1 <- list_getitem children_vars 1;
        Ok (c0 +:+ " / " +:+ c1)
  | Inner =>
      do left <- list_getitem (children symbol) 0;
      do right <- list_getitem (children symbol) 1;
      let dummy_eval_left := evaluate_for_shape left in
      let dummy_eval_right := evaluate_for_shape right in
      do c0 <- list_getitem children_vars 0;
      do c1 <- list_getitem children_vars 1;
      if issparse dummy_eval_left then
        if no_sparse
        then Ok (c0 +:+ ".dot_product(" +:+ c1 +:+ ")")
        else Ok (c0 +:+ ".multiply(" +:+ c1 +:+ ")")
      else if issparse dummy_eval_right then
        if no_sparse
        then Ok (c0 +:+ ".dot_product(" +:+ c1 +:+ ")")
        else Ok (c1 +:+ ".multiply(" +:+ c0 +:+ ")")
      else Ok (c0 +:+ " * " +:+ c1)
  | Minimum =>
      do c0 <- list_getitem children_vars 0;
      do c1 <- list_getitem children_vars 1;
      Ok ("np.minimum(" +:+ c0 +:+ "," +:+ c1 +:+ ")")
  | Maximum =>
      do c0 <- list_getitem children_vars 0;
      do c1 <- list_getitem children_vars 1;
      Ok ("np.maximum(" +:+ c0 +:+ "," +:+ c1 +:+ ")")
  | MatrixMultiplication | Power | OtherBinary =>
      do c0 <- list_getitem children_vars 0;
      do c1 <- list_getitem children_vars 1;
      Ok (c0 +:+ " " +:+ name symbol +:+ " " +:+ c1)
  end.

(** ["{}[{}:{}]".format(v, s.start, s.stop)]. *)
Definition render_slice (v : string) (s : slice) : string :=
  v +:+ "[" +:+ PyStr.of_Z (start s) +:+ ":" +:+ PyStr.of_Z (stop s) +:+ "]".

(** The rule for [pybamm.StateVector]. *)
Definition state_vector (evaluation_array : list bool)
    (constant_symbols : OrderedDict.t Constant)
    : result (string * OrderedDict.t Constant) :=
  let indices := map int32 (argwhere evaluation_array) in
  if bool_decide (length indices = 1%nat) || consecutive indices then
    do first <- array_first indices;
    do last <- array_last indices;
    Ok ("y[" +:+ PyStr.of_Z first +:+ ":" +:+ PyStr.of_Z (last + 1) +:+ "]",
        constant_symbols)
  else
    let indices_array_id := array_id indices in
    let constant_symbols :=
      OrderedDict.set indices_array_id (CIndices indices) constant_symbols in
    let index_name := id_to_python_variable indices_array_id true in
    Ok ("y[" +:+ index_name +:+ "]", constant_symbols).

(** The chain of [isinstance] tests of [find_symbols]: the fragment of
    a node that is not constant, with the constants it adds. *)
Definition select (symbol : Symbol T) (children_vars : list string)
    (constant_symbols : OrderedDict.t Constant) (no_sparse : bool)
    : result (string * OrderedDict.t Constant) :=
  match kind symbol with
  | BinaryOperator b =>
      do symbol_str <- binary_operator symbol b children_vars no_sparse;
      Ok (symbol_str, constant_symbols)
  | UnaryOperator (Index slice_) =>
      do c0 <- list_getitem children_vars 0;
      Ok (render_slice c0 slice_, constant_symbols)
  | UnaryOperator OtherUnary =>
      do c0 <- list_getitem children_vars 0;
      Ok (name symbol +:+ c0, constant_symbols)
  | Function_ function _ =>
      let children_str := function_args children_vars in
      match function with
      | Ufunc __name__ =>
          Ok ("np." +:+ __name__ +:+ "(" +:+ children_str +:+ ")",
              constant_symbols)
      | Callable _ =>
          let constant_symbols :=
            OrderedDict.set (id symbol) (CFunction function) constant_symbols in
          let funct_var := id_to_python_variable (id symbol) true in
          Ok (funct_var +:+ "(" +:+ children_str +:+ ")", constant_symbols)
      end
  | Concatenation NumpyConcatenation =>
      if decide (1 < length children_vars)%nat
      then Ok ("np.concatenate((" +:+ PyStr.join "," children_vars +:+ "))",
               constant_symbols)
      else Ok (PyStr.join "," children_vars, constant_symbols)
  | Concatenation SparseStack =>
      if decide (1 < length children_vars)%nat then
        if no_sparse
        then Ok ("jax_coo_vstack((" +:+ PyStr.join "," children_vars +:+ "))",
                 constant_symbols)
        else Ok ("scipy.sparse.vstack((" +:+ PyStr.join "," children_vars +:+ "))",
                 constant_symbols)
      else Ok (PyStr.join "," children_vars, constant_symbols)
  | Concatenation (DomainConcatenation dc) =>
      do symbol_str <- domain_concatenation dc render_slice children_vars;
      Ok (symbol_str, constant_symbols)
  | Concatenation OtherConcatenation =>
      Raise (NotImplementedError "")
  | StateVector evaluation_array =>
      state_vector evaluation_array constant_symbols
  | Time => Ok ("t", constant_symbols)
  | InputParameter =>
      Ok ("inputs['" +:+ name symbol +:+ "']", constant_symbols)
  | Variable_ | OtherSymbol _ =>
      Raise (NotImplementedError
               ("Not implemented for a symbol of type '" +:+
                type_repr_of (kind symbol) +:+ "'"))
  end.

(** [find_symbols(symbol, constant_symbols, variable_symbols, no_sparse)].
    The two dictionaries are mutated in place by the source and are
    threaded through here; an exception leaves the function at once. *)
Fixpoint find_symbols (symbol : Symbol T) (tables : Tables)
    (no_sparse : bool) {struct symbol} : result Tables :=
  match folded symbol with
  | Some value =>
      Ok (mkTables
            (fold_constant symbol value (constant_symbols tables) no_sparse)
            (variable_symbols tables))
  | None =>
      do tables <-
         (fix visit (cs : list (Symbol T)) (tables : Tables) : result Tables :=
            match cs with
            | [] => Ok tables
            | child :: cs' =>
                do tables <- find_symbols child tables no_sparse;
                visit cs' tables
            end) (children symbol) tables;
      let children_vars := map child_var (children symbol) in
      do '(symbol_str, constants) <-
         select symbol children_vars (constant_symbols tables) no_sparse;
      Ok (mkTables constants
            (OrderedDict.set (id symbol) symbol_str (variable_symbols tables)))
  end.

(** The loop [for child in symbol.children: find_symbols(child, ...)]. *)
Definition find_symbols_children (cs : list (Symbol T)) (tables : Tables)
    (no_sparse : bool) : result Tables :=
  foldM (fun tables child => find_symbols child tables no_sparse) tables cs.

(** One emitted line of [to_python]. *)
Definition variable_line (debug : bool) (entry : Z * string) : string :=
  let '(symbol_id, symbol_line) := entry in
  let var := id_to_python_variable symbol_id false in
  let line := var +:+ " = " +:+ symbol_line in
  if debug
  then "print('" +:+ line +:+ "'); " +:+ line +:+
       "; print(type(" +:+ var +:+ ")," +:+ var +:+ ".shape)"
  else line.

(** [to_python(symbol, debug, no_sparse)]. *)
Definition to_python (symbol : Symbol T) (debug no_sparse : bool)
    : result (OrderedDict.t Constant * string) :=
  let constant_values := OrderedDict.empty in
  let variable_symbols_ := OrderedDict.empty in
  do tables <- find_symbols symbol
                 (mkTables constant_values variable_symbols_) no_sparse;
  let variable_lines := map (variable_line debug) (variable_symbols tables) in
  Ok (constant_symbols tables, PyStr.join nl variable_lines).

End Generator.
End Python.

(** ** [evaluate_julia.py]: the Julia code generator *)

Module Julia.
Import Tree Gen.
Local Open Scope string_scope.
Local Open Scope list_scope.
Local Open Scope Z_scope.

(** [id_to_julia_variable(symbol_id, constant)]. *)
Definition id_to_julia_variable (symbol_id : Z) (constant : bool) : string :=
  let var_format := if constant then "const_" else "cache_" in
  PyStr.replace "-" "m" (var_format +:+ PyStr.format_05d symbol_id).

(** What [variable_symbols] holds: the text of a fragment, or, for a
    [NumpyConcatenation] or a [SparseStack], the Python list
    [children_vars] itself. *)
Inductive Fragment : Type :=
| FStr (s : string)
| FList (l : list string).

Section Generator.
Context {T : Type}.
(** Computed outside this file: [pybamm.Array(indices).id],
    [np.array2string(a, separator=",")] on an integer and on a value
    array, and [scipy.sparse.find]. *)
Context (array_id : list Z -> Z).
Context (array2string_int : list Z -> string).
Context (array2string : list T -> string).
Context (sparse_find : scipy_sparse T -> list Z * list Z * list T).

(** What [constant_symbols] holds. *)
Inductive Constant : Type :=
| JText (s : string)
| JScalar (x : T)
| JValue (v : Value T)
| JIndices (indices : list Z).

Record Tables : Type := mkTables {
  constant_symbols : OrderedDict.t Constant;
  variable_symbols : OrderedDict.t Fragment;
  variable_symbol_sizes : OrderedDict.t nat
}.

Definition empty_tables : Tables := mkTables [] [] [].

Definition child_var (child : Symbol T) : string :=
  match folded child with
  | Some (VNumber repr) => repr
  | Some _ => id_to_julia_variable (id child) true
  | None => id_to_julia_variable (id child) false
  end.

(** The branch [if symbol.is_constant()].  [value.shape[1]] does not
    exist for an array of fewer than two dimensions. *)
Definition fold_constant (symbol : Symbol T) (value : Value T)
    (constant_symbols : OrderedDict.t Constant)
    : result (OrderedDict.t Constant) :=
  match value with
  | VNumber _ => Ok constant_symbols
  | VSparse m =>
      let '(row, col, data) := sparse_find m in
      let '(m_, n_) := sp_shape m in
      Ok (OrderedDict.set (id symbol)
            (JText ("sparse(" +:+ array2string_int (map (fun r => r + 1) row)
                    +:+ ", " +:+ array2string_int (map (fun c => c + 1) col)
                    +:+ ", " +:+ array2string data
                    +:+ ", " +:+ PyStr.of_Z m_ +:+ ", " +:+ PyStr.of_Z n_ +:+ ")"))
            constant_symbols)
  | VArray a =>
      match nd_shape a, nd_data a with
      | [1%nat; 1%nat], x :: _ =>
          Ok (OrderedDict.set (id symbol) (JScalar x) constant_symbols)
      | _, _ =>
          match nd_shape a with
          | _ :: n1 :: _ =>
              if decide (n1 = 1%nat)
              then Ok (OrderedDict.set (id symbol)
                         (JText (array2string (nd_data a))) constant_symbols)
              else Ok (OrderedDict.set (id symbol) (JValue value) constant_symbols)
          | _ => Raise (IndexError "tuple index out of range")
          end
      end
  end.

Definition binary_operator (symbol : Symbol T) (b : BinaryClass)
    (children_vars : list string) : result string :=
  do c0 <- list_getitem children_vars 0;
  do c1 <- list_getitem children_vars 1;
  match b with
  | MatrixMultiplication => Ok (c0 +:+ " * " +:+ c1)
  | Inner => Ok (c0 +:+ " .* " +:+ c1)
  | Minimum => Ok ("np.minimum(" +:+ c0 +:+ "," +:+ c1 +:+ ")")
  | Maximum => Ok ("np.maximum(" +:+ c0 +:+ "," +:+ c1 +:+ ")")
  | Power => Ok (c0 +:+ " .^ " +:+ c1)
  | Multiplication | Division | OtherBinary =>
      Ok (c0 +:+ " ." +:+ name symbol +:+ " " +:+ c1)
  end.

(** ["@view {}[{}:{}]".format(v, s.start, s.stop)]. *)
Definition render_view (v : string) (s : slice) : string :=
  "@view " +:+ v +:+ "[" +:+ PyStr.of_Z (start s) +:+ ":" +:+
  PyStr.of_Z (stop s) +:+ "]".

Definition state_vector (evaluation_array : list bool)
    (constant_symbols : OrderedDict.t Constant)
    : result (string * OrderedDict.t Constant) :=
  let indices := map int32 (argwhere evaluation_array) in
  let indices := map (fun i => int32 (i + 1)) indices in
  let consecutive_ := consecutive indices in
  if decide (length indices = 1%nat) then
    do first <- array_first indices;
    Ok ("@view y[" +:+ PyStr.of_Z first +:+ "]", constant_symbols)
  else if consecutive_ then
    do first <- array_first indices;
    do last <- array_last indices;
    Ok ("@view y[" +:+ PyStr.of_Z first +:+ ":" +:+ PyStr.of_Z last +:+ "]",
        constant_symbols)
  else
    let indices_array_id := array_id indices in
    let constant_symbols :=
      OrderedDict.set indices_array_id (JIndices indices) constant_symbols in
    let index_name := id_to_julia_variable indices_array_id true in
    Ok ("@view y[" +:+ index_name +:+ "]", constant_symbols).

(** The outcome of the [isinstance] chain: a fragment with the updated
    constants, or the plain [return] of the [Variable] rule. *)
Inductive Selected : Type :=
| Emit (symbol_str : Fragment) (constant_symbols : OrderedDict.t Constant)
| Return.

Definition select (symbol : Symbol T) (children_vars : list string)
    (constant_symbols : OrderedDict.t Constant) : result Selected :=
  match kind symbol with
  | BinaryOperator b =>
      do symbol_str <- binary_operator symbol b children_vars;
      Ok (Emit (FStr symbol_str) constant_symbols)
  | UnaryOperator (Index slice_) =>
      do c0 <- list_getitem children_vars 0;
      Ok (Emit (FStr (c0 +:+ "[" +:+ PyStr.of_Z (start slice_ + 1) +:+ ":" +:+
                      PyStr.of_Z (stop slice_) +:+ "]")) constant_symbols)
  | UnaryOperator OtherUnary =>
      do c0 <- list_getitem children_vars 0;
      Ok (Emit (FStr (name symbol +:+ c0)) constant_symbols)
  | Function_ _ julia_name =>
      let children_str := function_args children_vars in
      Ok (Emit (FStr (julia_name +:+ ".(" +:+ children_str +:+ ")"))
            constant_symbols)
  | Concatenation NumpyConcatenation | Concatenation SparseStack =>
      Ok (Emit (FList children_vars) constant_symbols)
  | Concatenation (DomainConcatenation dc) =>
      do symbol_str <- domain_concatenation dc render_view children_vars;
      Ok (Emit (FStr symbol_str) constant_symbols)
  | Concatenation OtherConcatenation =>
      Raise (NotImplementedError "")
  | StateVector evaluation_array =>
      do '(symbol_str, constant_symbols) <-
         state_vector evaluation_array constant_symbols;
      Ok (Emit (FStr symbol_str) constant_symbols)
  | Time => Ok (Emit (FStr "t") constant_symbols)
  | InputParameter =>
      Ok (Emit (FStr ("inputs['" +:+ name symbol +:+ "']")) constant_symbols)
  | Variable_ => Ok Return
  | OtherSymbol _ =>
      Raise (NotImplementedError
               ("Conversion to Julia not implemented for a symbol of type '" +:+
                type_repr_of (kind symbol) +:+ "'"))
  end.

(** [find_symbols(symbol, constant_symbols, variable_symbols,
    variable_symbol_sizes)]. *)
Fixpoint find_symbols (symbol : Symbol T) (tables : Tables) {struct symbol}
    : result Tables :=
  match folded symbol with
  | Some value =>
      do constants <- fold_constant symbol value (constant_symbols tables);
      Ok (mkTables constants (variable_symbols tables)
            (variable_symbol_sizes tables))
  | None =>
      do tables <-
         (fix visit (cs : list (Symbol T)) (tables : Tables) : result Tables :=
            match cs with
            | [] => Ok tables
            | child :: cs' =>
                do tables <- find_symbols child tables;
                visit cs' tables
            end) (children symbol) tables;
      let children_vars := map child_var (children symbol) in
      do selected <- select symbol children_vars (constant_symbols tables);
      match selected with
      | Return => Ok tables
      | Emit symbol_str constants =>
          let variable_symbols_ :=
            OrderedDict.set (id symbol) symbol_str (variable_symbols tables) in
          let symbol_shape := shape symbol in
          if decide (symbol_shape.2 <> 1%nat)
          then Raise (ValueError "expected column vector")
          else Ok (mkTables constants variable_symbols_
                     (OrderedDict.set (id symbol) symbol_shape.1
                        (variable_symbol_sizes tables)))
      end
  end.

(** [to_julia(symbol, debug)]. *)
Definition to_julia (symbol : Symbol T) (debug : bool) : result Tables :=
  find_symbols symbol empty_tables.

End Generator.

(** *** The inlining pass of [get_julia_function] *)

(** [x in symbol_line]: a substring test on text, membership on a list. *)
Definition fragment_contains (x : string) (f : Fragment) : bool :=
  match f with
  | FStr s => PyStr.contains x s
  | FList l => bool_decide (x ∈ l)
  end.

Definition inlineable_symbols : list string := ["@view"; ".+"; ".-"; ".*"; "./"].

(** [any(x in symbol_line for x in inlineable_symbols)]. *)
Definition inlineable (symbol_line : Fragment) : bool :=
  existsb (fun x => fragment_contains x symbol_line) inlineable_symbols.

(** [str(l)] of a list of strings, as [format] prints it. *)
Definition list_repr (l : list string) : string :=
  "[" +:+ PyStr.join ", " (map (fun s => "'" +:+ s +:+ "'") l) +:+ "]".

Definition fragment_format (f : Fragment) : string :=
  match f with
  | FStr s => s
  | FList l => list_repr l
  end.

(** The body of [for key, value in var_symbols.items()] for one entry. *)
Definition inline_into (julia_var : string) (symbol_line : Fragment)
    (entry : Z * Fragment) : result (Z * Fragment) :=
  let '(key, value) := entry in
  if negb (fragment_contains "mul!" value &&
           negb (fragment_contains "@view" symbol_line))
  then
    match value, symbol_line with
    | FStr v, FStr line => Ok (key, FStr (PyStr.replace julia_var line v))
    | FStr _, FList _ =>
        Raise (TypeError "replace() argument 2 must be str, not list")
    | FList _, _ =>
        Raise (AttributeError "'list' object has no attribute 'replace'")
    end
  else Ok (key, value).

(** [for key, value in var_symbols.items(): ...]. *)
Fixpoint inline_all (julia_var : string) (symbol_line : Fragment)
    (var_symbols : OrderedDict.t Fragment) : result (OrderedDict.t Fragment) :=
  match var_symbols with
  | [] => Ok []
  | entry :: rest =>
      do entry' <- inline_into julia_var symbol_line entry;
      do rest' <- inline_all julia_var symbol_line rest;
      Ok (entry' :: rest')
  end.

(** The body of the [while] loop, after [popitem(last=False)] has taken
    [(var_symbol_id, symbol_line)] off [var_symbols]. *)
Definition inline_body (var_symbol_id : Z) (symbol_line : Fragment)
    (var_symbols : OrderedDict.t Fragment) (var_str : string)
    : result (OrderedDict.t Fragment * string) :=
  let julia_var := id_to_julia_variable var_symbol_id false in
  if fragment_contains " * " symbol_line then
    match symbol_line with
    | FStr line =>
        let line := PyStr.replace " * " ", " line in
        Ok (var_symbols,
            var_str +:+ "mul!(" +:+ julia_var +:+ ", " +:+ line +:+ ")" +:+ nl)
    | FList _ =>
        Raise (AttributeError "'list' object has no attribute 'replace'")
    end
  else if inlineable symbol_line then
    do var_symbols <- inline_all julia_var symbol_line var_symbols;
    Ok (var_symbols, var_str)
  else
    Ok (var_symbols,
        var_str +:+ julia_var +:+ " .= " +:+ fragment_format symbol_line +:+ nl).

(** [while var_symbols: ...].  Every turn removes one entry, so
    [length var_symbols] turns empty the table. *)
Fixpoint inline_loop (turns : nat) (var_symbols : OrderedDict.t Fragment)
    (var_str : string) : result (OrderedDict.t Fragment * string) :=
  match turns with
  | O => Ok (var_symbols, var_str)
  | S turns' =>
      match OrderedDict.popitem_first var_symbols with
      | None => Ok (var_symbols, var_str)
      | Some ((var_symbol_id, symbol_line), var_symbols) =>
          do '(var_symbols, var_str) <-
             inline_body var_symbol_id symbol_line var_symbols var_str;
          inline_loop turns' var_symbols var_str
      end
  end.

(** The pass: [var_str] when the loop ends. *)
Definition inline_pass (var_symbols : OrderedDict.t Fragment)
    : result (OrderedDict.t Fragment * string) :=
  inline_loop (length var_symbols) var_symbols "".

End Julia.

(** ** [get_julia_mtk_model] *)

Module Mtk.
Import Tree Gen.
Local Open Scope string_scope.
Local Open Scope list_scope.
Local Open Scope Z_scope.

(** What the function may raise: a built-in exception, or
    [pybamm.ModelError]. *)
Inductive raised : Type :=
| Builtin (e : exn)
| ModelError.

Inductive outcome (A : Type) : Type :=
| Returns (a : A)
| Raises (r : raised).
Arguments Returns {A} a.
Arguments Raises {A} r.

Definition obind {A B} (m : outcome A) (k : A -> outcome B) : outcome B :=
  match m with
  | Returns a => k a
  | Raises r => Raises r
  end.

Notation "'run' x <- m ; k" := (obind m (fun x => k))
  (at level 10, x name, m at level 100, k at level 200).
Notation "'run' ' p <- m ; k" := (obind m (fun x => match x with p => k end))
  (at level 10, p pattern, m at level 100, k at level 200).

Definition lift {A} (m : result A) : outcome A :=
  match m with
  | Ok a => Returns a
  | Raise e => Raises (Builtin e)
  end.

(** A loop whose body may raise. *)
Fixpoint ofoldM {A S : Type} (f : S -> A -> outcome S) (s : S) (l : list A)
    : outcome S :=
  match l with
  | [] => Returns s
  | a :: l' => run s' <- f s a; ofoldM f s' l'
  end.

Section Model.
Context {T : Type}.
Context (array_id : list Z -> Z).
Context (array2string_int : list Z -> string).
Context (array2string : list T -> string).
Context (sparse_find : scipy_sparse T -> list Z * list Z * list T).
(** ["{}".format(const_value)]. *)
Context (format_constant : @Julia.Constant T -> string).

(** A [dict] whose keys are symbols, in insertion order; a symbol
    hashes to, and compares by, its id. *)
Definition SymbolDict : Type := list (Symbol T * Symbol T).

(** [d[k] = v]. *)
Fixpoint dict_setitem (k v : Symbol T) (d : SymbolDict) : SymbolDict :=
  match d with
  | [] => [(k, v)]
  | (k', v') :: d' =>
      if decide (id k = id k') then (k', v) :: d'
      else (k', v') :: dict_setitem k v d'
  end.

(** [k in d]. *)
Definition dict_contains (k : Symbol T) (d : SymbolDict) : bool :=
  existsb (fun kv => bool_decide (id kv.1 = id k)) d.

(** [{**a, **b}]. *)
Definition dict_merge (a b : SymbolDict) : SymbolDict :=
  foldl (fun d kv => dict_setitem kv.1 kv.2 d) [] (a ++ b).

(** What the function reads of a [pybamm.BaseModel]. *)
Record BaseModel : Type := mkBaseModel {
  input_parameters : list (Symbol T);
  rhs : SymbolDict;
  algebraic : SymbolDict;
  initial_conditions : SymbolDict
}.

(** [constants, julia_str = to_julia(eqn, debug=False)]: [to_julia]
    returns three values, so the assignment to two names raises. *)
Definition unpack2 (returned : @Julia.Tables T)
    : outcome (OrderedDict.t (@Julia.Constant T) * string) :=
  Raises (Builtin (ValueError "too many values to unpack (expected 2)")).

(** [variable_id_to_number[var_id]]. *)
Definition number_of (variable_id_to_number : OrderedDict.t string) (var_id : Z)
    : outcome string :=
  match OrderedDict.get var_id variable_id_to_number with
  | Some v => Returns v
  | None => Raises (Builtin (KeyError (PyStr.of_Z var_id)))
  end.

(** [{var.id: f"x{i+1}" for i, var in enumerate(variables)}]. *)
Definition number_variables (variables : list (Symbol T)) : OrderedDict.t string :=
  foldl (fun d iv => OrderedDict.set (id iv.2)
                       ("x" +:+ PyStr.of_Z (Z.of_nat iv.1 + 1)) d)
        [] (imap (fun i var => (i, var)) variables).

(** The loop [for eqn_id, const_value in constants.items()]. *)
Definition add_constants (all_constants_str : string)
    (constants : OrderedDict.t (@Julia.Constant T)) : string :=
  foldl (fun s entry =>
           s +:+ Julia.id_to_julia_variable entry.1 true +:+ " = " +:+
           format_constant entry.2 +:+ nl)
        all_constants_str constants.

(** [str(result_value)] for a constant equation that evaluates to a
    number, nothing otherwise. *)
Definition number_text (eqn : Symbol T) : option string :=
  match folded eqn with
  | Some (VNumber repr) => Some repr
  | _ => None
  end.

(** The body of the loop over the equations; the state is
    [(all_eqns_str, all_constants_str, all_julia_str)]. *)
Definition equation (model : BaseModel)
    (variable_id_to_number : OrderedDict.t string)
    (st : string * string * string) (item : Symbol T * Symbol T)
    : outcome (string * string * string) :=
  let '(all_eqns_str, all_constants_str, all_julia_str) := st in
  let '(var, eqn) := item in
  run returned <-
    lift (Julia.to_julia array_id array2string_int array2string sparse_find
            eqn false);
  run '(constants, julia_str) <- unpack2 returned;
  let all_constants_str := add_constants all_constants_str constants in
  let all_julia_str :=
    if decide (julia_str = "") then ""
    else all_julia_str +:+ "# '" +:+ name var +:+ "' equation" +:+ nl +:+
         julia_str +:+ nl in
  let result_var := Julia.id_to_julia_variable (id eqn) (is_constant eqn) in
  let eqn_str := default result_var (number_text eqn) in
  if dict_contains var (rhs model) then
    run x <- number_of variable_id_to_number (id var);
    Returns (all_eqns_str +:+ "   D(" +:+ x +:+ ") ~ " +:+ eqn_str +:+ "," +:+ nl,
             all_constants_str, all_julia_str)
  else if dict_contains var (algebraic model) then
    Returns (all_eqns_str +:+ "   0 ~ " +:+ eqn_str +:+ "," +:+ nl,
             all_constants_str, all_julia_str)
  else Returns (all_eqns_str, all_constants_str, all_julia_str).

(** The body of the loop over the initial conditions; the state is
    [(all_ics_str, all_constants_str, all_julia_str)]. *)
Definition initial_condition (variable_id_to_number : OrderedDict.t string)
    (st : string * string * string) (item : Symbol T * Symbol T)
    : outcome (string * string * string) :=
  let '(all_ics_str, all_constants_str, all_julia_str) := st in
  let '(var, eqn) := item in
  run returned <-
    lift (Julia.to_julia array_id array2string_int array2string sparse_find
            eqn false);
  run '(constants, julia_str) <- unpack2 returned;
  let all_constants_str := add_constants all_constants_str constants in
  let all_julia_str :=
    if decide (julia_str = "") then ""
    else all_julia_str +:+ "# '" +:+ name var +:+ "' initial conditions" +:+ nl +:+
         julia_str +:+ nl in
  match number_text eqn with
  | Some eqn_str =>
      run x <- number_of variable_id_to_number (id var);
      Returns (all_ics_str +:+ "   " +:+ x +:+ " => " +:+ eqn_str +:+ "," +:+ nl,
               all_constants_str, all_julia_str)
  | None => Raises ModelError
  end.

(** The two loops that rename variables and parameters in
    [all_julia_str]. *)
Definition rename_variables (variable_id_to_number : OrderedDict.t string)
    (all_julia_str : string) : string :=
  foldl (fun s entry =>
           PyStr.replace (Julia.id_to_julia_variable entry.1 false) entry.2 s)
        all_julia_str variable_id_to_number.

Definition rename_parameters (params : list (Symbol T)) (all_julia_str : string)
    : string :=
  foldl (fun s param =>
           let s := PyStr.replace (Julia.id_to_julia_variable (id param) false)
                      (name param) s in
           PyStr.replace
             (name param +:+ " = inputs['" +:+ name param +:+ "']" +:+ nl) "" s)
        all_julia_str params.

(** [get_julia_mtk_model(model)]. *)
Definition get_julia_mtk_model (model : BaseModel) : outcome string :=
  let mtk_str := "begin" +:+ nl in
  let mtk_str := mtk_str +:+ "@parameters t" in
  let mtk_str :=
    foldl (fun s param => s +:+ " " +:+ name param) mtk_str
      (input_parameters model) in
  let mtk_str := mtk_str +:+ nl in
  let variables := (dict_merge (rhs model) (algebraic model)).*1 in
  let variable_id_to_number := number_variables variables in
  run mtk_str <-
    ofoldM (fun s var =>
              run x <- number_of variable_id_to_number (id var);
              Returns (s +:+ "# " +:+ name var +:+ " -> " +:+ x +:+ nl))
      mtk_str variables;
  let mtk_str := mtk_str +:+ "@variables" in
  let mtk_str :=
    foldl (fun s var => s +:+ " " +:+ var +:+ "(t)") mtk_str
      (OrderedDict.values variable_id_to_number) in
  let mtk_str := mtk_str +:+ nl in
  let mtk_str := mtk_str +:+ "@derivatives D'~t" +:+ nl +:+ nl in
  run '(all_eqns_str, all_constants_str, all_julia_str) <-
    ofoldM (equation model variable_id_to_number) ("", "", "")
      (dict_merge (rhs model) (algebraic model));
  let all_julia_str := rename_variables variable_id_to_number all_julia_str in
  let all_julia_str := rename_parameters (input_parameters model) all_julia_str in
  let mtk_str :=
    mtk_str +:+ all_constants_str +:+ all_julia_str +:+ nl +:+
    "eqs = [" +:+ nl +:+ all_eqns_str +:+ "]" +:+ nl in
  let mtk_str := mtk_str +:+ "sys = ODESystem(eqs, t)" +:+ nl +:+ nl in
  run '(all_ics_str, all_constants_str, all_julia_str) <-
    ofoldM (initial_condition variable_id_to_number) ("", "", "")
      (initial_conditions model);
  let mtk_str :=
    mtk_str +:+ all_constants_str +:+ all_julia_str +:+ nl +:+
    "u0 = [" +:+ nl +:+ all_ics_str +:+ "]" +:+ nl in
  let mtk_str := mtk_str +:+ "end" +:+ nl in
  Returns mtk_str.

End Model.
Arguments BaseModel T : clear implicits.
End Mtk.

(** ** [input_parameter.py] and the evaluation-time [inputs] *)

Module Inputs.
Import Tree Gen.
Local Open Scope string_scope.

Section Objects.
(** The values a parameter takes. *)
Context {V : Type}.

(** A Python object passed as [inputs] (or [u]), through the two
    operations this code applies to it: [isinstance(u, dict)], and the
    subscript [u[name]] with a string [name].  The subscript is the
    object's own: the [__getitem__] of its type, or the [TypeError] of
    the interpreter when the type has none.  Any object is of this
    form; the built-in and library objects used below are written out
    after the two functions. *)
Record PyObject : Type := mkPyObject {
  isinstance_dict : bool;
  getitem : string -> result V
}.

(** [InputParameter.evaluate(self, t, y, u, known_evals)]; [name] is
    [self.name]. *)
Definition evaluate (name : string) (u : PyObject) : result V :=
  if negb (isinstance_dict u)
  then Raise (TypeError "inputs u should be a dictionary")
  else getitem u name.

(** [inputs['name']], the expression the generated code evaluates: the
    bare subscript, with no test of its own. *)
Definition subscript (inputs : PyObject) (name : string) : result V :=
  getitem inputs name.

(** [None], a number, a string, a list and a tuple: none is a [dict],
    and each rejects a string subscript with a [TypeError]. *)
Definition PyNone : PyObject :=
  mkPyObject false
    (fun _ => Raise (TypeError "'NoneType' object is not subscriptable")).

Definition PyNumber (repr : string) : PyObject :=
  mkPyObject false
    (fun _ => Raise (TypeError "'float' object is not subscriptable")).

Definition PyString (s : string) : PyObject :=
  mkPyObject false (fun _ => Raise (TypeError "string indices must be integers")).

Definition PyList (l : list V) : PyObject :=
  mkPyObject false
    (fun _ => Raise (TypeError "list indices must be integers or slices, not str")).

Definition PyTuple (l : list V) : PyObject :=
  mkPyObject false
    (fun _ => Raise (TypeError "tuple indices must be integers or slices, not str")).

(** A plain [dict] from names to values. *)
Definition PyDict (d : gmap string V) : PyObject :=
  mkPyObject true (dict_getitem d).

(** A [numpy.ndarray] without named fields: not a [dict]; a string
    subscript is an [IndexError]. *)
Definition NdArray (a : list V) : PyObject :=
  mkPyObject false
    (fun _ => Raise (IndexError
       "only integers, slices (`:`), ellipsis (`...`), numpy.newaxis (`None`) and integer or boolean arrays are valid indices")).

(** A [collections.defaultdict]: a subclass of [dict] whose
    [__missing__] returns what [default_factory] makes, or raises
    [KeyError] without a factory.  (It also stores the default under
    the key; the value returned is what matters here.) *)
Definition DefaultDict (default_factory : option V) (d : gmap string V)
    : PyObject :=
  mkPyObject true
    (fun key =>
       match d !! key with
       | Some v => Ok v
       | None =>
           match default_factory with
           | Some v => Ok v
           | None => Raise (KeyError key)
           end
       end).

(** The built-in objects that are not mappings. *)
Inductive builtin_non_mapping : PyObject -> Prop :=
| non_mapping_none : builtin_non_mapping PyNone
| non_mapping_number repr : builtin_non_mapping (PyNumber repr)
| non_mapping_string s : builtin_non_mapping (PyString s)
| non_mapping_list l : builtin_non_mapping (PyList l)
| non_mapping_tuple l : builtin_non_mapping (PyTuple l).

Definition is_type_error {A} (r : result A) : Prop :=
  exists msg, r = Raise (TypeError msg).

End Objects.
Arguments PyObject V : clear implicits.
End Inputs.

(** ** The [evaluate] methods of [EvaluatorPython] and [EvaluatorJax] *)

Module Evaluator.
Import Tree.

Section Evaluate.
(** Array entries, constants, the time argument, [inputs], [known_evals]
    and what the compiled function returns. *)
Context {T C Tm In KE R : Type}.

(** The signature of the function compiled from the generated code. *)
Definition compiled : Type :=
  list C -> option Tm -> option (ndarray T) -> option (ndarray T) ->
  In -> option KE -> R.

Record EvaluatorPython : Type := mkEvaluatorPython {
  _constants : list C;
  _evaluate : compiled
}.

Record EvaluatorJax : Type := mkEvaluatorJax {
  _jax_constants : list C;
  _jit_evaluate : compiled
}.

(** [y.ndim] and [y.reshape(-1, 1)]. *)
Definition ndim (y : ndarray T) : nat := length (nd_shape y).

Definition reshape_column (y : ndarray T) : ndarray T :=
  mk_ndarray [foldr Nat.mul 1%nat (nd_shape y); 1%nat] (nd_data y).

(** [if y is not None and y.ndim == 1: y = y.reshape(-1, 1)]. *)
Definition as_column (y : option (ndarray T)) : option (ndarray T) :=
  match y with
  | Some a => if decide (ndim a = 1%nat) then Some (reshape_column a) else Some a
  | None => None
  end.

(** What [evaluate] returns: [result], or the pair
    [(result, known_evals)]. *)
Inductive Returned : Type :=
| Value_ (result_ : R)
| WithKnownEvals (result_ : R) (known_evals : KE).

Definition EvaluatorPython_evaluate (self : EvaluatorPython)
    (t : option Tm) (y y_dot : option (ndarray T)) (inputs : In)
    (known_evals : option KE) : Returned :=
  let y := as_column y in
  let result_ := _evaluate self (_constants self) t y y_dot inputs known_evals in
  match known_evals with
  | Some ke => WithKnownEvals result_ ke
  | None => Value_ result_
  end.

Definition EvaluatorJax_evaluate (self : EvaluatorJax)
    (t : option Tm) (y y_dot : option (ndarray T)) (inputs : In)
    (known_evals : option KE) : Returned :=
  let y := as_column y in
  let result_ :=
    _jit_evaluate self (_jax_constants self) t y y_dot inputs known_evals in
  match known_evals with
  | Some ke => WithKnownEvals result_ ke
  | None => Value_ result_
  end.

End Evaluate.
End Evaluator.

(** * Properties *)

(** ** Concrete trees used in the statements below *)

Module Examples.
Import Tree.
Local Open Scope string_scope.
Local Open Scope list_scope.
Local Open Scope Z_scope.

(** The id the front end gives to an index array (any function does). *)
Definition array_id (indices : list Z) : Z := 900 + Z.of_nat (length indices).

Definition dense_shape : Value Z := VArray (mk_ndarray [2%nat; 1%nat] [0; 0]).

Definition sparse_value : Value Z :=
  VSparse (mk_scipy_sparse [0; 1] [0; 1] [5; 6] (2, 2)).

(** [pybamm.StateVector(slice(0, 2))]. *)
Definition y01 : Symbol Z :=
  mkSymbol 1 "y[0:2]" (StateVector [true; true]) None dense_shape (2, 1)%nat [].

(** A constant sparse [pybamm.Matrix]. *)
Definition sparse_matrix : Symbol Z :=
  mkSymbol 2 "Sparse Matrix (2, 2)" (OtherSymbol "<class 'pybamm.Matrix'>")
    (Some sparse_value) sparse_value (2, 2)%nat [].

(** A constant dense [pybamm.Vector]. *)
Definition dense_vector : Symbol Z :=
  mkSymbol 3 "Column vector of length 2" (OtherSymbol "<class 'pybamm.Vector'>")
    (Some dense_shape) dense_shape (2, 1)%nat [].

(** [y * M], [M / y] and [inner(y, M)] with [M] sparse. *)
Definition y_times_sparse : Symbol Z :=
  mkSymbol 10 "*" (BinaryOperator Multiplication) None dense_shape (2, 1)%nat
    [y01; sparse_matrix].

Definition sparse_over_y : Symbol Z :=
  mkSymbol 11 "/" (BinaryOperator Division) None sparse_value (2, 2)%nat
    [sparse_matrix; y01].

Definition inner_y_sparse : Symbol Z :=
  mkSymbol 12 "inner product" (BinaryOperator Inner) None dense_shape (2, 1)%nat
    [y01; sparse_matrix].

(** Two coordinate blocks of shape [(1, 1)]. *)
Definition block_a : @Jax.JaxCooMatrix Z := Jax.JaxCooMatrix_init [0] [0] [1] (1, 1).
Definition block_b : @Jax.JaxCooMatrix Z := Jax.JaxCooMatrix_init [0] [0] [2] (1, 1).

(** The coordinate matrix with a repeated row index. *)
Definition repeated_rows : @Jax.JaxCooMatrix Z :=
  Jax.JaxCooMatrix_init [0; 0; 1] [0; 1; 0] [1; 2; 3] (2, 2).

End Examples.

(** ** The custom kernels *)

(** C6: on a well-formed coordinate matrix and a column vector [b] of
    matching length, [dot_product] returns a vector with one entry per
    matrix row; entry [r] is the zero it starts from with every
    [data[k] * b[col[k]]] whose [row[k]] is [r] added to it, in entry
    order, so repeated row indices accumulate.  Rows [[0,0,1]], columns
    [[0,1,0]], data [[1,2,3]] and [b = [1,1]] give [[3,3]]. *)
Theorem dot_product_scatter_add :
  (forall (T : Type) (zero : T) (add mul : T -> T -> T)
          (m : @Jax.JaxCooMatrix T) (b : list T),
      Jax.wf_coo m ->
      Z.of_nat (length b) = (Jax.shape m).2 ->
      length (Jax.dot_product zero add mul m b) = Z.to_nat (Jax.shape m).1 /\
      forall r : nat, (r < Z.to_nat (Jax.shape m).1)%nat ->
        Jax.dot_product zero add mul m b !! r =
        Some (Jax.accumulate add zero (Jax.contributions zero mul m b r))) /\
  Jax.dot_product 0 Z.add Z.mul Examples.repeated_rows [1; 1] = [3; 3].
Proof.
  split; [|reflexivity].
  intros T zero add mul m b Hwf Hb. split.
  - apply Jax.dot_product_length.
  - intros r Hr. by apply Jax.dot_product_lookup.
Qed.

Lemma dot_product_scatter_add_witness :
  Jax.dot_product 0 Z.add Z.mul Examples.repeated_rows [1; 1] !! 0%nat =
  Some (Jax.accumulate Z.add 0
          (Jax.contributions 0 Z.mul Examples.repeated_rows [1; 1] 0)).
Proof.
  refine (proj2 (proj1 dot_product_scatter_add Z 0 Z.add Z.mul
                   Examples.repeated_rows [1; 1] _ _) 0%nat _).
  - unfold Jax.wf_coo. simpl. split_and!; try done.
    + repeat constructor; lia.
    + repeat constructor; lia.
  - reflexivity.
  - simpl. lia.
Defined.

(** C2: what [jax_coo_vstack] does instead.  Called on a tuple of
    blocks, as the generated code calls it, it raises at
    [blocks[block_mask]]; and the shape it computes comes from extents
    that are all zero, whatever the blocks.  On the two blocks of shape
    [(1, 1)] the summed extents are [(2, 2)]. *)
Theorem jax_coo_vstack_never_stacks :
  (forall (T : Type) (zero : T) (blocks : list (@Jax.JaxCooMatrix T)),
      Jax.jax_coo_vstack zero blocks =
      Raise (TypeError "tuple indices must be integers or slices")) /\
  (forall M : nat, Jax.vstack_shape M = (0, 0)) /\
  Jax.summed_extents [Examples.block_a; Examples.block_b] = (2, 2).
Proof.
  split_and!.
  - intros. apply Jax.jax_coo_vstack_raises.
  - apply Jax.vstack_shape_zero.
  - reflexivity.
Qed.

(** ** Instruction selection under [no_sparse] *)

(** C1: the rules of [Multiplication], [Division] and [Inner] under
    [no_sparse], for a node with the two children [l] and [r].  With a
    sparse-shaped left operand, [Multiplication] and [Inner] apply the
    left operand's kernel to the right operand, and [Division] raises
    before it emits anything.  With only the right operand sparse-shaped,
    [Multiplication] applies the right operand's kernel to the right
    operand itself and [Inner] calls the kernel of the left, dense
    operand.  The three trees [y * M], [inner(y, M)] and [M / y] with a
    sparse [M] show it. *)
Theorem no_sparse_sparse_operand_dispatch :
  (forall (T : Type) (symbol l r : Tree.Symbol T) (c0 c1 : string),
      Tree.children symbol = [l; r] ->
      (Tree.issparse (Tree.evaluate_for_shape l) = true ->
         Python.binary_operator symbol Tree.Multiplication [c0; c1] true =
           Ok (c0 +:+ ".dot_product(" +:+ c1 +:+ ")")%string /\
         Python.binary_operator symbol Tree.Inner [c0; c1] true =
           Ok (c0 +:+ ".dot_product(" +:+ c1 +:+ ")")%string /\
         Python.binary_operator symbol Tree.Division [c0; c1] true =
           Raise (UnboundLocalError "dummy_eval_right")) /\
      (Tree.issparse (Tree.evaluate_for_shape l) = false ->
       Tree.issparse (Tree.evaluate_for_shape r) = true ->
         Python.binary_operator symbol Tree.Multiplication [c0; c1] true =
           Ok (c1 +:+ ".dot_product(" +:+ c1 +:+ ")")%string /\
         Python.binary_operator symbol Tree.Inner [c0; c1] true =
           Ok (c0 +:+ ".dot_product(" +:+ c1 +:+ ")")%string)) /\
  (exists tables,
     Python.find_symbols Examples.array_id Examples.y_times_sparse
       Python.empty_tables true = Ok tables /\
     OrderedDict.get 10 (Python.variable_symbols tables) =
       Some "const_00002.dot_product(const_00002)"%string) /\
  (exists tables,
     Python.find_symbols Examples.array_id Examples.inner_y_sparse
       Python.empty_tables true = Ok tables /\
     OrderedDict.get 12 (Python.variable_symbols tables) =
       Some "var_00001.dot_product(const_00002)"%string) /\
  Python.find_symbols Examples.array_id Examples.sparse_over_y
    Python.empty_tables true = Raise (UnboundLocalError "dummy_eval_right").
Proof.
  split_and!.
  - intros T symbol l r c0 c1 Hch. unfold Python.binary_operator.
    rewrite Hch. cbn [Tree.list_getitem lookup list_lookup rbind].
    split.
    + intros ->. by split_and!.
    + intros -> ->. by split.
  - eexists. split; [vm_compute; reflexivity | reflexivity].
  - eexists. split; [vm_compute; reflexivity | reflexivity].
  - vm_compute. reflexivity.
Qed.

(** ** The evaluators *)

(** C10: [evaluate] of [EvaluatorPython] and of [EvaluatorJax], called
    with a one-dimensional [y] of length [n], runs the compiled body on
    the [(n, 1)] column with the same entries, and returns what the same
    call returns when that column is passed. *)
Theorem evaluate_reshapes_flat_state :
  forall (T C Tm In KE R : Type)
         (py : @Evaluator.EvaluatorPython T C Tm In KE R)
         (jx : @Evaluator.EvaluatorJax T C Tm In KE R)
         (t : option Tm) (n : nat) (entries : list T)
         (y_dot : option (Tree.ndarray T)) (inputs : In)
         (known_evals : option KE),
    let flat := Tree.mk_ndarray [n] entries in
    let column := Tree.mk_ndarray [n; 1%nat] entries in
    let wrap (r : R) :=
      match known_evals with
      | Some ke => Evaluator.WithKnownEvals r ke
      | None => Evaluator.Value_ r
      end in
    Evaluator.EvaluatorPython_evaluate py t (Some flat) y_dot inputs known_evals =
      wrap (Evaluator._evaluate py (Evaluator._constants py) t (Some column)
              y_dot inputs known_evals) /\
    Evaluator.EvaluatorPython_evaluate py t (Some flat) y_dot inputs known_evals =
      Evaluator.EvaluatorPython_evaluate py t (Some column) y_dot inputs known_evals /\
    Evaluator.EvaluatorJax_evaluate jx t (Some flat) y_dot inputs known_evals =
      wrap (Evaluator._jit_evaluate jx (Evaluator._jax_constants jx) t
              (Some column) y_dot inputs known_evals) /\
    Evaluator.EvaluatorJax_evaluate jx t (Some flat) y_dot inputs known_evals =
      Evaluator.EvaluatorJax_evaluate jx t (Some column) y_dot inputs known_evals.
Proof.
  intros T C Tm In KE R py jx t n entries y_dot inputs known_evals flat column wrap.
  assert (Hflat : Evaluator.as_column (Some flat) = Some column).
  { unfold Evaluator.as_column, Evaluator.ndim, Evaluator.reshape_column.
    subst flat column. cbn [Tree.nd_shape Tree.nd_data length foldr].
    rewrite decide_True by reflexivity. by rewrite Nat.mul_1_r. }
  assert (Hcol : Evaluator.as_column (Some column) = Some column).
  { unfold Evaluator.as_column, Evaluator.ndim. subst column.
    cbn [Tree.nd_shape length]. by rewrite decide_False by discriminate. }
  unfold Evaluator.EvaluatorPython_evaluate, Evaluator.EvaluatorJax_evaluate.
  rewrite Hflat, Hcol. subst wrap. by destruct known_evals.
Qed.

(** ** Input parameters *)


(** The input parameter ["Current function [A]"]. *)
Definition current_function : Tree.Symbol Z :=
  Tree.mkSymbol 20 "Current function [A]" Tree.InputParameter
    None (Tree.VNumber "nan") (1, 1)%nat [].



(** ** State vectors *)

Module StateVectorFacts.
Import Tree Gen.
Local Open Scope Z_scope.

(** The ascending run [i, i+1, ..., i+k-1]. *)
Definition contiguous_run (i : Z) (k : nat) : list Z :=
  map (fun j => i + Z.of_nat j) (seq 0 k).

Lemma contiguous_run_S i k :
  contiguous_run i (S k) = i :: contiguous_run (i + 1) k.
Proof.
  unfold contiguous_run. cbn [seq map]. f_equal; [lia|].
  rewrite <- seq_shift, map_map. apply map_ext. intros j. lia.
Qed.

Lemma contiguous_run_length i k : length (contiguous_run i k) = k.
Proof. unfold contiguous_run. by rewrite length_map, length_seq. Qed.

Lemma argwhere_from_bounds mask : forall i,
  Forall (fun z => i <= z < i + Z.of_nat (length mask)) (argwhere_from i mask).
Proof.
  induction mask as [|b mask IH]; intros i; cbn [argwhere_from length].
  - constructor.
  - specialize (IH (i + 1)).
    assert (Htl : Forall (fun z => i <= z < i + Z.of_nat (S (length mask)))
                    (argwhere_from (i + 1) mask)).
    { eapply Forall_impl; [exact IH|]. simpl. intros z Hz. lia. }
    destruct b; [constructor; [lia | exact Htl] | exact Htl].
Qed.

Lemma int32_small z : - 2^31 <= z < 2^31 -> int32 z = z.
Proof.
  intros Hz. unfold int32. rewrite Z.mod_small; lia.
Qed.

Lemma map_int32_small l :
  Forall (fun z => - 2^31 <= z < 2^31) l -> map int32 l = l.
Proof.
  induction 1 as [|z l Hz _ IH]; cbn [map]; [done|].
  by rewrite IH, int32_small.
Qed.

Lemma argwhere_int32 mask :
  Z.of_nat (length mask) < 2^31 ->
  map int32 (argwhere mask) = argwhere mask /\
  Forall (fun z => 0 <= z < 2^31 - 1) (argwhere mask).
Proof.
  intros Hlen. pose proof (argwhere_from_bounds mask 0) as Hb.
  assert (Hr : Forall (fun z => 0 <= z < 2^31 - 1) (argwhere mask)).
  { eapply Forall_impl; [exact Hb|]. simpl. intros z Hz. lia. }
  split; [|exact Hr]. apply map_int32_small.
  eapply Forall_impl; [exact Hr|]. simpl. intros z Hz. lia.
Qed.

Lemma consecutive_cons2 a b l :
  consecutive (a :: b :: l) = Z.eqb (int32 (b - a)) 1 && consecutive (b :: l).
Proof.
  unfold consecutive. cbn [length drop]. rewrite !Nat.sub_succ, !Nat.sub_0_r.
  cbn [take zip_with forallb]. reflexivity.
Qed.

Lemma consecutive_run i k :
  0 <= i -> i + Z.of_nat k < 2^31 -> consecutive (contiguous_run i k) = true.
Proof.
  revert i. induction k as [|k IH]; intros i Hi Hk; [reflexivity|].
  rewrite contiguous_run_S. destruct k as [|k]; [reflexivity|].
  rewrite contiguous_run_S, consecutive_cons2, <- contiguous_run_S.
  rewrite IH by lia. rewrite int32_small by lia.
  replace (i + 1 - i) with 1 by lia. reflexivity.
Qed.

Lemma consecutive_is_run l :
  Forall (fun z => 0 <= z < 2^31 - 1) l ->
  consecutive l = true ->
  exists i, l = contiguous_run i (length l).
Proof.
  induction l as [|a l IH]; intros Hall Hc.
  - exists 0. reflexivity.
  - apply Forall_cons in Hall as [Ha Hall]. destruct l as [|b l].
    + exists a. unfold contiguous_run. cbn. f_equal. lia.
    + rewrite consecutive_cons2 in Hc. apply andb_true_iff in Hc as [Hd Hc].
      destruct (IH Hall Hc) as [i Hi].
      pose proof Hall as Hall'. apply Forall_cons in Hall' as [Hb _].
      rewrite int32_small in Hd by lia. apply Z.eqb_eq in Hd.
      exists a. change (length (a :: b :: l)) with (S (length (b :: l))).
      rewrite contiguous_run_S. f_equal.
      assert (i = b) as ->.
      { cbn [length] in Hi. rewrite contiguous_run_S in Hi. congruence. }
      replace (a + 1) with b by lia. exact Hi.
Qed.

Lemma array_first_run i k : array_first (contiguous_run i (S k)) = Ok i.
Proof. by rewrite contiguous_run_S. Qed.

Lemma last_cons_cons (a b : Z) l d :
  List.last (a :: b :: l) d = List.last (b :: l) d.
Proof. reflexivity. Qed.

Lemma last_run k : forall i d,
  List.last (contiguous_run i (S k)) d = i + Z.of_nat k.
Proof.
  induction k as [|k IH]; intros i d.
  - cbn. lia.
  - rewrite contiguous_run_S, (contiguous_run_S (i + 1)), last_cons_cons.
    rewrite <- contiguous_run_S, IH. lia.
Qed.

Lemma array_last_run i k :
  array_last (contiguous_run i (S k)) = Ok (i + Z.of_nat k).
Proof.
  destruct k as [|k].
  - cbn. f_equal; lia.
  - rewrite contiguous_run_S. cbn [array_last]. rewrite last_run. f_equal; lia.
Qed.

End StateVectorFacts.

(** ** Unfolding [find_symbols] *)

Module PythonFacts.
Import Tree Gen Python StateVectorFacts.
Local Open Scope string_scope.
Local Open Scope list_scope.
Local Open Scope Z_scope.

Section Facts.
Context {T : Type} (array_id : list Z -> Z).

Abbreviation find_symbols := (Python.find_symbols (T := T) array_id).
Abbreviation select := (Python.select (T := T) array_id).
Abbreviation find_symbols_children := (Python.find_symbols_children (T := T) array_id).

(** The body of [find_symbols], with the loop over the children named. *)
Lemma find_symbols_unfold (symbol : Symbol T) tables no_sparse :
  find_symbols symbol tables no_sparse =
  match folded symbol with
  | Some value =>
      Ok (mkTables
            (fold_constant symbol value (constant_symbols tables) no_sparse)
            (variable_symbols tables))
  | None =>
      do tables <- find_symbols_children (children symbol) tables no_sparse;
      do '(symbol_str, constants) <-
         select symbol (map child_var (children symbol))
           (constant_symbols tables) no_sparse;
      Ok (mkTables constants
            (OrderedDict.set (id symbol) symbol_str (variable_symbols tables)))
  end.
Proof.
  destruct symbol as [i nm k f sh shp cs]. cbn [Python.find_symbols folded children].
  destruct f as [v|]; [reflexivity|].
  f_equal. unfold Python.find_symbols_children.
  generalize tables. induction cs as [|c cs IH]; intros tb; [reflexivity|].
  cbn [foldM]. destruct (find_symbols c tb no_sparse); [|reflexivity].
  cbn [rbind]. apply IH.
Qed.

Lemma find_symbols_leaf (symbol : Symbol T) tables no_sparse :
  folded symbol = None ->
  children symbol = [] ->
  find_symbols symbol tables no_sparse =
  (do '(symbol_str, constants) <-
      select symbol [] (constant_symbols tables) no_sparse;
   Ok (mkTables constants
         (OrderedDict.set (id symbol) symbol_str (variable_symbols tables)))).
Proof.
  intros Hf Hc. rewrite find_symbols_unfold, Hf, Hc. reflexivity.
Qed.

Lemma state_vector_run mask (constants : OrderedDict.t (@Constant T)) i k :
  Z.of_nat (length mask) < 2^31 ->
  (0 < k)%nat ->
  argwhere mask = contiguous_run i k ->
  state_vector array_id mask constants =
  Ok ("y[" +:+ PyStr.of_Z i +:+ ":" +:+ PyStr.of_Z (i + Z.of_nat k) +:+ "]",
      constants).
Proof.
  intros Hlen Hk Hrun. destruct (argwhere_int32 mask Hlen) as [Hmap Hbounds].
  unfold state_vector. rewrite Hmap, Hrun. rewrite Hrun in Hbounds.
  destruct k as [|k]; [lia|].
  assert (Hi : 0 <= i < 2^31 - 1).
  { rewrite contiguous_run_S in Hbounds. by apply Forall_cons in Hbounds as [? _]. }
  assert (Hlast : 0 <= i + Z.of_nat k < 2^31 - 1).
  { rewrite Forall_forall in Hbounds. apply Hbounds.
    unfold contiguous_run. apply list_elem_of_fmap. exists k. split; [done|].
    apply list_elem_of_In, in_seq. lia. }
  rewrite consecutive_run by lia. rewrite orb_true_r.
  rewrite array_first_run, array_last_run. cbn [rbind].
  replace (i + Z.of_nat k + 1) with (i + Z.of_nat (S k)) by lia. reflexivity.
Qed.

Lemma state_vector_scattered mask (constants : OrderedDict.t (@Constant T)) :
  Z.of_nat (length mask) < 2^31 ->
  (forall i k, argwhere mask <> contiguous_run i k) ->
  state_vector array_id mask constants =
  Ok ("y[" +:+ id_to_python_variable (array_id (argwhere mask)) true +:+ "]",
      OrderedDict.set (array_id (argwhere mask)) (CIndices (argwhere mask))
        constants).
Proof.
  intros Hlen Hnot. destruct (argwhere_int32 mask Hlen) as [Hmap Hbounds].
  unfold state_vector. rewrite Hmap.
  destruct (consecutive (argwhere mask)) eqn:Hc.
  { destruct (consecutive_is_run _ Hbounds Hc) as [i Hi]. by destruct (Hnot _ _ Hi). }
  rewrite orb_false_r. rewrite bool_decide_eq_false_2; [reflexivity|].
  intros Hone. destruct (argwhere mask) as [|a [|b l]]; discriminate.
Qed.

End Facts.
End PythonFacts.

(** C7: a [StateVector] node whose mask (shorter than [2^31]) selects
    the run [i, ..., i+k-1] with [k >= 1] compiles to the slice
    [y[i:i+k]] and leaves the constants as they were; a mask whose
    selected indices are no such run adds the index array to the
    constants and compiles to [y[name]] with [name] the name of that
    constant. *)
Theorem state_vector_slice_or_index_constant :
  forall (T : Type) (array_id : list Z -> Z) (symbol : Tree.Symbol T)
         (mask : list bool) (tables : @Python.Tables T) (no_sparse : bool),
    Tree.kind symbol = Tree.StateVector mask ->
    Tree.folded symbol = None ->
    Tree.children symbol = [] ->
    Z.of_nat (length mask) < 2^31 ->
    (forall (i : Z) (k : nat),
        (0 < k)%nat ->
        Gen.argwhere mask = StateVectorFacts.contiguous_run i k ->
        Python.find_symbols array_id symbol tables no_sparse =
        Ok (Python.mkTables (Python.constant_symbols tables)
              (OrderedDict.set (Tree.id symbol)
                 ("y[" +:+ PyStr.of_Z i +:+ ":" +:+
                  PyStr.of_Z (i + Z.of_nat k) +:+ "]")%string
                 (Python.variable_symbols tables)))) /\
    ((forall (i : Z) (k : nat),
         Gen.argwhere mask <> StateVectorFacts.contiguous_run i k) ->
     let indices := Gen.argwhere mask in
     Python.find_symbols array_id symbol tables no_sparse =
     Ok (Python.mkTables
           (OrderedDict.set (array_id indices) (Python.CIndices indices)
              (Python.constant_symbols tables))
           (OrderedDict.set (Tree.id symbol)
              ("y[" +:+ Python.id_to_python_variable (array_id indices) true +:+
               "]")%string
              (Python.variable_symbols tables)))).
Proof.
  intros T array_id symbol mask tables no_sparse Hkind Hfold Hleaf Hlen.
  rewrite (PythonFacts.find_symbols_leaf array_id symbol tables no_sparse Hfold Hleaf).
  unfold Python.select. rewrite Hkind. split.
  - intros i k Hk Hrun.
    by rewrite (PythonFacts.state_vector_run array_id mask _ i k Hlen Hk Hrun).
  - intros Hnot. cbv zeta.
    by rewrite (PythonFacts.state_vector_scattered array_id mask _ Hlen Hnot).
Qed.

Lemma state_vector_slice_or_index_constant_witness :
  Python.find_symbols Examples.array_id Examples.y01 Python.empty_tables false =
  Ok (Python.mkTables [] [(1, "y[0:2]"%string)]).
Proof.
  assert (Hlen : Z.of_nat (length [true; true]) < 2^31) by (vm_compute; reflexivity).
  exact (proj1 (state_vector_slice_or_index_constant Z Examples.array_id
                  Examples.y01 [true; true] Python.empty_tables false
                  eq_refl eq_refl eq_refl Hlen)
           0 2%nat (Nat.lt_0_succ 1) eq_refl).
Defined.

(** ** The order [sorted] uses on the tuples [(start, fragment)] *)

Module TupleOrder.
Import Gen.
Local Open Scope Z_scope.

Lemma ascii_compare_lt_trans a b c :
  Ascii.compare a b = Lt -> Ascii.compare b c = Lt -> Ascii.compare a c = Lt.
Proof.
  unfold Ascii.compare. rewrite !N.compare_lt_iff. apply N.lt_trans.
Qed.

Lemma string_compare_lt_trans s1 : forall s2 s3,
  String.compare s1 s2 = Lt -> String.compare s2 s3 = Lt ->
  String.compare s1 s3 = Lt.
Proof.
  induction s1 as [|c1 s1 IH]; intros [|c2 s2] [|c3 s3]; cbn [String.compare];
    try done.
  destruct (Ascii.compare c1 c2) eqn:H12; try done;
    destruct (Ascii.compare c2 c3) eqn:H23; try done; intros Hs12 Hs23.
  - apply Ascii.compare_eq_iff in H12 as ->. rewrite H23. by apply IH with s2.
  - apply Ascii.compare_eq_iff in H12 as ->. by rewrite H23.
  - apply Ascii.compare_eq_iff in H23 as <-. by rewrite H12.
  - by rewrite (ascii_compare_lt_trans _ _ _ H12 H23).
Qed.

Lemma str_le_trans s1 s2 s3 : PyStr.le s1 s2 -> PyStr.le s2 s3 -> PyStr.le s1 s3.
Proof.
  unfold PyStr.le, String.leb.
  destruct (String.compare s1 s2) eqn:H12; try done;
    destruct (String.compare s2 s3) eqn:H23; try done; intros _ _.
  - apply String.compare_eq_iff in H12 as ->. by rewrite H23.
  - apply String.compare_eq_iff in H12 as ->. by rewrite H23.
  - apply String.compare_eq_iff in H23 as <-. by rewrite H12.
  - by rewrite (string_compare_lt_trans _ _ _ H12 H23).
Qed.

#[global] Instance tuple_le_total : Total tuple_le.
Proof.
  intros [a1 s1] [a2 s2]. unfold tuple_le, PyStr.le. cbn [fst snd].
  destruct (Z.lt_trichotomy a1 a2) as [?|[->|?]]; [auto| |auto].
  destruct (String.leb_total s1 s2); auto.
Qed.

#[global] Instance tuple_le_trans : Transitive tuple_le.
Proof.
  intros [a1 s1] [a2 s2] [a3 s3]. unfold tuple_le. cbn [fst snd].
  intros [H12|[-> H12]] [H23|[-> H23]]; [left; lia | auto | auto |].
  right. split; [done|]. by apply str_le_trans with s2.
Qed.

#[global] Instance tuple_le_antisym : AntiSymm eq tuple_le.
Proof.
  intros [a1 s1] [a2 s2]. unfold tuple_le, PyStr.le. cbn [fst snd].
  intros [H12|[-> H12]] [H21|[H21' H21]]; try lia.
  f_equal. by apply String.leb_antisym.
Qed.

(** [sorted l] is the one ascending arrangement of [l]. *)
Lemma sorted_Sorted l : Sorted tuple_le (sorted l).
Proof. apply (Sorted_merge_sort tuple_le). Qed.

Lemma sorted_Permutation l : sorted l ≡ₚ l.
Proof. apply merge_sort_Permutation. Qed.

Lemma sorted_unique l l' :
  Sorted tuple_le l' -> l' ≡ₚ l -> l' = sorted l.
Proof.
  intros Hs Hp. apply (Sorted_unique tuple_le); [done|apply sorted_Sorted|].
  by rewrite Hp, sorted_Permutation.
Qed.

(** The arrangement depends on the tuples only, not on the order they
    come in. *)
Lemma sorted_order_independent l l' : l' ≡ₚ l -> sorted l' = sorted l.
Proof.
  intros Hp. apply sorted_unique; [apply sorted_Sorted|].
  by rewrite sorted_Permutation.
Qed.

(** The first components of an ascending arrangement ascend. *)
Lemma sorted_starts_ascend l : Sorted Z.le (sorted l).*1.
Proof.
  pose proof (StronglySorted_merge_sort tuple_le l) as Hs.
  fold (sorted l) in Hs. apply StronglySorted_Sorted.
  induction Hs as [|x l' Hs IH Hall]; cbn [fmap list_fmap]; constructor; [done|].
  apply Forall_fmap. eapply Forall_impl; [exact Hall|].
  intros y [Hlt|[Heq _]]; cbn; lia.
Qed.

End TupleOrder.

(** ** Domain-ordered concatenation *)

Module DomainFacts.
Import Tree Gen.
Local Open Scope string_scope.
Local Open Scope list_scope.
Local Open Scope Z_scope.

(** What a [DomainConcatenation] declares for the secondary point [i]:
    for every child and every domain of the child, in encounter order,
    the start of the domain's slice in the whole vector and the
    sub-fragment that takes the child's slice.  [None] when the node
    misses a domain or a slice. *)
Definition declared_item (dc : DomainConcatenationData) (i : nat)
    (render : string -> slice -> string) (child_var : string)
    (item : string * list slice) : option (Z * string) :=
  dom_slices ← _slices dc !! item.1;
  s ← dom_slices !! i;
  cs ← item.2 !! i;
  Some (start s, render child_var cs).

Fixpoint declared_items (dc : DomainConcatenationData) (i : nat)
    (render : string -> slice -> string) (child_var : string)
    (items : list (string * list slice)) : option (list (Z * string)) :=
  match items with
  | [] => Some []
  | item :: items' =>
      x ← declared_item dc i render child_var item;
      xs ← declared_items dc i render child_var items';
      Some (x :: xs)
  end.

Fixpoint declared_children (dc : DomainConcatenationData) (i : nat)
    (render : string -> slice -> string)
    (cvs : list (string * list (string * list slice)))
    : option (list (Z * string)) :=
  match cvs with
  | [] => Some []
  | cv :: cvs' =>
      xs ← declared_items dc i render cv.1 cv.2;
      ys ← declared_children dc i render cvs';
      Some (xs ++ ys)
  end.

Definition declared (dc : DomainConcatenationData)
    (render : string -> slice -> string) (children_vars : list string)
    (i : nat) : option (list (Z * string)) :=
  declared_children dc i render (zip children_vars (_children_slices dc)).

(** The arrangement the design describes: a stable sort on the start
    alone, so that equal starts keep their encounter order. *)
Fixpoint insert_by_start (x : Z * string) (l : list (Z * string))
    : list (Z * string) :=
  match l with
  | [] => [x]
  | y :: l' =>
      if decide (x.1 <= y.1) then x :: l else y :: insert_by_start x l'
  end.

Definition stable_by_start (l : list (Z * string)) : list (Z * string) :=
  foldr insert_by_start [] l.

(** ["np.concatenate((...))"] around the joined sub-fragments. *)
Definition concatenate_call (vectors : list string) : string :=
  "np.concatenate((" +:+ PyStr.join "," vectors +:+ "))".

(** Three sub-domains whose declared starts are 5, 0 and 10, and two
    whose declared starts are both 0. *)
Definition dc_5_0_10 : DomainConcatenationData :=
  mk_domain_concatenation 1
    (list_to_map [("negative electrode", [mk_slice 5 10]);
                  ("separator", [mk_slice 0 5]);
                  ("positive electrode", [mk_slice 10 15])])
    [[("negative electrode", [mk_slice 0 5])];
     [("separator", [mk_slice 0 5])];
     [("positive electrode", [mk_slice 0 5])]].

Definition vars_5_0_10 : list string := ["var_00001"; "var_00002"; "var_00003"].

Definition dc_tie : DomainConcatenationData :=
  mk_domain_concatenation 1
    (list_to_map [("current collector", [mk_slice 0 0]);
                  ("separator", [mk_slice 0 5])])
    [[("current collector", [mk_slice 0 0])];
     [("separator", [mk_slice 0 5])]].

Definition vars_tie : list string := ["var_00002"; "var_00001"].

Section Loops.
Context (dc : DomainConcatenationData) (render : string -> slice -> string).

Lemma foldM_domain_item i child_var items : forall tagged slice_starts child_vectors,
  declared_items dc i render child_var items = Some tagged ->
  foldM (domain_item dc i render child_var) (slice_starts, child_vectors) items =
  Ok (slice_starts ++ tagged.*1, child_vectors ++ tagged.*2).
Proof.
  induction items as [|[dom csl] items IH]; intros tagged ss vs Hd.
  - injection Hd as <-. cbn. by rewrite !app_nil_r.
  - cbn [declared_items] in Hd.
    destruct (declared_item dc i render child_var (dom, csl)) as [x|] eqn:Hx;
      [|discriminate].
    destruct (declared_items dc i render child_var items) as [xs|] eqn:Hxs;
      [|discriminate].
    injection Hd as <-. unfold declared_item in Hx. cbn [fst snd] in Hx.
    apply bind_Some in Hx as (dom_slices & Hdom & Hx).
    apply bind_Some in Hx as (s & Hs & Hx).
    apply bind_Some in Hx as (cs & Hcs & Hx).
    injection Hx as <-.
    cbn [foldM domain_item]. unfold dict_getitem, list_getitem.
    rewrite Hdom. cbn [rbind]. rewrite Hs. cbn [rbind]. rewrite Hcs. cbn [rbind].
    rewrite (IH xs _ _ eq_refl). cbn [fmap list_fmap fst snd].
    by rewrite <- !app_assoc.
Qed.

Lemma foldM_domain_child i cvs : forall tagged slice_starts child_vectors,
  declared_children dc i render cvs = Some tagged ->
  foldM (domain_child dc i render) (slice_starts, child_vectors) cvs =
  Ok (slice_starts ++ tagged.*1, child_vectors ++ tagged.*2).
Proof.
  induction cvs as [|[cv items] cvs IH]; intros tagged ss vs Hd.
  - injection Hd as <-. cbn. by rewrite !app_nil_r.
  - cbn [declared_children fst snd] in Hd.
    destruct (declared_items dc i render cv items) as [xs|] eqn:Hxs;
      [|discriminate].
    destruct (declared_children dc i render cvs) as [ys|] eqn:Hys;
      [|discriminate].
    injection Hd as <-. cbn [foldM]. unfold domain_child at 1. cbn [fst snd].
    rewrite (foldM_domain_item i cv items xs ss vs Hxs). cbn [rbind].
    rewrite (IH ys _ _ eq_refl). by rewrite !fmap_app, <- !app_assoc.
Qed.

Lemma domain_point_first children_vars tagged :
  declared dc render children_vars 0 = Some tagged ->
  domain_point dc render children_vars ([], []) 0 =
  Ok (tagged.*1, (sorted tagged).*2).
Proof.
  intros Hd. unfold domain_point, declared in *.
  rewrite (foldM_domain_child 0 _ tagged [] [] Hd). cbn [rbind app].
  by rewrite zip_fst_snd.
Qed.

Lemma domain_vectors_single children_vars tagged :
  secondary_dimensions_npts dc = 1%nat ->
  declared dc render children_vars 0 = Some tagged ->
  domain_vectors dc render children_vars = Ok (sorted tagged).*2.
Proof.
  intros Hn Hd. unfold domain_vectors. rewrite Hn. cbn [seq foldM].
  by rewrite (domain_point_first children_vars tagged Hd).
Qed.

Lemma domain_concatenation_single children_vars tagged :
  secondary_dimensions_npts dc = 1%nat ->
  (1 < length children_vars)%nat ->
  declared dc render children_vars 0 = Some tagged ->
  domain_concatenation dc render children_vars =
  Ok (concatenate_call (sorted tagged).*2).
Proof.
  intros Hn Hlen Hd. unfold domain_concatenation.
  rewrite (domain_vectors_single children_vars tagged Hn Hd). cbn [rbind].
  rewrite decide_True by auto. reflexivity.
Qed.

End Loops.
End DomainFacts.

(** C3 (as the code has it): for a [DomainConcatenation] with one
    secondary point and more than one child, whose slices are all
    declared, both generators emit the concatenation of the
    sub-fragments arranged by [sorted] on the tuples (declared start,
    sub-fragment text): the declared starts ascend whatever the order of
    the children, and sub-fragments with equal starts follow the order
    of their text; this arrangement is the only ascending one.  Declared
    starts 5, 0, 10 are emitted in the order 0, 5, 10. *)
Theorem domain_concatenation_sorted_by_start_then_text :
  (forall (T : Type) (array_id : list Z -> Z) (symbol : Tree.Symbol T)
          (dc : Tree.DomainConcatenationData) (children_vars : list string)
          (tagged_py tagged_jl : list (Z * string))
          (constants_py : OrderedDict.t (@Python.Constant T))
          (constants_jl : OrderedDict.t (@Julia.Constant T))
          (no_sparse : bool),
      Tree.kind symbol = Tree.Concatenation (Tree.DomainConcatenation dc) ->
      Tree.secondary_dimensions_npts dc = 1%nat ->
      (1 < length children_vars)%nat ->
      DomainFacts.declared dc Python.render_slice children_vars 0 = Some tagged_py ->
      DomainFacts.declared dc Julia.render_view children_vars 0 = Some tagged_jl ->
      Python.select array_id symbol children_vars constants_py no_sparse =
        Ok (DomainFacts.concatenate_call (Gen.sorted tagged_py).*2, constants_py) /\
      Julia.select array_id symbol children_vars constants_jl =
        Ok (Julia.Emit
              (Julia.FStr (DomainFacts.concatenate_call (Gen.sorted tagged_jl).*2))
              constants_jl) /\
      forall tagged, tagged = tagged_py \/ tagged = tagged_jl ->
        Sorted Gen.tuple_le (Gen.sorted tagged) /\
        Gen.sorted tagged ≡ₚ tagged /\
        Sorted Z.le (Gen.sorted tagged).*1 /\
        (forall tagged', tagged' ≡ₚ tagged -> Gen.sorted tagged' = Gen.sorted tagged) /\
        forall l', Sorted Gen.tuple_le l' -> l' ≡ₚ tagged -> l' = Gen.sorted tagged) /\
  Gen.domain_concatenation DomainFacts.dc_5_0_10 Python.render_slice
    DomainFacts.vars_5_0_10 =
  Ok "np.concatenate((var_00002[0:5],var_00001[0:5],var_00003[0:5]))"%string.
Proof.
  split; [|vm_compute; reflexivity].
  intros T array_id symbol dc children_vars tagged_py tagged_jl constants_py
    constants_jl no_sparse Hkind Hn Hlen Hpy Hjl.
  split_and!.
  - unfold Python.select. rewrite Hkind.
    by rewrite (DomainFacts.domain_concatenation_single dc _ _ _ Hn Hlen Hpy).
  - unfold Julia.select. rewrite Hkind.
    by rewrite (DomainFacts.domain_concatenation_single dc _ _ _ Hn Hlen Hjl).
  - intros tagged _. split_and!.
    + apply TupleOrder.sorted_Sorted.
    + apply TupleOrder.sorted_Permutation.
    + apply TupleOrder.sorted_starts_ascend.
    + intros tagged'. apply TupleOrder.sorted_order_independent.
    + apply TupleOrder.sorted_unique.
Qed.

(** A [DomainConcatenation] node over the three sub-domains. *)
Definition concatenation_5_0_10 : Tree.Symbol Z :=
  Tree.mkSymbol 40 "concatenation"
    (Tree.Concatenation (Tree.DomainConcatenation DomainFacts.dc_5_0_10))
    None Examples.dense_shape (15, 1)%nat [].

Lemma domain_concatenation_sorted_by_start_then_text_witness :
  Python.select Examples.array_id concatenation_5_0_10
    DomainFacts.vars_5_0_10 [] false =
  Ok (DomainFacts.concatenate_call
        (Gen.sorted [(5, "var_00001[0:5]"%string); (0, "var_00002[0:5]"%string);
                     (10, "var_00003[0:5]"%string)]).*2, []).
Proof.
  refine (proj1 (proj1 domain_concatenation_sorted_by_start_then_text Z
                   Examples.array_id concatenation_5_0_10 DomainFacts.dc_5_0_10
                   DomainFacts.vars_5_0_10 _
                   [(5, "@view var_00001[0:5]"%string);
                    (0, "@view var_00002[0:5]"%string);
                    (10, "@view var_00003[0:5]"%string)]
                   [] [] false eq_refl eq_refl _ _ _)).
  - vm_compute. lia.
  - vm_compute. reflexivity.
  - vm_compute. reflexivity.
Defined.

(** C3, as stated, fails: two sub-fragments whose declared starts are
    both 0 are met in the order [var_00002[0:0]], [var_00001[0:5]], the
    order a stable sort on the start keeps, and both generators emit
    them in the order of their text. *)
Lemma domain_concatenation_tie_counterexample :
  DomainFacts.declared DomainFacts.dc_tie Python.render_slice
    DomainFacts.vars_tie 0 =
    Some [(0, "var_00002[0:0]"%string); (0, "var_00001[0:5]"%string)] /\
  DomainFacts.stable_by_start
    [(0, "var_00002[0:0]"%string); (0, "var_00001[0:5]"%string)] =
    [(0, "var_00002[0:0]"%string); (0, "var_00001[0:5]"%string)] /\
  Gen.domain_concatenation DomainFacts.dc_tie Python.render_slice
    DomainFacts.vars_tie =
    Ok "np.concatenate((var_00001[0:5],var_00002[0:0]))"%string /\
  Gen.domain_concatenation DomainFacts.dc_tie Julia.render_view
    DomainFacts.vars_tie =
    Ok "np.concatenate((@view var_00001[0:5],@view var_00002[0:0]))"%string /\
  Gen.domain_concatenation DomainFacts.dc_tie Python.render_slice
    DomainFacts.vars_tie <>
    Ok (DomainFacts.concatenate_call
          (DomainFacts.stable_by_start
             [(0, "var_00002[0:0]"%string); (0, "var_00001[0:5]"%string)]).*2).
Proof.
  split_and!; try (vm_compute; reflexivity).
  vm_compute. discriminate.
Qed.

(** ** Shared subtrees *)

Module CseFacts.
Import Tree Gen Python.
Local Open Scope string_scope.
Local Open Scope list_scope.
Local Open Scope Z_scope.

Section Traversal.
Context {T : Type}.

(** The ids of the nodes whose fragment [find_symbols] writes, in the
    order it writes them: children before their parent, a constant node
    and everything below it left out, a shared subtree once for every
    place it occurs. *)
Fixpoint completions (symbol : Symbol T) : list Z :=
  match folded symbol with
  | Some _ => []
  | None =>
      (fix below (cs : list (Symbol T)) : list Z :=
         match cs with
         | [] => []
         | child :: cs' => completions child ++ below cs'
         end) (children symbol) ++ [id symbol]
  end.

Definition completions_children (cs : list (Symbol T)) : list Z :=
  concat (map completions cs).

(** The keys of an ordered dictionary after the keys [l] have been
    written one after the other. *)
Definition record_keys (ks l : list Z) : list Z :=
  foldl OrderedDict.record_key ks l.

(** [l] with every id kept at its first occurrence only. *)
Definition first_occurrences (l : list Z) : list Z := record_keys [] l.

(** The entries of a dictionary stored under the key [k]. *)
Definition entries_of {V} (k : Z) (d : list (Z * V)) : list (Z * V) :=
  filter (fun e => e.1 = k) d.

Lemma completions_unfold (symbol : Symbol T) :
  completions symbol =
  match folded symbol with
  | Some _ => []
  | None => completions_children (children symbol) ++ [id symbol]
  end.
Proof.
  destruct symbol as [i nm k f sh shp cs]. cbn [completions folded children id].
  destruct f; [reflexivity|]. f_equal. unfold completions_children.
  induction cs as [|c cs IH]; [reflexivity|]. cbn [map concat]. by rewrite IH.
Qed.

(** *** The keys written by the traversal *)

Lemma record_keys_app ks l1 l2 :
  record_keys ks (l1 ++ l2) = record_keys (record_keys ks l1) l2.
Proof. apply foldl_app. Qed.

Lemma record_keys_cons ks k l :
  record_keys ks (k :: l) = record_keys (OrderedDict.record_key ks k) l.
Proof. reflexivity. Qed.

Lemma record_key_prefix ks k : exists rest, OrderedDict.record_key ks k = ks ++ rest.
Proof.
  unfold OrderedDict.record_key. destruct (decide (k ∈ ks)).
  - exists []. by rewrite app_nil_r.
  - by exists [k].
Qed.

Lemma record_keys_prefix l : forall ks, exists rest, record_keys ks l = ks ++ rest.
Proof.
  induction l as [|k l IH]; intros ks.
  - exists []. by rewrite app_nil_r.
  - rewrite record_keys_cons. destruct (record_key_prefix ks k) as [r1 ->].
    destruct (IH (ks ++ r1)) as [r2 Hr2]. exists (r1 ++ r2).
    by rewrite Hr2, app_assoc.
Qed.

Lemma record_key_elem ks k x :
  x ∈ OrderedDict.record_key ks k <-> x ∈ ks \/ x = k.
Proof.
  unfold OrderedDict.record_key. destruct (decide (k ∈ ks)).
  - split; [auto|]. intros [?| ->]; done.
  - rewrite elem_of_app, list_elem_of_singleton. done.
Qed.

Lemma record_keys_elem l : forall ks x,
  x ∈ record_keys ks l <-> x ∈ ks \/ x ∈ l.
Proof.
  induction l as [|k l IH]; intros ks x.
  - cbn. rewrite elem_of_nil. tauto.
  - rewrite record_keys_cons, IH, record_key_elem, elem_of_cons. tauto.
Qed.

Lemma record_keys_NoDup l : forall ks, NoDup ks -> NoDup (record_keys ks l).
Proof.
  induction l as [|k l IH]; intros ks Hnd; [done|].
  rewrite record_keys_cons. apply IH. by apply OrderedDict.record_key_NoDup.
Qed.

(** An id stands where it was first written: after the distinct ids
    written before it. *)
Lemma first_occurrences_position before k after :
  k ∉ before ->
  exists rest,
    first_occurrences (before ++ k :: after) =
    first_occurrences before ++ k :: rest.
Proof.
  intros Hk. unfold first_occurrences.
  rewrite record_keys_app, record_keys_cons.
  assert (Hfresh : k ∉ record_keys [] before).
  { rewrite record_keys_elem, elem_of_nil. tauto. }
  unfold OrderedDict.record_key. rewrite decide_False by done.
  destruct (record_keys_prefix after (record_keys [] before ++ [k])) as [rest Hrest].
  exists rest. by rewrite Hrest, <- app_assoc.
Qed.

(** *** The nodes the traversal reaches *)

Lemma completions_child (p c : Symbol T) :
  folded p = None -> c ∈ children p -> completions c ⊆ completions p.
Proof.
  intros Hp Hc x Hx. rewrite (completions_unfold p), Hp.
  apply elem_of_app. left. unfold completions_children.
  apply list_elem_of_In, in_concat. exists (completions c).
  split; [|by apply list_elem_of_In].
  apply in_map. by apply list_elem_of_In.
Qed.

Lemma completions_reaches (root sub : Symbol T) :
  reaches root sub -> completions sub ⊆ completions root.
Proof.
  induction 1 as [|p c _ IH Hp Hc]; [done|].
  intros x Hx. apply IH. by apply (completions_child p c).
Qed.

Lemma reaches_completed (root sub : Symbol T) :
  reaches root sub -> folded sub = None -> id sub ∈ completions root.
Proof.
  intros Hr Hs. apply (completions_reaches _ _ Hr).
  rewrite completions_unfold, Hs. apply elem_of_app. right.
  by apply list_elem_of_singleton.
Qed.

(** *** One entry per key *)

Lemma entries_of_absent {V} (d : OrderedDict.t V) k :
  k ∉ OrderedDict.keys d -> entries_of k d = [].
Proof.
  unfold entries_of, OrderedDict.keys.
  induction d as [|[k' v'] d IH]; intros Hk; [done|].
  rewrite fmap_cons in Hk. apply not_elem_of_cons in Hk as [Hne Hk].
  rewrite filter_cons_False by (cbn in *; congruence). by apply IH.
Qed.

Lemma entries_of_NoDup {V} (d : OrderedDict.t V) k :
  NoDup (OrderedDict.keys d) -> k ∈ OrderedDict.keys d ->
  length (entries_of k d) = 1%nat.
Proof.
  unfold OrderedDict.keys.
  induction d as [|[k' v'] d IH]; intros Hnd Hin.
  - by apply elem_of_nil in Hin.
  - rewrite fmap_cons in Hnd, Hin. cbn [fst] in Hnd, Hin.
    apply NoDup_cons in Hnd as [Hk' Hnd]. unfold entries_of.
    destruct (decide (k' = k)) as [->|Hne].
    + rewrite filter_cons_True by done. cbn [length]. f_equal.
      fold (entries_of k d). by rewrite entries_of_absent.
    + rewrite filter_cons_False by (cbn; congruence).
      apply IH; [done|]. apply elem_of_cons in Hin as [?|?]; [congruence|done].
Qed.

End Traversal.

Section Keys.
Context {T : Type} (array_id : list Z -> Z).

Lemma find_symbols_children_keys (cs : list (Symbol T)) no_sparse :
  Forall (fun c => forall tables tables',
            find_symbols array_id c tables no_sparse = Ok tables' ->
            OrderedDict.keys (variable_symbols tables') =
            record_keys (OrderedDict.keys (variable_symbols tables))
              (completions c)) cs ->
  forall tables tables',
    find_symbols_children array_id cs tables no_sparse = Ok tables' ->
    OrderedDict.keys (variable_symbols tables') =
    record_keys (OrderedDict.keys (variable_symbols tables))
      (completions_children cs).
Proof.
  unfold find_symbols_children, completions_children.
  induction 1 as [|c cs Hc _ IH]; intros tables tables' Hrun.
  - by injection Hrun as <-.
  - cbn [foldM] in Hrun. apply rbind_ok_inv in Hrun as (t1 & H1 & Hrun).
    cbn [map concat]. rewrite record_keys_app, <- (Hc _ _ H1). by apply IH.
Qed.

Lemma find_symbols_keys (symbol : Symbol T) no_sparse :
  forall tables tables',
    find_symbols array_id symbol tables no_sparse = Ok tables' ->
    OrderedDict.keys (variable_symbols tables') =
    record_keys (OrderedDict.keys (variable_symbols tables)) (completions symbol).
Proof.
  induction symbol as [symbol IH] using Symbol_ind'. intros tables tables' Hrun.
  rewrite PythonFacts.find_symbols_unfold in Hrun. rewrite completions_unfold.
  destruct (folded symbol) as [v|].
  - by injection Hrun as <-.
  - apply rbind_ok_inv in Hrun as (t1 & H1 & Hrun).
    apply rbind_ok_inv in Hrun as ([str constants] & _ & Hrun).
    injection Hrun as <-. cbn [variable_symbols].
    rewrite OrderedDict.keys_set, record_keys_app.
    by rewrite <- (find_symbols_children_keys _ _ IH _ _ H1).
Qed.

End Keys.
End CseFacts.

(** [y + y]: the state vector [y01] under two parent positions. *)
Definition shared_sum : Tree.Symbol Z :=
  Tree.mkSymbol 50 "+" (Tree.BinaryOperator Tree.OtherBinary) None
    Examples.dense_shape (2, 1)%nat [Examples.y01; Examples.y01].

(** C4 (as the code has it): when the traversal of [root] succeeds, a
    subtree [sub] that is not constant and that the traversal reaches - under however many
    parents - has exactly one entry in the fragment table; the keys of
    the table are the ids in the order of their first completion, so
    the entry of [sub] stands right after the distinct ids completed
    before its first completion; every parent refers to [sub] by the
    name derived from its id, which is the name the one emitted
    statement of [sub] assigns; and the emitted code is one statement
    per entry, in table order. *)
Theorem shared_subtree_compiled_once :
  forall (T : Type) (array_id : list Z -> Z) (root sub : Tree.Symbol T)
         (no_sparse : bool) (tables : @Python.Tables T),
    Python.find_symbols array_id root Python.empty_tables no_sparse = Ok tables ->
    Tree.reaches root sub ->
    Tree.folded sub = None ->
    length (CseFacts.entries_of (Tree.id sub) (Python.variable_symbols tables)) = 1%nat /\
    OrderedDict.keys (Python.variable_symbols tables) =
      CseFacts.first_occurrences (CseFacts.completions root) /\
    (forall before after,
        CseFacts.completions root = before ++ Tree.id sub :: after ->
        Tree.id sub ∉ before ->
        exists rest,
          OrderedDict.keys (Python.variable_symbols tables) =
          CseFacts.first_occurrences before ++ Tree.id sub :: rest) /\
    (forall (p : Tree.Symbol T) (k : nat),
        Tree.reaches root p -> Tree.folded p = None ->
        Tree.children p !! k = Some sub ->
        map Python.child_var (Tree.children p) !! k =
        Some (Python.id_to_python_variable (Tree.id sub) false)) /\
    (forall line,
        Python.variable_line false (Tree.id sub, line) =
        (Python.id_to_python_variable (Tree.id sub) false +:+ " = " +:+ line)%string) /\
    (forall debug,
        Python.to_python array_id root debug no_sparse =
        Ok (Python.constant_symbols tables,
            PyStr.join Gen.nl
              (map (Python.variable_line debug) (Python.variable_symbols tables)))).
Proof.
  intros T array_id root sub no_sparse tables Hrun Hreach Hsub.
  pose proof (CseFacts.find_symbols_keys array_id root no_sparse _ _ Hrun) as Hkeys.
  cbn [Python.empty_tables Python.variable_symbols OrderedDict.keys fmap list_fmap]
    in Hkeys.
  fold (CseFacts.first_occurrences (CseFacts.completions root)) in Hkeys.
  split_and!.
  - apply CseFacts.entries_of_NoDup.
    + rewrite Hkeys. apply CseFacts.record_keys_NoDup, NoDup_nil_2.
    + rewrite Hkeys. apply CseFacts.record_keys_elem. right.
      by apply CseFacts.reaches_completed.
  - exact Hkeys.
  - intros before after Hsplit Hfresh. rewrite Hkeys, Hsplit.
    by apply CseFacts.first_occurrences_position.
  - intros p k _ _ Hk. rewrite list_lookup_fmap, Hk. cbn.
    unfold Python.child_var. by rewrite Hsub.
  - reflexivity.
  - intros debug. unfold Python.to_python.
    change (Python.mkTables OrderedDict.empty OrderedDict.empty)
      with (@Python.empty_tables T).
    by rewrite Hrun.
Qed.

Lemma shared_subtree_compiled_once_witness :
  length (CseFacts.entries_of 1
            [(1, "y[0:2]"%string); (50, "var_00001 + var_00001"%string)]) = 1%nat.
Proof.
  assert (Hrun : Python.find_symbols Examples.array_id shared_sum
                   Python.empty_tables false =
                 Ok (Python.mkTables []
                       [(1, "y[0:2]"%string);
                        (50, "var_00001 + var_00001"%string)]))
    by (vm_compute; reflexivity).
  assert (Hreach : Tree.reaches shared_sum Examples.y01).
  { apply (Tree.reaches_child shared_sum shared_sum Examples.y01).
    - apply Tree.reaches_root.
    - reflexivity.
    - apply list_elem_of_here. }
  exact (proj1 (shared_subtree_compiled_once Z Examples.array_id shared_sum
                  Examples.y01 false _ Hrun Hreach eq_refl)).
Defined.

(** C4, as stated, fails for a shared subtree that is constant: the
    constant vector [v] stands under the two parents [y * v] and
    [y / v]; the traversal succeeds, records [v] once in the constant
    table, and the fragment table has no entry keyed by the id of [v]. *)
Definition y_times_v : Tree.Symbol Z :=
  Tree.mkSymbol 60 "*" (Tree.BinaryOperator Tree.Multiplication) None
    Examples.dense_shape (2, 1)%nat [Examples.y01; Examples.dense_vector].

Definition y_over_v : Tree.Symbol Z :=
  Tree.mkSymbol 61 "/" (Tree.BinaryOperator Tree.Division) None
    Examples.dense_shape (2, 1)%nat [Examples.y01; Examples.dense_vector].

Definition shared_constant_sum : Tree.Symbol Z :=
  Tree.mkSymbol 62 "+" (Tree.BinaryOperator Tree.OtherBinary) None
    Examples.dense_shape (2, 1)%nat [y_times_v; y_over_v].

Lemma shared_constant_counterexample :
  Tree.children y_times_v !! 1%nat = Some Examples.dense_vector /\
  Tree.children y_over_v !! 1%nat = Some Examples.dense_vector /\
  Tree.children shared_constant_sum = [y_times_v; y_over_v] /\
  exists tables,
    Python.find_symbols Examples.array_id shared_constant_sum
      Python.empty_tables false = Ok tables /\
    OrderedDict.keys (Python.variable_symbols tables) = [1; 60; 61; 62] /\
    CseFacts.entries_of (Tree.id Examples.dense_vector)
      (Python.variable_symbols tables) = [] /\
    OrderedDict.keys (Python.constant_symbols tables) = [3].
Proof.
  split_and!; try reflexivity.
  eexists. split; [vm_compute; reflexivity|].
  split_and!; vm_compute; reflexivity.
Qed.

(** ** Unsupported node kinds *)

Module UnsupportedFacts.
Import Tree Gen.
Local Open Scope string_scope.
Local Open Scope list_scope.
Local Open Scope Z_scope.

(** The failure of the final [else] of each generator. *)
Definition not_implemented_python (k : SymbolClass) : exn :=
  NotImplementedError
    ("Not implemented for a symbol of type '" +:+ type_repr_of k +:+ "'").

Definition not_implemented_julia (k : SymbolClass) : exn :=
  NotImplementedError
    ("Conversion to Julia not implemented for a symbol of type '" +:+
     type_repr_of k +:+ "'").

(** The classes without a rule: in the Python generator every class
    outside the [isinstance] chain, [Variable] included; in the Julia
    generator the same but [Variable], which it skips. *)
Definition unsupported_python (k : SymbolClass) : Prop :=
  k = Variable_ \/ exists type_repr, k = OtherSymbol type_repr.

Definition unsupported_julia (k : SymbolClass) : Prop :=
  exists type_repr, k = OtherSymbol type_repr.

Section FirstFailure.
Context {T : Type}.
(** [compiles s]: the traversal of [s] on its own succeeds. *)
Context (compiles : Symbol T -> Prop).

(** [fails_first_at root u]: the traversal of [root] comes to [u] with
    everything it has traversed before compiling on its own: [u] is
    [root], or lies in a child of a non-constant node whose earlier
    children compile; the children of [u] compile. *)
Inductive fails_first_at : Symbol T -> Symbol T -> Prop :=
| fails_here u :
    folded u = None ->
    Forall compiles (children u) ->
    fails_first_at u u
| fails_below p before c after u :
    folded p = None ->
    children p = before ++ c :: after ->
    Forall compiles before ->
    fails_first_at c u ->
    fails_first_at p u.

End FirstFailure.

(** *** Loops that raise *)

Lemma foldM_raises {A S} (f : S -> A -> result S) (c : A) (l : list A) :
  c ∈ l -> (forall s, raises (f s c)) -> forall s, raises (foldM f s l).
Proof.
  intros Hc Hf. induction l as [|a l IH]; intros s.
  - by apply elem_of_nil in Hc.
  - cbn [foldM]. destruct (f s a) as [s'|e] eqn:Ha.
    + cbn [rbind]. apply elem_of_cons in Hc as [->|Hc].
      * destruct (Hf s) as [e He]. congruence.
      * by apply IH.
    + by exists e.
Qed.

Lemma foldM_first_failure {A S} (f : S -> A -> result S)
    (before : list A) (c : A) (after : list A) (e : exn) :
  Forall (fun a => forall s, exists s', f s a = Ok s') before ->
  (forall s, f s c = Raise e) ->
  forall s, foldM f s (before ++ c :: after) = Raise e.
Proof.
  intros Hb Hc. induction Hb as [|a before Ha _ IH]; intros s.
  - cbn [app foldM]. by rewrite Hc.
  - cbn [app foldM]. destruct (Ha s) as [s' ->]. cbn [rbind]. apply IH.
Qed.

Lemma foldM_all_ok {A S} (f : S -> A -> result S) (l : list A) :
  Forall (fun a => forall s, exists s', f s a = Ok s') l ->
  forall s, exists s', foldM f s l = Ok s'.
Proof.
  induction 1 as [|a l Ha _ IH]; intros s.
  - by exists s.
  - cbn [foldM]. destruct (Ha s) as [s' ->]. cbn [rbind]. apply IH.
Qed.

(** *** The Python generator *)

Section PythonSide.
Context {T : Type} (array_id : list Z -> Z) (no_sparse : bool).

Definition compiles_python (s : Symbol T) : Prop :=
  forall tables, exists tables',
    Python.find_symbols array_id s tables no_sparse = Ok tables'.

Lemma select_unsupported_python (u : Symbol T) vars constants :
  unsupported_python (kind u) ->
  Python.select array_id u vars constants no_sparse =
  Raise (not_implemented_python (kind u)).
Proof.
  intros [Hk|[r Hk]]; unfold Python.select, not_implemented_python;
    by rewrite Hk.
Qed.

Lemma python_raises_at (u : Symbol T) :
  folded u = None -> unsupported_python (kind u) ->
  forall tables, raises (Python.find_symbols array_id u tables no_sparse).
Proof.
  intros Hf Hk tables. rewrite PythonFacts.find_symbols_unfold, Hf.
  destruct (Python.find_symbols_children array_id (children u) tables no_sparse)
    as [t1|e]; [|by exists e].
  cbn [rbind]. rewrite select_unsupported_python by done. by eexists.
Qed.

Lemma python_raises_above (p c : Symbol T) :
  folded p = None -> c ∈ children p ->
  (forall tables, raises (Python.find_symbols array_id c tables no_sparse)) ->
  forall tables, raises (Python.find_symbols array_id p tables no_sparse).
Proof.
  intros Hf Hc Hraise tables. rewrite PythonFacts.find_symbols_unfold, Hf.
  destruct (foldM_raises
              (fun tables child => Python.find_symbols array_id child tables no_sparse)
              c (children p) Hc Hraise tables) as [e He].
  unfold Python.find_symbols_children. rewrite He. by exists e.
Qed.

Lemma python_raises_reached (root u : Symbol T) :
  reaches root u ->
  (forall tables, raises (Python.find_symbols array_id u tables no_sparse)) ->
  forall tables, raises (Python.find_symbols array_id root tables no_sparse).
Proof.
  induction 1 as [|p c _ IH Hp Hc]; [done|].
  intros Hraise. apply IH. by apply (python_raises_above p c).
Qed.

Lemma python_first_failure (root u : Symbol T) :
  fails_first_at compiles_python root u ->
  unsupported_python (kind u) ->
  forall tables,
    Python.find_symbols array_id root tables no_sparse =
    Raise (not_implemented_python (kind u)).
Proof.
  induction 1 as [u Hf Hcs|p before c after u Hf Hch Hb _ IH]; intros Hk tables.
  - rewrite PythonFacts.find_symbols_unfold, Hf.
    destruct (foldM_all_ok
                (fun tables child => Python.find_symbols array_id child tables no_sparse)
                (children u) Hcs tables) as [t1 H1].
    unfold Python.find_symbols_children. rewrite H1. cbn [rbind].
    by rewrite select_unsupported_python.
  - rewrite PythonFacts.find_symbols_unfold, Hf, Hch.
    unfold Python.find_symbols_children.
    by rewrite (foldM_first_failure
                  (fun tables child => Python.find_symbols array_id child tables no_sparse)
                  before c after _ Hb (IH Hk)).
Qed.

End PythonSide.
End UnsupportedFacts.

Module JuliaFacts.
Import Tree Gen UnsupportedFacts.
Local Open Scope string_scope.
Local Open Scope list_scope.
Local Open Scope Z_scope.

Section JuliaSide.
Context {T : Type}.
Context (array_id : list Z -> Z).
Context (array2string_int : list Z -> string).
Context (array2string : list T -> string).
Context (sparse_find : scipy_sparse T -> list Z * list Z * list T).

Abbreviation find_symbols :=
  (Julia.find_symbols array_id array2string_int array2string sparse_find).

(** The loop [for child in symbol.children: find_symbols(child, ...)]. *)
Definition find_symbols_children (cs : list (Symbol T))
    (tables : @Julia.Tables T) : result (@Julia.Tables T) :=
  foldM (fun tables child => find_symbols child tables) tables cs.

(** What [find_symbols] does with the outcome of the rules. *)
Definition record (symbol : Symbol T) (tables : @Julia.Tables T)
    (selected : @Julia.Selected T) : result (@Julia.Tables T) :=
  match selected with
  | Julia.Return => Ok tables
  | Julia.Emit symbol_str constants =>
      if decide ((shape symbol).2 <> 1%nat)
      then Raise (ValueError "expected column vector")
      else Ok (Julia.mkTables constants
                 (OrderedDict.set (id symbol) symbol_str
                    (Julia.variable_symbols tables))
                 (OrderedDict.set (id symbol) (shape symbol).1
                    (Julia.variable_symbol_sizes tables)))
  end.

Lemma julia_find_symbols_unfold (symbol : Symbol T) tables :
  find_symbols symbol tables =
  match folded symbol with
  | Some value =>
      do constants <-
         Julia.fold_constant array2string_int array2string sparse_find
           symbol value (Julia.constant_symbols tables);
      Ok (Julia.mkTables constants (Julia.variable_symbols tables)
            (Julia.variable_symbol_sizes tables))
  | None =>
      do tables <- find_symbols_children (children symbol) tables;
      do selected <-
         Julia.select array_id symbol (map Julia.child_var (children symbol))
           (Julia.constant_symbols tables);
      record symbol tables selected
  end.
Proof.
  destruct symbol as [i nm k f sh shp cs].
  cbn [Julia.find_symbols folded children].
  destruct f as [v|]; [reflexivity|].
  f_equal. unfold find_symbols_children.
  generalize tables. induction cs as [|c cs IH]; intros tb; [reflexivity|].
  cbn [foldM]. destruct (find_symbols c tb); [|reflexivity].
  cbn [rbind]. apply IH.
Qed.

Definition compiles_julia (s : Symbol T) : Prop :=
  forall tables, exists tables', find_symbols s tables = Ok tables'.

Lemma select_unsupported_julia (u : Symbol T) vars constants :
  unsupported_julia (kind u) ->
  Julia.select array_id u vars constants = Raise (not_implemented_julia (kind u)).
Proof.
  intros [r Hk]. unfold Julia.select, not_implemented_julia. by rewrite Hk.
Qed.

Lemma julia_raises_at (u : Symbol T) :
  folded u = None -> unsupported_julia (kind u) ->
  forall tables, raises (find_symbols u tables).
Proof.
  intros Hf Hk tables. rewrite julia_find_symbols_unfold, Hf.
  destruct (find_symbols_children (children u) tables) as [t1|e]; [|by exists e].
  cbn [rbind]. rewrite select_unsupported_julia by done. by eexists.
Qed.

Lemma julia_raises_above (p c : Symbol T) :
  folded p = None -> c ∈ children p ->
  (forall tables, raises (find_symbols c tables)) ->
  forall tables, raises (find_symbols p tables).
Proof.
  intros Hf Hc Hraise tables. rewrite julia_find_symbols_unfold, Hf.
  destruct (foldM_raises (fun tables child => find_symbols child tables)
              c (children p) Hc Hraise tables) as [e He].
  unfold find_symbols_children. rewrite He. by exists e.
Qed.

Lemma julia_raises_reached (root u : Symbol T) :
  reaches root u ->
  (forall tables, raises (find_symbols u tables)) ->
  forall tables, raises (find_symbols root tables).
Proof.
  induction 1 as [|p c _ IH Hp Hc]; [done|].
  intros Hraise. apply IH. by apply (julia_raises_above p c).
Qed.

Lemma julia_first_failure (root u : Symbol T) :
  fails_first_at compiles_julia root u ->
  unsupported_julia (kind u) ->
  forall tables, find_symbols root tables = Raise (not_implemented_julia (kind u)).
Proof.
  induction 1 as [u Hf Hcs|p before c after u Hf Hch Hb _ IH]; intros Hk tables.
  - rewrite julia_find_symbols_unfold, Hf.
    destruct (foldM_all_ok (fun tables child => find_symbols child tables)
                (children u) Hcs tables) as [t1 H1].
    unfold find_symbols_children. rewrite H1. cbn [rbind].
    by rewrite select_unsupported_julia.
  - rewrite julia_find_symbols_unfold, Hf, Hch. unfold find_symbols_children.
    by rewrite (foldM_first_failure (fun tables child => find_symbols child tables)
                  before c after _ Hb (IH Hk)).
Qed.

End JuliaSide.
End JuliaFacts.

(** ** Success of a traversal does not depend on the tables it starts from *)

Module OutcomeFacts.
Import Tree Gen UnsupportedFacts.
Local Open Scope string_scope.
Local Open Scope list_scope.
Local Open Scope Z_scope.

Lemma foldM_ok_independent {A S} (f : S -> A -> result S) (l : list A) :
  Forall (fun a => forall s1 s1', f s1 a = Ok s1' ->
                   forall s2, exists s2', f s2 a = Ok s2') l ->
  forall s1 s1', foldM f s1 l = Ok s1' -> forall s2, exists s2', foldM f s2 l = Ok s2'.
Proof.
  induction 1 as [|a l Ha _ IH]; intros s1 s1' Hrun s2.
  - by exists s2.
  - cbn [foldM] in *. apply rbind_ok_inv in Hrun as (t1 & H1 & Hrun).
    destruct (Ha _ _ H1 s2) as [t2 ->]. cbn [rbind]. by apply (IH t1 s1').
Qed.

Section PythonSide.
Context {T : Type} (array_id : list Z -> Z) (no_sparse : bool).

(** [s] compiles on its own: its traversal from empty tables succeeds. *)
Definition compiles_alone_python (s : Symbol T) : Prop :=
  exists tables,
    Python.find_symbols array_id s Python.empty_tables no_sparse = Ok tables.

Lemma python_select_ok_independent (symbol : Symbol T) vars c1 c1' str :
  Python.select array_id symbol vars c1 no_sparse = Ok (str, c1') ->
  forall c2, exists c2',
    Python.select array_id symbol vars c2 no_sparse = Ok (str, c2').
Proof.
  unfold Python.select, Python.state_vector. intros Hsel c2.
  repeat match type of Hsel with
         | context [match ?x with _ => _ end] => destruct x
         | context [rbind ?m _] => destruct m; cbn [rbind] in Hsel |- *
         end;
    try discriminate; injection Hsel as <- _; by eexists.
Qed.

Lemma python_ok_independent (symbol : Symbol T) :
  forall t1 t1',
    Python.find_symbols array_id symbol t1 no_sparse = Ok t1' ->
    forall t2, exists t2',
      Python.find_symbols array_id symbol t2 no_sparse = Ok t2'.
Proof.
  induction symbol as [symbol IH] using Symbol_ind'. intros t1 t1' Hrun t2.
  rewrite PythonFacts.find_symbols_unfold in Hrun |- *.
  destruct (folded symbol) as [v|]; [by eexists|].
  apply rbind_ok_inv in Hrun as (ta & Ha & Hrun).
  apply rbind_ok_inv in Hrun as ([str c] & Hsel & _).
  destruct (foldM_ok_independent
              (fun tables child => Python.find_symbols array_id child tables no_sparse)
              (children symbol) IH _ _ Ha t2) as [tb Hb].
  unfold Python.find_symbols_children. rewrite Hb. cbn [rbind].
  destruct (python_select_ok_independent _ _ _ _ _ Hsel (Python.constant_symbols tb))
    as [c' ->].
  by eexists.
Qed.

Lemma compiles_alone_python_anywhere (s : Symbol T) :
  compiles_alone_python s -> compiles_python array_id no_sparse s.
Proof. intros [t Ht] tables. by apply (python_ok_independent s _ _ Ht). Qed.

End PythonSide.

Section JuliaSide.
Context {T : Type}.
Context (array_id : list Z -> Z).
Context (array2string_int : list Z -> string).
Context (array2string : list T -> string).
Context (sparse_find : scipy_sparse T -> list Z * list Z * list T).

Abbreviation julia_find_symbols :=
  (Julia.find_symbols array_id array2string_int array2string sparse_find).

Definition compiles_alone_julia (s : Symbol T) : Prop :=
  exists tables, julia_find_symbols s Julia.empty_tables = Ok tables.

Lemma julia_fold_constant_ok_independent (symbol : Symbol T) value c1 c1' :
  Julia.fold_constant array2string_int array2string sparse_find
    symbol value c1 = Ok c1' ->
  forall c2, exists c2',
    Julia.fold_constant array2string_int array2string sparse_find
      symbol value c2 = Ok c2'.
Proof.
  unfold Julia.fold_constant. intros Hfold c2.
  repeat match type of Hfold with
         | context [match ?x with _ => _ end] => destruct x
         end;
    try discriminate; by eexists.
Qed.

(** The outcome of the rules, the constants apart. *)
Definition same_outcome (a b : @Julia.Selected T) : Prop :=
  match a, b with
  | Julia.Return, Julia.Return => True
  | Julia.Emit f1 _, Julia.Emit f2 _ => f1 = f2
  | _, _ => False
  end.

Lemma julia_state_vector_ok_independent mask
    (c1 c1' : OrderedDict.t (@Julia.Constant T)) str :
  Julia.state_vector array_id mask c1 = Ok (str, c1') ->
  forall c2 : OrderedDict.t (@Julia.Constant T),
    exists c2', Julia.state_vector array_id mask c2 = Ok (str, c2').
Proof.
  unfold Julia.state_vector. intros Hsv c2.
  repeat match type of Hsv with
         | context [match ?x with _ => _ end] => destruct x
         | context [rbind ?m _] => destruct m; cbn [rbind] in Hsv |- *
         end;
    try discriminate; injection Hsv as <- _; by eexists.
Qed.

Lemma julia_select_ok_independent (symbol : Symbol T) vars c1 sel1 :
  Julia.select array_id symbol vars c1 = Ok sel1 ->
  forall c2, exists sel2,
    Julia.select array_id symbol vars c2 = Ok sel2 /\ same_outcome sel1 sel2.
Proof.
  unfold Julia.select. intros Hsel c2.
  destruct (kind symbol) as [b|u|f jn|c|mask| | | |r].
  5: { apply rbind_ok_inv in Hsel as ([str c1'] & Hsv & Hsel).
       injection Hsel as <-.
       destruct (julia_state_vector_ok_independent _ _ _ _ Hsv c2) as [c2' ->].
       cbn [rbind]. eexists. split; reflexivity. }
  all: repeat match type of Hsel with
         | context [match ?x with _ => _ end] => destruct x
         | context [rbind ?m _] => destruct m; cbn [rbind] in Hsel |- *
         end;
    try discriminate; injection Hsel as <-;
    (eexists; split; [reflexivity | exact I || reflexivity]).
Qed.

Lemma julia_record_ok_independent (symbol : Symbol T) t1 t1' sel1 sel2 :
  JuliaFacts.record symbol t1 sel1 = Ok t1' ->
  same_outcome sel1 sel2 ->
  forall t2, exists t2', JuliaFacts.record symbol t2 sel2 = Ok t2'.
Proof.
  unfold JuliaFacts.record. intros Hrec Hsame t2.
  destruct sel1, sel2; try done; [|by eexists].
  destruct (decide ((shape symbol).2 <> 1%nat)); [discriminate|by eexists].
Qed.

Lemma julia_ok_independent (symbol : Symbol T) :
  forall t1 t1',
    julia_find_symbols symbol t1 = Ok t1' ->
    forall t2, exists t2', julia_find_symbols symbol t2 = Ok t2'.
Proof.
  induction symbol as [symbol IH] using Symbol_ind'. intros t1 t1' Hrun t2.
  rewrite JuliaFacts.julia_find_symbols_unfold in Hrun |- *.
  destruct (folded symbol) as [v|].
  - apply rbind_ok_inv in Hrun as (c & Hc & _).
    destruct (julia_fold_constant_ok_independent _ _ _ _ Hc
                (Julia.constant_symbols t2)) as [c' ->].
    by eexists.
  - apply rbind_ok_inv in Hrun as (ta & Ha & Hrun).
    apply rbind_ok_inv in Hrun as (sel & Hsel & Hrec).
    destruct (foldM_ok_independent
                (fun tables child => julia_find_symbols child tables)
                (children symbol) IH _ _ Ha t2) as [tb Hb].
    unfold JuliaFacts.find_symbols_children. rewrite Hb. cbn [rbind].
    destruct (julia_select_ok_independent _ _ _ _ Hsel (Julia.constant_symbols tb))
      as (sel2 & -> & Hsame).
    cbn [rbind]. by apply (julia_record_ok_independent symbol ta t1' sel sel2).
Qed.

Lemma compiles_alone_julia_anywhere (s : Symbol T) :
  compiles_alone_julia s ->
  JuliaFacts.compiles_julia array_id array2string_int array2string sparse_find s.
Proof. intros [t Ht] tables. by apply (julia_ok_independent s _ _ Ht). Qed.

End JuliaSide.

Lemma fails_first_at_mono {T} (P Q : Symbol T -> Prop) root u :
  (forall s, P s -> Q s) -> fails_first_at P root u -> fails_first_at Q root u.
Proof.
  intros HPQ. induction 1 as [u Hf Hcs|p before c after u Hf Hch Hb _ IH].
  - apply fails_here; [done|]. eapply Forall_impl; [exact Hcs|done].
  - apply (fails_below Q p before c after u); try done.
    eapply Forall_impl; [exact Hb|done].
Qed.

End OutcomeFacts.

(** C9: let the traversal of [root] reach a node [u] that is not
    constant and whose class has no rule.  Then compilation fails in
    both generators and returns neither tables nor code, whatever the
    other subtrees are; and when every subtree traversed before [u]
    compiles on its own, the failure is the [NotImplementedError] whose
    message names the type of [u]. *)
Theorem unsupported_kind_fails_compilation :
  forall (T : Type) (array_id : list Z -> Z)
         (array2string_int : list Z -> string) (array2string : list T -> string)
         (sparse_find : Tree.scipy_sparse T -> list Z * list Z * list T)
         (root u : Tree.Symbol T) (no_sparse debug : bool),
    Tree.reaches root u ->
    Tree.folded u = None ->
    (UnsupportedFacts.unsupported_python (Tree.kind u) ->
       raises (Python.to_python array_id root debug no_sparse) /\
       (UnsupportedFacts.fails_first_at
          (OutcomeFacts.compiles_alone_python array_id no_sparse) root u ->
        Python.to_python array_id root debug no_sparse =
        Raise (NotImplementedError
                 ("Not implemented for a symbol of type '" +:+
                  Tree.type_repr_of (Tree.kind u) +:+ "'")%string))) /\
    (UnsupportedFacts.unsupported_julia (Tree.kind u) ->
       raises (Julia.to_julia array_id array2string_int array2string
                 sparse_find root debug) /\
       (UnsupportedFacts.fails_first_at
          (OutcomeFacts.compiles_alone_julia array_id array2string_int
             array2string sparse_find) root u ->
        Julia.to_julia array_id array2string_int array2string sparse_find
          root debug =
        Raise (NotImplementedError
                 ("Conversion to Julia not implemented for a symbol of type '" +:+
                  Tree.type_repr_of (Tree.kind u) +:+ "'")%string))).
Proof.
  intros T array_id a2si a2s sfind root u no_sparse debug Hreach Hfold.
  split.
  - intros Hk. split.
    + destruct (UnsupportedFacts.python_raises_reached array_id no_sparse root u
                  Hreach
                  (UnsupportedFacts.python_raises_at array_id no_sparse u Hfold Hk)
                  (Python.mkTables OrderedDict.empty OrderedDict.empty))
        as [e He].
      exists e. unfold Python.to_python. by rewrite He.
    + intros Hfirst. unfold Python.to_python.
      apply (OutcomeFacts.fails_first_at_mono _
               (UnsupportedFacts.compiles_python array_id no_sparse)) in Hfirst;
        [|apply OutcomeFacts.compiles_alone_python_anywhere].
      by rewrite (UnsupportedFacts.python_first_failure array_id no_sparse
                    root u Hfirst Hk).
  - intros Hk. split.
    + apply (JuliaFacts.julia_raises_reached array_id a2si a2s sfind root u Hreach).
      by apply JuliaFacts.julia_raises_at.
    + intros Hfirst. unfold Julia.to_julia.
      apply (OutcomeFacts.fails_first_at_mono _
               (JuliaFacts.compiles_julia array_id a2si a2s sfind)) in Hfirst;
        [|apply OutcomeFacts.compiles_alone_julia_anywhere].
      by rewrite (JuliaFacts.julia_first_failure array_id a2si a2s sfind
                    root u Hfirst Hk).
Qed.

(** [y + dy/dt]: a supported state vector beside a node without a rule. *)
Definition state_vector_dot : Tree.Symbol Z :=
  Tree.mkSymbol 70 "y_dot[0:2]"
    (Tree.OtherSymbol "<class 'pybamm.expression_tree.state_vector.StateVectorDot'>")
    None Examples.dense_shape (2, 1)%nat [].

Definition y_plus_y_dot : Tree.Symbol Z :=
  Tree.mkSymbol 71 "+" (Tree.BinaryOperator Tree.OtherBinary) None
    Examples.dense_shape (2, 1)%nat [Examples.y01; state_vector_dot].

Lemma unsupported_kind_fails_compilation_witness :
  Python.to_python Examples.array_id y_plus_y_dot false false =
  Raise (NotImplementedError
           ("Not implemented for a symbol of type '" +:+
            Tree.type_repr_of (Tree.kind state_vector_dot) +:+ "'")%string).
Proof.
  assert (Hreach : Tree.reaches y_plus_y_dot state_vector_dot).
  { apply (Tree.reaches_child y_plus_y_dot y_plus_y_dot state_vector_dot).
    - apply Tree.reaches_root.
    - reflexivity.
    - apply list_elem_of_further, list_elem_of_here. }
  assert (Hy : OutcomeFacts.compiles_alone_python Examples.array_id false
                 Examples.y01).
  { eexists. vm_compute. reflexivity. }
  assert (Hfirst : UnsupportedFacts.fails_first_at
                     (OutcomeFacts.compiles_alone_python Examples.array_id false)
                     y_plus_y_dot state_vector_dot).
  { apply (UnsupportedFacts.fails_below _ y_plus_y_dot [Examples.y01]
             state_vector_dot [] state_vector_dot).
    - reflexivity.
    - reflexivity.
    - by constructor.
    - apply UnsupportedFacts.fails_here; [reflexivity | constructor]. }
  assert (Hk : UnsupportedFacts.unsupported_python (Tree.kind state_vector_dot)).
  { right. by eexists. }
  exact (proj2 (proj1 (unsupported_kind_fails_compilation Z Examples.array_id
                         (fun _ => ""%string) (fun _ => ""%string)
                         (fun m => (Tree.sp_row m, Tree.sp_col m, Tree.sp_data m))
                         y_plus_y_dot state_vector_dot false false
                         Hreach eq_refl) Hk) Hfirst).
Defined.

(** ** The inlining pass *)

Module InlineFacts.
Import Tree Gen Julia.
Local Open Scope string_scope.
Local Open Scope list_scope.
Local Open Scope Z_scope.

(** A table whose fragments are all text. *)
Definition text_table (texts : list (Z * string)) : OrderedDict.t Fragment :=
  map (fun kv => (kv.1, FStr kv.2)) texts.

(** What inlining [julia_var := line] does to a later text fragment:
    nothing when the fragment contains ["mul!"] and [line] has no
    ["@view"], the textual replacement otherwise. *)
Definition inlined_text (julia_var line : string) (kv : Z * string) : Z * string :=
  (kv.1,
   if PyStr.contains "mul!" kv.2 && negb (PyStr.contains "@view" line)
   then kv.2
   else PyStr.replace julia_var line kv.2).

(** [NumpyConcatenation(y[0:2], y[2:4])]. *)
Definition y23 : Symbol Z :=
  mkSymbol 4 "y[2:4]" (StateVector [false; false; true; true]) None
    Examples.dense_shape (2, 1)%nat [].

Definition concatenation_y : Symbol Z :=
  mkSymbol 80 "numpy concatenation" (Concatenation NumpyConcatenation) None
    Examples.dense_shape (4, 1)%nat [Examples.y01; y23].

Lemma inline_all_text julia_var line texts :
  inline_all julia_var (FStr line) (text_table texts) =
  Ok (text_table (map (inlined_text julia_var line) texts)).
Proof.
  induction texts as [|[k v] texts IH]; [reflexivity|].
  change (text_table ((k, v) :: texts)) with ((k, FStr v) :: text_table texts).
  cbn [inline_all]. rewrite IH.
  unfold inline_into, inlined_text. cbn [fragment_contains fst snd map].
  by destruct (PyStr.contains "mul!" v && negb (PyStr.contains "@view" line)).
Qed.

Lemma inline_all_length julia_var symbol_line : forall var_symbols var_symbols',
  inline_all julia_var symbol_line var_symbols = Ok var_symbols' ->
  length var_symbols' = length var_symbols.
Proof.
  induction var_symbols as [|e rest IH]; intros out Hrun.
  - by injection Hrun as <-.
  - cbn [inline_all] in Hrun.
    apply rbind_ok_inv in Hrun as (e' & _ & Hrun).
    apply rbind_ok_inv in Hrun as (rest' & Hrest & Hrun).
    injection Hrun as <-. cbn [length]. f_equal. by apply IH.
Qed.

(** On a table of text fragments the loop runs to the end: every turn
    takes one entry off, and the pass returns the emitted code with the
    table empty. *)
Lemma inline_body_text var_symbol_id line texts var_str :
  exists texts' var_str',
    inline_body var_symbol_id (FStr line) (text_table texts) var_str =
      Ok (text_table texts', var_str') /\
    length texts' = length texts.
Proof.
  unfold inline_body. cbn [fragment_contains].
  destruct (PyStr.contains " * " line); [by eexists _, _|].
  destruct (inlineable (FStr line)); [|by eexists _, _].
  rewrite inline_all_text. cbn [rbind]. eexists _, _. split; [done|].
  by rewrite length_map.
Qed.

Lemma inline_loop_text turns : forall texts var_str,
  length texts = turns ->
  exists var_str', inline_loop turns (text_table texts) var_str = Ok ([], var_str').
Proof.
  induction turns as [|turns IH]; intros texts var_str Hlen.
  - destruct texts; [|discriminate]. by eexists.
  - destruct texts as [|[k line] texts]; [discriminate|].
    change (text_table ((k, line) :: texts)) with ((k, FStr line) :: text_table texts).
    cbn [inline_loop OrderedDict.popitem_first].
    destruct (inline_body_text k line texts var_str) as (texts' & s' & -> & Hl).
    cbn [rbind]. apply IH. cbn [length] in Hlen. lia.
Qed.

Lemma inline_pass_text texts :
  exists var_str, inline_pass (text_table texts) = Ok ([], var_str).
Proof.
  unfold inline_pass. apply inline_loop_text.
  unfold text_table. by rewrite length_map.
Qed.

End InlineFacts.

(** C5: what the inlining pass does.  On text fragments it follows the
    design: a fragment with the marker [" * "] becomes a [mul!]
    statement on its own cache name and the table is left as it is; a
    fragment without that marker and with one of the inlineable markers
    emits nothing and is substituted for its name in every later text
    fragment, except in one that contains ["mul!"] when the replacement
    has no ["@view"]; any other fragment is assigned.  But for the
    fragment table of [NumpyConcatenation(y[0:2], y[2:4])], whose last
    fragment is the list of the children's names, the pass raises while
    inlining the first view. *)
Theorem inlining_pass_on_text_and_on_lists :
  (forall (var_symbol_id : Z) (line : string) (texts : list (Z * string))
          (var_str : string),
      let julia_var := Julia.id_to_julia_variable var_symbol_id false in
      let rest := InlineFacts.text_table texts in
      Julia.inline_body var_symbol_id (Julia.FStr line) rest var_str =
      if PyStr.contains " * " line then
        Ok (rest,
            (var_str +:+ "mul!(" +:+ julia_var +:+ ", " +:+
             PyStr.replace " * " ", " line +:+ ")" +:+ Gen.nl)%string)
      else if Julia.inlineable (Julia.FStr line) then
        Ok (InlineFacts.text_table
              (map (InlineFacts.inlined_text julia_var line) texts),
            var_str)
      else
        Ok (rest, (var_str +:+ julia_var +:+ " .= " +:+ line +:+ Gen.nl)%string)) /\
  (forall texts : list (Z * string),
      exists var_str,
        Julia.inline_pass (InlineFacts.text_table texts) = Ok ([], var_str)) /\
  (exists tables,
      Julia.to_julia Examples.array_id (fun _ => ""%string) (fun _ => ""%string)
        (fun m => (Tree.sp_row m, Tree.sp_col m, Tree.sp_data m))
        InlineFacts.concatenation_y false = Ok tables /\
      Julia.variable_symbols tables =
        [(1, Julia.FStr "@view y[1:2]");
         (4, Julia.FStr "@view y[3:4]");
         (80, Julia.FList ["cache_00001"; "cache_00004"]%string)] /\
      Julia.inline_pass (Julia.variable_symbols tables) =
        Raise (AttributeError "'list' object has no attribute 'replace'")).
Proof.
  split.
  - intros var_symbol_id line texts var_str julia_var rest.
    unfold Julia.inline_body. cbn [Julia.fragment_contains Julia.fragment_format].
    destruct (PyStr.contains " * " line); [reflexivity|].
    destruct (Julia.inlineable (Julia.FStr line)); [|reflexivity].
    subst rest julia_var. by rewrite InlineFacts.inline_all_text.
  - split; [apply InlineFacts.inline_pass_text|].
    eexists. split; [vm_compute; reflexivity|].
    split; vm_compute; reflexivity.
Qed.

(** * Further properties of the generators *)

(** ** What the fragment table holds, and in which order *)

Module OrderFacts.
Import Tree Gen Python CseFacts.
Local Open Scope list_scope.
Local Open Scope Z_scope.

Section Order.
Context {T : Type}.

Lemma reaches_trans (a b c : Symbol T) :
  reaches a b -> reaches b c -> reaches a c.
Proof.
  intros Hab. induction 1 as [|p q _ IH Hp Hq]; [done|].
  by apply (reaches_child a p q).
Qed.

(** Every id in [completions s] is the id of a non-constant node that
    the traversal of [s] reaches. *)
Lemma completions_from_reached (s : Symbol T) :
  forall k, k ∈ completions s ->
  exists q, reaches s q /\ folded q = None /\ id q = k.
Proof.
  induction s as [s IH] using Symbol_ind'. intros k Hk.
  rewrite completions_unfold in Hk. destruct (folded s) as [v|] eqn:Hs.
  - by apply elem_of_nil in Hk.
  - apply elem_of_app in Hk as [Hk|Hk].
    + unfold completions_children in Hk.
      apply list_elem_of_In, in_concat in Hk as (chunk & Hchunk & Hin).
      apply in_map_iff in Hchunk as (c & <- & Hc).
      apply list_elem_of_In in Hc, Hin.
      rewrite Forall_forall in IH.
      destruct (IH c Hc k Hin) as (q & Hq & Hfq & Hid).
      exists q. split_and!; [|done|done].
      apply (reaches_trans s c q); [|done].
      by apply (reaches_child s s c); [apply reaches_root| |].
    + apply list_elem_of_singleton in Hk as ->.
      exists s. split_and!; [apply reaches_root|done|done].
Qed.

(** The ids of the nodes reached from [root] tell the nodes apart: the
    structural ids of the front end. *)
Definition structural_ids (root : Symbol T) : Prop :=
  forall p q, reaches root p -> reaches root q -> id p = id q -> p = q.

(** In [l], wherever the id of a reached non-constant node stands, the
    ids of its non-constant children stand before it. *)
Definition children_first (root : Symbol T) (l : list Z) : Prop :=
  forall before after p c,
    l = before ++ id p :: after ->
    reaches root p -> folded p = None ->
    c ∈ children p -> folded c = None ->
    id c ∈ before.

Lemma split_app_cons (l1 l2 before after : list Z) k :
  l1 ++ l2 = before ++ k :: after ->
  (exists a1, l1 = before ++ k :: a1 /\ after = a1 ++ l2) \/
  (exists b2, before = l1 ++ b2 /\ l2 = b2 ++ k :: after).
Proof.
  revert before. induction l1 as [|x l1 IH]; intros before Heq.
  - right. by exists before.
  - destruct before as [|y before]; cbn [app] in Heq.
    + injection Heq as -> <-. left. by exists l1.
    + injection Heq as -> Heq. destruct (IH _ Heq) as [(a1 & -> & ->)|(b2 & -> & ->)].
      * left. by exists a1.
      * right. by exists b2.
Qed.

Lemma children_first_nil root : children_first root [].
Proof. intros [|? ?] after p c Heq; discriminate. Qed.

Lemma children_first_app root l1 l2 :
  children_first root l1 -> children_first root l2 ->
  children_first root (l1 ++ l2).
Proof.
  intros H1 H2 before after p c Heq Hp Hfp Hc Hfc.
  destruct (split_app_cons _ _ _ _ _ Heq) as [(a1 & Hl1 & _)|(b2 & -> & Hl2)].
  - by apply (H1 before a1 p c).
  - apply elem_of_app. right. by apply (H2 b2 after p c).
Qed.

Lemma children_first_concat root (chunks : list (list Z)) :
  Forall (children_first root) chunks -> children_first root (concat chunks).
Proof.
  induction 1 as [|chunk chunks Hc _ IH]; cbn [concat].
  - apply children_first_nil.
  - by apply children_first_app.
Qed.

Lemma child_completed (s c : Symbol T) :
  c ∈ children s -> folded c = None -> id c ∈ completions_children (children s).
Proof.
  intros Hc Hfc. unfold completions_children.
  apply list_elem_of_In, in_concat. exists (completions c). split.
  - apply in_map. by apply list_elem_of_In.
  - apply list_elem_of_In. rewrite completions_unfold, Hfc.
    apply elem_of_app. right. by apply list_elem_of_singleton.
Qed.

Lemma completions_children_first (root : Symbol T) :
  structural_ids root ->
  forall s, reaches root s -> children_first root (completions s).
Proof.
  intros Hids. induction s as [s IH] using Symbol_ind'. intros Hs.
  rewrite completions_unfold. destruct (folded s) as [v|] eqn:Hfs.
  { apply children_first_nil. }
  assert (Hcc : children_first root (completions_children (children s))).
  { apply children_first_concat. apply Forall_fmap.
    rewrite Forall_forall in IH. apply Forall_forall. intros c Hc. cbn.
    apply IH; [done|]. by apply (reaches_child root s c). }
  intros before after p c Heq Hp Hfp Hc Hfc.
  destruct (split_app_cons _ _ _ _ _ Heq) as [(a1 & Hl1 & _)|(b2 & -> & Hl2)].
  - by apply (Hcc before a1 p c).
  - destruct b2 as [|x b2]; [|by destruct b2].
    injection Hl2 as Hid _. rewrite app_nil_r.
    assert (s = p) as -> by (by apply Hids).
    by apply child_completed.
Qed.

Lemma first_split (l : list Z) k :
  k ∈ l -> exists before after, l = before ++ k :: after /\ k ∉ before.
Proof.
  induction l as [|x l IH]; intros Hk; [by apply elem_of_nil in Hk|].
  destruct (decide (x = k)) as [->|Hne].
  - exists [], l. split; [done|]. apply not_elem_of_nil.
  - apply elem_of_cons in Hk as [?|Hk]; [congruence|].
    destruct (IH Hk) as (before & after & -> & Hfresh).
    exists (x :: before), after. split; [done|].
    apply not_elem_of_cons. split; [congruence|done].
Qed.

End Order.
End OrderFacts.

(** X1: after a successful traversal from empty tables, the keys of the
    fragment table are exactly the ids of the non-constant nodes that
    the traversal reaches: every such node has an entry, and nothing
    else has. *)
Theorem fragment_keys_are_reached_nodes :
  forall (T : Type) (array_id : list Z -> Z) (root : Tree.Symbol T)
         (no_sparse : bool) (tables : @Python.Tables T),
    Python.find_symbols array_id root Python.empty_tables no_sparse = Ok tables ->
    forall k : Z,
      k ∈ OrderedDict.keys (Python.variable_symbols tables) <->
      exists q, Tree.reaches root q /\ Tree.folded q = None /\ Tree.id q = k.
Proof.
  intros T array_id root no_sparse tables Hrun k.
  rewrite (CseFacts.find_symbols_keys array_id root no_sparse _ _ Hrun).
  cbn [Python.empty_tables Python.variable_symbols OrderedDict.keys fmap list_fmap].
  rewrite CseFacts.record_keys_elem, elem_of_nil. split.
  - intros [[]|Hk]. by apply OrderFacts.completions_from_reached.
  - intros (q & Hq & Hf & <-). right. by apply CseFacts.reaches_completed.
Qed.

Lemma fragment_keys_are_reached_nodes_witness :
  1 ∈ OrderedDict.keys [(1, "y[0:2]"%string); (50, "var_00001 + var_00001"%string)] <->
  exists q, Tree.reaches shared_sum q /\ Tree.folded q = None /\ Tree.id q = 1.
Proof.
  assert (Hrun : Python.find_symbols Examples.array_id shared_sum
                   Python.empty_tables false =
                 Ok (Python.mkTables []
                       [(1, "y[0:2]"%string);
                        (50, "var_00001 + var_00001"%string)]))
    by (vm_compute; reflexivity).
  exact (fragment_keys_are_reached_nodes Z Examples.array_id shared_sum false
           _ Hrun 1).
Defined.

(** X2: definition before use.  When the ids of the reached nodes are
    structural (equal ids, equal nodes), the fragment table of a
    successful traversal lists the entry of every non-constant child
    before the entry of its parent, so each emitted statement reads only
    names assigned by earlier statements. *)
Theorem fragments_defined_before_use :
  forall (T : Type) (array_id : list Z -> Z) (root p c : Tree.Symbol T)
         (no_sparse : bool) (tables : @Python.Tables T),
    Python.find_symbols array_id root Python.empty_tables no_sparse = Ok tables ->
    OrderFacts.structural_ids root ->
    Tree.reaches root p -> Tree.folded p = None ->
    c ∈ Tree.children p -> Tree.folded c = None ->
    exists earlier later,
      OrderedDict.keys (Python.variable_symbols tables) =
        earlier ++ Tree.id p :: later /\
      Tree.id c ∈ earlier.
Proof.
  intros T array_id root p c no_sparse tables Hrun Hids Hp Hfp Hc Hfc.
  pose proof (CseFacts.find_symbols_keys array_id root no_sparse _ _ Hrun) as Hkeys.
  cbn [Python.empty_tables Python.variable_symbols OrderedDict.keys fmap list_fmap]
    in Hkeys.
  destruct (OrderFacts.first_split (CseFacts.completions root) (Tree.id p))
    as (before & after & Hsplit & Hfresh).
  { by apply CseFacts.reaches_completed. }
  pose proof (OrderFacts.completions_children_first root Hids root
                (Tree.reaches_root root) before after p c Hsplit Hp Hfp Hc Hfc)
    as Hbefore.
  destruct (CseFacts.first_occurrences_position before (Tree.id p) after Hfresh)
    as [rest Hpos].
  exists (CseFacts.first_occurrences before), rest. split.
  - rewrite Hkeys, Hsplit. exact Hpos.
  - apply CseFacts.record_keys_elem. by right.
Qed.

Lemma shared_sum_reached (p : Tree.Symbol Z) :
  Tree.reaches shared_sum p -> p = shared_sum \/ p = Examples.y01.
Proof.
  induction 1 as [|p c _ IH Hp Hc]; [by left|]. right.
  destruct IH as [-> | ->].
  - cbn in Hc. apply elem_of_cons in Hc as [->|Hc]; [done|].
    apply elem_of_cons in Hc as [->|Hc]; [done|]. by apply elem_of_nil in Hc.
  - cbn in Hc. by apply elem_of_nil in Hc.
Defined.

Lemma fragments_defined_before_use_witness :
  exists earlier later,
    OrderedDict.keys [(1, "y[0:2]"%string); (50, "var_00001 + var_00001"%string)] =
      earlier ++ 50 :: later /\
    1 ∈ earlier.
Proof.
  assert (Hrun : Python.find_symbols Examples.array_id shared_sum
                   Python.empty_tables false =
                 Ok (Python.mkTables []
                       [(1, "y[0:2]"%string);
                        (50, "var_00001 + var_00001"%string)]))
    by (vm_compute; reflexivity).
  assert (Hids : OrderFacts.structural_ids shared_sum).
  { intros p q Hp Hq Hid.
    destruct (shared_sum_reached p Hp) as [-> | ->];
      destruct (shared_sum_reached q Hq) as [-> | ->];
      try reflexivity; discriminate. }
  exact (fragments_defined_before_use Z Examples.array_id shared_sum shared_sum
           Examples.y01 false _ Hrun Hids (Tree.reaches_root _) eq_refl
           (list_elem_of_here _ _) eq_refl).
Defined.

(** ** What the constant table holds *)

Module ConstantFacts.
Import Tree Gen Python.
Local Open Scope list_scope.
Local Open Scope Z_scope.

Lemma set_Forall {V} (P : Z * V -> Prop) k v (d : list (Z * V)) :
  P (k, v) -> Forall P d -> Forall P (OrderedDict.set k v d).
Proof.
  intros Hkv. induction 1 as [|[k' v'] d Hx Hd IH]; cbn [OrderedDict.set].
  - by constructor.
  - destruct (decide (k = k')); constructor; done.
Qed.

Section Stored.
Context {T : Type}.

(** What the compiler may store for a backend: a scipy sparse matrix
    only when sparse matrices are kept, a coordinate matrix only when
    they are not, and never a number. *)
Definition stored_for (no_sparse : bool) (c : @Constant T) : Prop :=
  match c with
  | CValue (VNumber _) => False
  | CValue (VSparse _) => no_sparse = false
  | CValue (VArray _) => True
  | CJaxCoo _ => no_sparse = true
  | CFunction _ => True
  | CIndices _ => True
  end.

Lemma fold_constant_stored (symbol : Symbol T) value constants no_sparse :
  Forall (fun kc => stored_for no_sparse kc.2) constants ->
  Forall (fun kc => stored_for no_sparse kc.2)
    (fold_constant symbol value constants no_sparse).
Proof.
  intros Hd. unfold fold_constant.
  destruct value as [r|a|m]; [done|by apply set_Forall|].
  destruct no_sparse; by apply set_Forall.
Qed.

End Stored.

Section Select.
Context {T : Type} (array_id : list Z -> Z).

Lemma select_stored (symbol : Symbol T) vars constants no_sparse str constants' :
  select array_id symbol vars constants no_sparse = Ok (str, constants') ->
  Forall (fun kc => stored_for no_sparse kc.2) constants ->
  Forall (fun kc => stored_for no_sparse kc.2) constants'.
Proof.
  unfold select, state_vector. intros Hsel Hd.
  repeat match type of Hsel with
         | context [match ?x with _ => _ end] => destruct x
         | context [rbind ?m _] => destruct m; cbn [rbind] in Hsel
         end;
    try discriminate; injection Hsel as _ <-; try done;
    by apply set_Forall.
Qed.

Lemma find_symbols_stored (symbol : Symbol T) no_sparse :
  forall tables tables',
    find_symbols array_id symbol tables no_sparse = Ok tables' ->
    Forall (fun kc => stored_for no_sparse kc.2) (constant_symbols tables) ->
    Forall (fun kc => stored_for no_sparse kc.2) (constant_symbols tables').
Proof.
  induction symbol as [symbol IH] using Symbol_ind'. intros tables tables' Hrun Hd.
  rewrite PythonFacts.find_symbols_unfold in Hrun.
  destruct (folded symbol) as [v|].
  - injection Hrun as <-. by apply fold_constant_stored.
  - apply rbind_ok_inv in Hrun as (t1 & H1 & Hrun).
    apply rbind_ok_inv in Hrun as ([str constants] & Hsel & Hrun).
    injection Hrun as <-. cbn [constant_symbols].
    apply (select_stored _ _ _ _ _ _ Hsel).
    clear Hsel. revert tables t1 H1 Hd. unfold find_symbols_children.
    induction IH as [|c cs Hc _ IHcs]; intros tables t1 H1 Hd.
    + by injection H1 as <-.
    + cbn [foldM] in H1. apply rbind_ok_inv in H1 as (t0 & H0 & H1).
      apply (IHcs t0 t1 H1). by apply (Hc tables).
Qed.

End Select.
End ConstantFacts.

(** X3: what the Python generator stores as constants fits the backend
    it compiles for.  After a successful [find_symbols] from empty
    tables, no stored constant is a number (numbers are written into
    the fragments as literals); a scipy sparse matrix is stored only
    when [no_sparse] is off, and a [JaxCooMatrix] only when it is on. *)
Theorem stored_constants_match_backend :
  forall (T : Type) (array_id : list Z -> Z) (root : Tree.Symbol T)
         (no_sparse : bool) (tables : @Python.Tables T),
    Python.find_symbols array_id root Python.empty_tables no_sparse = Ok tables ->
    forall (k : Z) (c : @Python.Constant T),
      OrderedDict.get k (Python.constant_symbols tables) = Some c ->
      match c with
      | Python.CValue (Tree.VNumber _) => False
      | Python.CValue (Tree.VSparse _) => no_sparse = false
      | Python.CJaxCoo _ => no_sparse = true
      | _ => True
      end.
Proof.
  intros T array_id root no_sparse tables Hrun k c Hget.
  pose proof (ConstantFacts.find_symbols_stored array_id root no_sparse _ _ Hrun
                (Forall_nil_2 _)) as Hall.
  apply OrderedDict.get_Some_elem_of in Hget.
  rewrite Forall_forall in Hall. specialize (Hall _ Hget). cbn in Hall.
  by destruct c as [[| |]| | |].
Qed.

Lemma stored_constants_match_backend_witness :
  match @Python.CJaxCoo Z (Jax.JaxCooMatrix_init [0; 1] [0; 1] [5; 6] (2, 2)) with
  | Python.CValue (Tree.VNumber _) => False
  | Python.CValue (Tree.VSparse _) => true = false
  | Python.CJaxCoo _ => true = true
  | _ => True
  end.
Proof.
  assert (Hrun : Python.find_symbols Examples.array_id Examples.y_times_sparse
                   Python.empty_tables true =
                 Ok (Python.mkTables
                       [(2, Python.CJaxCoo
                              (Jax.JaxCooMatrix_init [0; 1] [0; 1] [5; 6] (2, 2)))]
                       [(1, "y[0:2]"%string);
                        (10, "const_00002.dot_product(const_00002)"%string)]))
    by (vm_compute; reflexivity).
  exact (stored_constants_match_backend Z Examples.array_id
           Examples.y_times_sparse true _ Hrun 2 _ eq_refl).
Defined.

(** ** State vectors: the empty mask, and the Julia views *)

Module ViewFacts.
Import Tree Gen StateVectorFacts.
Local Open Scope string_scope.
Local Open Scope list_scope.
Local Open Scope Z_scope.

Lemma argwhere_from_none mask : forall i,
  true ∉ mask -> argwhere_from i mask = [].
Proof.
  induction mask as [|b mask IH]; intros i Hno; [reflexivity|].
  apply not_elem_of_cons in Hno as [Hb Hno]. cbn [argwhere_from].
  destruct b; [done|]. by apply IH.
Qed.

(** [indices += 1] on the run [i, ..., i+k-1]. *)
Lemma shift_run i k :
  map (fun z => z + 1) (contiguous_run i k) = contiguous_run (i + 1) k.
Proof.
  unfold contiguous_run. rewrite map_map. apply map_ext. intros j. lia.
Qed.

Lemma shifted_indices mask :
  Z.of_nat (length mask) < 2^31 - 1 ->
  map (fun i => int32 (i + 1)) (map int32 (argwhere mask)) =
    map (fun z => z + 1) (argwhere mask) /\
  Forall (fun z => 0 <= z < 2^31 - 1) (map (fun z => z + 1) (argwhere mask)).
Proof.
  intros Hlen. pose proof (argwhere_from_bounds mask 0) as Hb.
  fold (argwhere mask) in Hb.
  destruct (argwhere_int32 mask) as [-> _]; [lia|].
  split.
  - apply map_ext_Forall. eapply Forall_impl; [exact Hb|].
    simpl. intros z Hz. apply int32_small. lia.
  - apply Forall_fmap. eapply Forall_impl; [exact Hb|].
    simpl. intros z Hz. lia.
Qed.

Section Julia.
Context {T : Type} (array_id : list Z -> Z).

Lemma julia_state_vector_single mask (constants : OrderedDict.t (@Julia.Constant T)) i :
  Z.of_nat (length mask) < 2^31 - 1 ->
  argwhere mask = [i] ->
  Julia.state_vector array_id mask constants =
  Ok ("@view y[" +:+ PyStr.of_Z (i + 1) +:+ "]", constants).
Proof.
  intros Hlen Hone. destruct (shifted_indices mask Hlen) as [Hmap _].
  unfold Julia.state_vector. rewrite Hmap, Hone. reflexivity.
Qed.

Lemma julia_state_vector_run mask (constants : OrderedDict.t (@Julia.Constant T)) i k :
  Z.of_nat (length mask) < 2^31 - 1 ->
  (2 <= k)%nat ->
  argwhere mask = contiguous_run i k ->
  Julia.state_vector array_id mask constants =
  Ok ("@view y[" +:+ PyStr.of_Z (i + 1) +:+ ":" +:+
      PyStr.of_Z (i + Z.of_nat k) +:+ "]", constants).
Proof.
  intros Hlen Hk Hrun. destruct (shifted_indices mask Hlen) as [Hmap Hbounds].
  unfold Julia.state_vector. rewrite Hmap. rewrite Hrun in Hbounds |- *.
  rewrite shift_run in Hbounds |- *.
  rewrite decide_False by (rewrite contiguous_run_length; lia).
  destruct k as [|k]; [lia|].
  assert (Hi : 0 <= i + 1 < 2^31 - 1).
  { rewrite contiguous_run_S in Hbounds. by apply Forall_cons in Hbounds as [? _]. }
  assert (Hlast : 0 <= i + 1 + Z.of_nat k < 2^31 - 1).
  { rewrite Forall_forall in Hbounds. apply Hbounds.
    unfold contiguous_run. apply list_elem_of_fmap. exists k. split; [done|].
    apply list_elem_of_In, in_seq. lia. }
  rewrite consecutive_run by lia.
  rewrite array_first_run, array_last_run. cbn [rbind].
  replace (i + 1 + Z.of_nat k) with (i + Z.of_nat (S k)) by lia. reflexivity.
Qed.

Lemma julia_state_vector_scattered mask (constants : OrderedDict.t (@Julia.Constant T)) :
  Z.of_nat (length mask) < 2^31 - 1 ->
  (forall i k, argwhere mask <> contiguous_run i k) ->
  let indices := map (fun z => z + 1) (argwhere mask) in
  Julia.state_vector array_id mask constants =
  Ok ("@view y[" +:+ Julia.id_to_julia_variable (array_id indices) true +:+ "]",
      OrderedDict.set (array_id indices) (Julia.JIndices indices) constants).
Proof.
  intros Hlen Hnot. cbv zeta.
  destruct (shifted_indices mask Hlen) as [Hmap Hbounds].
  unfold Julia.state_vector. rewrite Hmap.
  rewrite decide_False.
  2: { rewrite length_map. intros Hone.
       destruct (argwhere mask) as [|a [|b l]] eqn:Harg; try discriminate.
       apply (Hnot a 1%nat). unfold contiguous_run. cbn. f_equal. lia. }
  destruct (consecutive (map (fun z => z + 1) (argwhere mask))) eqn:Hc;
    [|reflexivity].
  destruct (consecutive_is_run _ Hbounds Hc) as [j Hj].
  destruct (Hnot (j - 1) (length (argwhere mask))).
  rewrite length_map in Hj.
  apply (f_equal (map (fun z => z - 1))) in Hj.
  rewrite map_map in Hj. unfold contiguous_run in Hj |- *.
  rewrite map_map in Hj.
  rewrite (map_ext (fun x => x + 1 - 1) (fun x => x)) in Hj by (intros; lia).
  rewrite map_id in Hj. etransitivity; [exact Hj|]. apply map_ext. intros; lia.
Qed.

End Julia.
End ViewFacts.

(** X4: a [StateVector] node whose mask selects nothing makes both
    generators fail: the empty index array counts as consecutive, and
    reading its first entry raises [IndexError]. *)
Theorem empty_state_vector_raises :
  forall (T : Type) (array_id : list Z -> Z)
         (array2string_int : list Z -> string) (array2string : list T -> string)
         (sparse_find : Tree.scipy_sparse T -> list Z * list Z * list T)
         (symbol : Tree.Symbol T) (mask : list bool) (no_sparse : bool)
         (tables_py : @Python.Tables T) (tables_jl : @Julia.Tables T),
    Tree.kind symbol = Tree.StateVector mask ->
    Tree.folded symbol = None ->
    Tree.children symbol = [] ->
    true ∉ mask ->
    Python.find_symbols array_id symbol tables_py no_sparse =
      Raise (IndexError "index 0 is out of bounds for axis 0 with size 0") /\
    Julia.find_symbols array_id array2string_int array2string sparse_find
      symbol tables_jl =
      Raise (IndexError "index 0 is out of bounds for axis 0 with size 0").
Proof.
  intros T array_id a2si a2s sf symbol mask no_sparse tpy tjl Hkind Hfold Hleaf Hno.
  split.
  - rewrite (PythonFacts.find_symbols_leaf array_id symbol tpy no_sparse Hfold Hleaf).
    unfold Python.select, Python.state_vector, Gen.argwhere. rewrite Hkind.
    by rewrite (ViewFacts.argwhere_from_none mask 0 Hno).
  - rewrite JuliaFacts.julia_find_symbols_unfold, Hfold, Hleaf.
    cbn [JuliaFacts.find_symbols_children Gen.foldM rbind map].
    unfold Julia.select, Julia.state_vector, Gen.argwhere. rewrite Hkind.
    by rewrite (ViewFacts.argwhere_from_none mask 0 Hno).
Qed.

Definition y_nothing : Tree.Symbol Z :=
  Tree.mkSymbol 5 "y[0:0]" (Tree.StateVector [false; false]) None
    Examples.dense_shape (0, 1)%nat [].

Lemma empty_state_vector_raises_witness :
  Python.find_symbols Examples.array_id y_nothing Python.empty_tables false =
    Raise (IndexError "index 0 is out of bounds for axis 0 with size 0") /\
  Julia.find_symbols Examples.array_id (fun _ => ""%string) (fun _ => ""%string)
    (fun m => (Tree.sp_row m, Tree.sp_col m, Tree.sp_data m))
    y_nothing Julia.empty_tables =
    Raise (IndexError "index 0 is out of bounds for axis 0 with size 0").
Proof.
  refine (empty_state_vector_raises Z Examples.array_id _ _ _ y_nothing
            [false; false] false _ _ eq_refl eq_refl eq_refl _).
  intros Hin. apply elem_of_cons in Hin as [Hin|Hin]; [discriminate|].
  apply elem_of_cons in Hin as [Hin|Hin]; [discriminate|].
  by apply elem_of_nil in Hin.
Defined.

(** X5: the Julia generator turns a [StateVector] into a one-based view.
    For a column-shaped node whose mask is shorter than [2^31 - 1]: one
    selected index [i] gives [@view y[i+1]]; a run [i, ..., i+k-1] of
    two or more gives [@view y[i+1:i+k]], both ends included; any other
    selection that is not empty stores the indices, each raised by one,
    as a constant and gives [@view y[name]].  In each case the node's row count is
    recorded as its size. *)
Theorem julia_state_vector_one_based :
  forall (T : Type) (array_id : list Z -> Z)
         (array2string_int : list Z -> string) (array2string : list T -> string)
         (sparse_find : Tree.scipy_sparse T -> list Z * list Z * list T)
         (symbol : Tree.Symbol T) (mask : list bool) (tables : @Julia.Tables T),
    Tree.kind symbol = Tree.StateVector mask ->
    Tree.folded symbol = None ->
    Tree.children symbol = [] ->
    (Tree.shape symbol).2 = 1%nat ->
    Z.of_nat (length mask) < 2^31 - 1 ->
    let emitted (constants : OrderedDict.t (@Julia.Constant T)) (text : string) :=
      Ok (Julia.mkTables constants
            (OrderedDict.set (Tree.id symbol) (Julia.FStr text)
               (Julia.variable_symbols tables))
            (OrderedDict.set (Tree.id symbol) (Tree.shape symbol).1
               (Julia.variable_symbol_sizes tables))) in
    let run := Julia.find_symbols array_id array2string_int array2string
                 sparse_find symbol tables in
    (forall i : Z,
        Gen.argwhere mask = [i] ->
        run = emitted (Julia.constant_symbols tables)
                ("@view y[" +:+ PyStr.of_Z (i + 1) +:+ "]")%string) /\
    (forall (i : Z) (k : nat),
        (2 <= k)%nat ->
        Gen.argwhere mask = StateVectorFacts.contiguous_run i k ->
        run = emitted (Julia.constant_symbols tables)
                ("@view y[" +:+ PyStr.of_Z (i + 1) +:+ ":" +:+
                 PyStr.of_Z (i + Z.of_nat k) +:+ "]")%string) /\
    ((forall (i : Z) (k : nat),
         Gen.argwhere mask <> StateVectorFacts.contiguous_run i k) ->
     let indices := map (fun z => z + 1) (Gen.argwhere mask) in
     run = emitted
             (OrderedDict.set (array_id indices) (Julia.JIndices indices)
                (Julia.constant_symbols tables))
             ("@view y[" +:+ Julia.id_to_julia_variable (array_id indices) true +:+
              "]")%string).
Proof.
  intros T array_id a2si a2s sf symbol mask tables Hkind Hfold Hleaf Hcol Hlen.
  cbv zeta.
  rewrite JuliaFacts.julia_find_symbols_unfold, Hfold, Hleaf.
  cbn [JuliaFacts.find_symbols_children Gen.foldM rbind map].
  unfold Julia.select. rewrite Hkind.
  assert (Hrec : forall constants text,
            JuliaFacts.record symbol tables (Julia.Emit (Julia.FStr text) constants) =
            Ok (Julia.mkTables constants
                  (OrderedDict.set (Tree.id symbol) (Julia.FStr text)
                     (Julia.variable_symbols tables))
                  (OrderedDict.set (Tree.id symbol) (Tree.shape symbol).1
                     (Julia.variable_symbol_sizes tables)))).
  { intros constants text. unfold JuliaFacts.record.
    rewrite decide_False; [reflexivity|]. intros Hne. by apply Hne. }
  split_and!.
  - intros i Hone.
    rewrite (ViewFacts.julia_state_vector_single array_id mask _ i Hlen Hone).
    cbn [rbind]. apply Hrec.
  - intros i k Hk Hrun.
    rewrite (ViewFacts.julia_state_vector_run array_id mask _ i k Hlen Hk Hrun).
    cbn [rbind]. apply Hrec.
  - intros Hnot.
    rewrite (ViewFacts.julia_state_vector_scattered array_id mask _ Hlen Hnot).
    cbn [rbind]. apply Hrec.
Qed.

Lemma julia_state_vector_one_based_witness :
  Julia.find_symbols Examples.array_id (fun _ => ""%string) (fun _ => ""%string)
    (fun m => (Tree.sp_row m, Tree.sp_col m, Tree.sp_data m))
    Examples.y01 Julia.empty_tables =
  Ok (Julia.mkTables [] [(1, Julia.FStr "@view y[1:2]")] [(1, 2%nat)]).
Proof.
  assert (Hlen : Z.of_nat (length [true; true]) < 2^31 - 1)
    by (vm_compute; reflexivity).
  exact (proj1 (proj2 (julia_state_vector_one_based Z Examples.array_id
                  (fun _ => ""%string) (fun _ => ""%string)
                  (fun m => (Tree.sp_row m, Tree.sp_col m, Tree.sp_data m))
                  Examples.y01 [true; true] Julia.empty_tables
                  eq_refl eq_refl eq_refl eq_refl Hlen))
           0 2%nat (le_n 2) eq_refl).
Defined.

(** ** The tables of the Julia generator *)

Module JuliaTables.
Import Tree Gen UnsupportedFacts CseFacts.
Local Open Scope string_scope.
Local Open Scope list_scope.
Local Open Scope Z_scope.

Section Reached.
Context {T : Type}.

(** A reached node is the root, or is reached from a child of the
    (non-constant) root. *)
Lemma reaches_inv (s q : Symbol T) :
  reaches s q ->
  q = s \/ (folded s = None /\ exists c, c ∈ children s /\ reaches c q).
Proof.
  induction 1 as [|p c _ IH Hp Hc]; [by left|]. right.
  destruct IH as [->|(Hs & c' & Hc' & Hreach)].
  - split; [done|]. exists c. split; [done|apply reaches_root].
  - split; [done|]. exists c'. split; [done|].
    by apply (reaches_child c' p c).
Qed.

Lemma reaches_below (s c q : Symbol T) :
  folded s = None -> c ∈ children s -> reaches c q -> reaches s q.
Proof.
  intros Hs Hc Hq. apply (OrderFacts.reaches_trans s c q); [|done].
  by apply (reaches_child s s c); [apply reaches_root| |].
Qed.

(** The nodes for which the Julia generator stores a fragment: not
    constant, and not a [Variable]. *)
Definition emitting (q : Symbol T) : Prop :=
  folded q = None /\ kind q <> Variable_.

(** The ids the Julia traversal of [symbol] writes to its fragment
    table, in the order of the writes. *)
Fixpoint emissions (symbol : Symbol T) : list Z :=
  match folded symbol with
  | Some _ => []
  | None =>
      (fix below (cs : list (Symbol T)) : list Z :=
         match cs with
         | [] => []
         | child :: cs' => emissions child ++ below cs'
         end) (children symbol) ++
      match kind symbol with
      | Variable_ => []
      | _ => [id symbol]
      end
  end.

Lemma emissions_unfold (symbol : Symbol T) :
  emissions symbol =
  match folded symbol with
  | Some _ => []
  | None =>
      concat (map emissions (children symbol)) ++
      match kind symbol with
      | Variable_ => []
      | _ => [id symbol]
      end
  end.
Proof.
  destruct symbol as [i nm k f sh shp cs]. cbn [emissions folded children kind].
  destruct f as [v|]; [reflexivity|]. f_equal.
  induction cs as [|c cs IH]; [reflexivity|]. cbn [map concat]. by rewrite IH.
Qed.

Lemma emissions_reached (s : Symbol T) :
  forall k, k ∈ emissions s <->
  exists q, reaches s q /\ emitting q /\ id q = k.
Proof.
  induction s as [s IH] using Symbol_ind'. intros k.
  rewrite emissions_unfold. split.
  - destruct (folded s) as [v|] eqn:Hs; [by intros ?%elem_of_nil|].
    intros [Hk|Hk]%elem_of_app.
    + apply list_elem_of_In, in_concat in Hk as (chunk & Hchunk & Hin).
      apply in_map_iff in Hchunk as (c & <- & Hc).
      apply list_elem_of_In in Hc, Hin.
      rewrite Forall_forall in IH.
      apply (IH c Hc k) in Hin as (q & Hq & Hem & Hid).
      exists q. split_and!; [|done|done]. by apply (reaches_below s c q).
    + exists s. destruct (kind s) eqn:Hkind;
        try (apply list_elem_of_singleton in Hk as ->;
             split_and!; [apply reaches_root| |done];
             split; [done|by rewrite Hkind]).
      by apply elem_of_nil in Hk.
  - intros (q & Hq & [Hfq Hkq] & <-).
    apply reaches_inv in Hq as [->|(Hs & c & Hc & Hq)].
    + rewrite Hfq. apply elem_of_app. right.
      destruct (kind s); try apply list_elem_of_singleton; done.
    + rewrite Hs. apply elem_of_app. left.
      apply list_elem_of_In, in_concat. exists (emissions c). split.
      * apply in_map. by apply list_elem_of_In.
      * apply list_elem_of_In. rewrite Forall_forall in IH.
        apply (IH c Hc). by exists q.
Qed.

End Reached.

Section Tables.
Context {T : Type}.
Context (array_id : list Z -> Z).
Context (array2string_int : list Z -> string).
Context (array2string : list T -> string).
Context (sparse_find : scipy_sparse T -> list Z * list Z * list T).

Abbreviation find_symbols :=
  (Julia.find_symbols array_id array2string_int array2string sparse_find).
Abbreviation find_symbols_children :=
  (JuliaFacts.find_symbols_children array_id array2string_int array2string
     sparse_find).

(** What holds of the tables after the traversal of [s], given the
    tables before it. *)
Record grown (s : Symbol T) (before after : @Julia.Tables T) : Prop := {
  grown_fragments :
    OrderedDict.keys (Julia.variable_symbols after) =
    record_keys (OrderedDict.keys (Julia.variable_symbols before)) (emissions s);
  grown_sizes :
    OrderedDict.keys (Julia.variable_symbol_sizes after) =
    record_keys (OrderedDict.keys (Julia.variable_symbol_sizes before))
      (emissions s);
  grown_columns :
    forall q, reaches s q -> emitting q -> (shape q).2 = 1%nat;
  grown_size_of :
    forall k n,
      OrderedDict.get k (Julia.variable_symbol_sizes after) = Some n ->
      OrderedDict.get k (Julia.variable_symbol_sizes before) = Some n \/
      exists q, reaches s q /\ emitting q /\ id q = k /\ n = (shape q).1
}.

Lemma select_return (symbol : Symbol T) vars constants :
  Julia.select array_id symbol vars constants = Ok Julia.Return ->
  kind symbol = Variable_.
Proof.
  unfold Julia.select. intros Hsel.
  repeat match type of Hsel with
         | context [match ?x with _ => _ end] => destruct x
         | context [rbind ?m _] => destruct m; cbn [rbind] in Hsel
         end;
    try discriminate; reflexivity.
Qed.

Lemma select_emit (symbol : Symbol T) vars constants f constants' :
  Julia.select array_id symbol vars constants = Ok (Julia.Emit f constants') ->
  kind symbol <> Variable_.
Proof.
  unfold Julia.select. intros Hsel Hk. rewrite Hk in Hsel. discriminate.
Qed.

Lemma find_symbols_grown (symbol : Symbol T) :
  forall tables tables',
    find_symbols symbol tables = Ok tables' -> grown symbol tables tables'.
Proof.
  induction symbol as [symbol IH] using Symbol_ind'. intros tables tables' Hrun.
  rewrite JuliaFacts.julia_find_symbols_unfold in Hrun.
  destruct (folded symbol) as [v|] eqn:Hfold.
  - apply rbind_ok_inv in Hrun as (c & _ & Hrun). injection Hrun as <-.
    split; cbn [Julia.variable_symbols Julia.variable_symbol_sizes];
      rewrite ?emissions_unfold, ?Hfold; try done.
    + intros q [->|(Hs & _)]%reaches_inv [Hfq _]; congruence.
    + intros k n Hget. by left.
  - apply rbind_ok_inv in Hrun as (t1 & H1 & Hrun).
    apply rbind_ok_inv in Hrun as (sel & Hsel & Hrec).
    assert (Hch : 
      OrderedDict.keys (Julia.variable_symbols t1) =
        record_keys (OrderedDict.keys (Julia.variable_symbols tables))
          (concat (map emissions (children symbol))) /\
      OrderedDict.keys (Julia.variable_symbol_sizes t1) =
        record_keys (OrderedDict.keys (Julia.variable_symbol_sizes tables))
          (concat (map emissions (children symbol))) /\
      (forall c q, c ∈ children symbol -> reaches c q -> emitting q ->
                   (shape q).2 = 1%nat) /\
      (forall k n,
          OrderedDict.get k (Julia.variable_symbol_sizes t1) = Some n ->
          OrderedDict.get k (Julia.variable_symbol_sizes tables) = Some n \/
          exists c q, c ∈ children symbol /\ reaches c q /\ emitting q /\
                      id q = k /\ n = (shape q).1)).
    { clear Hsel Hrec Hfold. revert tables t1 H1.
      unfold JuliaFacts.find_symbols_children.
      induction IH as [|c cs Hc _ IHcs]; intros tables t1 H1.
      - injection H1 as <-. split_and!; try done.
        + intros c q Hc. by apply elem_of_nil in Hc.
        + intros k n Hget. by left.
      - cbn [foldM] in H1. apply rbind_ok_inv in H1 as (t0 & H0 & H1).
        destruct (Hc _ _ H0) as [Hf0 Hs0 Hc0 Hv0].
        destruct (IHcs _ _ H1) as (Hf1 & Hs1 & Hc1 & Hv1).
        cbn [map concat]. rewrite !record_keys_app, <- Hf0, <- Hs0.
        split_and!; try done.
        + intros c' q [->|Hc']%elem_of_cons; [apply Hc0|by apply Hc1].
        + intros k n Hget. destruct (Hv1 k n Hget) as [Hget0|(c' & q & Hc' & Hq)].
          * destruct (Hv0 k n Hget0) as [?|(q & Hq)]; [by left|].
            right. exists c, q. split; [apply elem_of_cons; by left|done].
          * right. exists c', q. split; [apply elem_of_cons; by right|done]. }
    destruct Hch as (Hf1 & Hs1 & Hc1 & Hv1).
    destruct sel as [f constants|].
    + pose proof (select_emit _ _ _ _ _ Hsel) as Hkind.
      unfold JuliaFacts.record in Hrec.
      destruct (decide ((shape symbol).2 <> 1%nat)) as [|Hcol]; [discriminate|].
      apply dec_stable in Hcol. injection Hrec as <-.
      assert (Hown : match kind symbol with Variable_ => [] | _ => [id symbol] end
                     = [id symbol]) by (by destruct (kind symbol)).
      split; cbn [Julia.variable_symbols Julia.variable_symbol_sizes];
        rewrite ?emissions_unfold, ?Hfold, ?Hown.
      * by rewrite OrderedDict.keys_set, record_keys_app, <- Hf1.
      * by rewrite OrderedDict.keys_set, record_keys_app, <- Hs1.
      * intros q [->|(_ & c & Hc & Hq)]%reaches_inv Hem; [done|].
        by apply (Hc1 c q).
      * intros k n Hget. destruct (decide (id symbol = k)) as [<-|Hne].
        -- rewrite OrderedDict.get_set_eq in Hget. injection Hget as <-.
           right. exists symbol. split_and!; try done. apply reaches_root.
        -- rewrite OrderedDict.get_set_ne in Hget by done.
           destruct (Hv1 k n Hget) as [?|(c & q & Hc & Hq & Hrest)]; [by left|].
           right. exists q. split; [|done]. by apply (reaches_below symbol c q).
    + pose proof (select_return _ _ _ Hsel) as Hkind.
      injection Hrec as <-.
      split; rewrite ?emissions_unfold, ?Hfold, ?Hkind, ?app_nil_r; try done.
      * intros q [->|(_ & c & Hc & Hq)]%reaches_inv Hem.
        -- by destruct Hem as [_ Hk].
        -- by apply (Hc1 c q).
      * intros k n Hget.
        destruct (Hv1 k n Hget) as [?|(c & q & Hc & Hq & Hrest)]; [by left|].
        right. exists q. split; [|done]. by apply (reaches_below symbol c q).
Qed.

(** The first failure, whatever it is, is the failure of the whole
    traversal. *)
Lemma first_failure_is_raised (root u : Symbol T) e :
  fails_first_at
    (JuliaFacts.compiles_julia array_id array2string_int array2string sparse_find)
    root u ->
  (forall tables, find_symbols u tables = Raise e) ->
  forall tables, find_symbols root tables = Raise e.
Proof.
  induction 1 as [u Hf Hcs|p before c after u Hf Hch Hb _ IH]; intros Hu tables.
  - apply Hu.
  - rewrite JuliaFacts.julia_find_symbols_unfold, Hf, Hch.
    unfold JuliaFacts.find_symbols_children.
    by rewrite (foldM_first_failure (fun tables child => find_symbols child tables)
                  before c after _ Hb (IH Hu)).
Qed.

Lemma non_column_raises_at (u : Symbol T) :
  emitting u -> (shape u).2 <> 1%nat ->
  forall tables, raises (find_symbols u tables).
Proof.
  intros Hem Hshape tables.
  destruct (find_symbols u tables) as [tables'|e] eqn:Hrun; [|by exists e].
  destruct (find_symbols_grown u _ _ Hrun) as [_ _ Hcol _].
  destruct Hshape. apply Hcol; [apply reaches_root|done].
Qed.

Lemma non_column_value_error (u : Symbol T) constants f constants' :
  folded u = None ->
  Forall (JuliaFacts.compiles_julia array_id array2string_int array2string
            sparse_find) (children u) ->
  Julia.select array_id u (map Julia.child_var (children u)) constants =
    Ok (Julia.Emit f constants') ->
  (shape u).2 <> 1%nat ->
  forall tables, find_symbols u tables = Raise (ValueError "expected column vector").
Proof.
  intros Hf Hcs Hsel Hshape tables.
  rewrite JuliaFacts.julia_find_symbols_unfold, Hf.
  destruct (foldM_all_ok (fun tables child => find_symbols child tables)
              (children u) Hcs tables) as [t1 H1].
  unfold JuliaFacts.find_symbols_children. rewrite H1. cbn [rbind].
  destruct (OutcomeFacts.julia_select_ok_independent array_id _ _ _ _ Hsel
              (Julia.constant_symbols t1)) as (sel2 & -> & Hsame).
  cbn [rbind]. destruct sel2 as [f2 c2|]; [|done].
  unfold JuliaFacts.record. by rewrite decide_True.
Qed.

End Tables.
End JuliaTables.

(** X6: the Julia generator accepts column vectors only.  If the
    traversal reaches a non-constant node that is not a [Variable] and
    whose shape is not [(n, 1)], [to_julia] raises; when that node is
    where the traversal first fails and its own rule yields a fragment,
    the error is [ValueError("expected column vector")]. *)
Theorem julia_rejects_non_column :
  forall (T : Type) (array_id : list Z -> Z)
         (array2string_int : list Z -> string) (array2string : list T -> string)
         (sparse_find : Tree.scipy_sparse T -> list Z * list Z * list T)
         (root u : Tree.Symbol T) (debug : bool),
    Tree.reaches root u ->
    Tree.folded u = None ->
    Tree.kind u <> Tree.Variable_ ->
    (Tree.shape u).2 <> 1%nat ->
    raises (Julia.to_julia array_id array2string_int array2string sparse_find
              root debug) /\
    (UnsupportedFacts.fails_first_at
       (OutcomeFacts.compiles_alone_julia array_id array2string_int
          array2string sparse_find) root u ->
     (exists constants fragment constants',
         Julia.select array_id u (map Julia.child_var (Tree.children u)) constants =
         Ok (Julia.Emit fragment constants')) ->
     Julia.to_julia array_id array2string_int array2string sparse_find root debug =
     Raise (ValueError "expected column vector")).
Proof.
  intros T array_id a2si a2s sf root u debug Hreach Hfold Hkind Hshape.
  unfold Julia.to_julia. split.
  - apply (JuliaFacts.julia_raises_reached array_id a2si a2s sf root u Hreach).
    by apply JuliaTables.non_column_raises_at.
  - intros Hfirst (constants & fragment & constants' & Hsel).
    apply (OutcomeFacts.fails_first_at_mono _
             (JuliaFacts.compiles_julia array_id a2si a2s sf)) in Hfirst.
    2: { intros s. apply OutcomeFacts.compiles_alone_julia_anywhere. }
    apply (JuliaTables.first_failure_is_raised array_id a2si a2s sf root u _ Hfirst).
    assert (Hcs : Forall (JuliaFacts.compiles_julia array_id a2si a2s sf)
                    (Tree.children u)).
    { clear -Hfirst. induction Hfirst; done. }
    by apply (JuliaTables.non_column_value_error array_id a2si a2s sf u
                constants fragment constants').
Qed.

(** The time, wrongly declared with the shape [(1, 2)]. *)
Definition wide_time : Tree.Symbol Z :=
  Tree.mkSymbol 6 "time" Tree.Time None Examples.dense_shape (1, 2)%nat [].

Lemma julia_rejects_non_column_witness :
  Julia.to_julia Examples.array_id (fun _ => ""%string) (fun _ => ""%string)
    (fun m => (Tree.sp_row m, Tree.sp_col m, Tree.sp_data m)) wide_time false =
  Raise (ValueError "expected column vector").
Proof.
  refine (proj2 (julia_rejects_non_column Z Examples.array_id _ _ _
                   wide_time wide_time false (Tree.reaches_root _) eq_refl _ _)
            _ _).
  - discriminate.
  - cbn. lia.
  - apply UnsupportedFacts.fails_here; [reflexivity|constructor].
  - exists [], (Julia.FStr "t"), []. reflexivity.
Defined.

(** X7: the size table of the Julia generator follows its fragment
    table.  After a successful [to_julia] the two tables have the same
    keys in the same order, and every recorded size [n] is the row count
    of a reached non-constant node with that id, of shape [(n, 1)]. *)
Theorem julia_sizes_follow_fragments :
  forall (T : Type) (array_id : list Z -> Z)
         (array2string_int : list Z -> string) (array2string : list T -> string)
         (sparse_find : Tree.scipy_sparse T -> list Z * list Z * list T)
         (root : Tree.Symbol T) (debug : bool) (tables : @Julia.Tables T),
    Julia.to_julia array_id array2string_int array2string sparse_find root debug =
      Ok tables ->
    OrderedDict.keys (Julia.variable_symbol_sizes tables) =
      OrderedDict.keys (Julia.variable_symbols tables) /\
    forall (k : Z) (n : nat),
      OrderedDict.get k (Julia.variable_symbol_sizes tables) = Some n ->
      exists q, Tree.reaches root q /\ Tree.folded q = None /\
                Tree.kind q <> Tree.Variable_ /\ Tree.id q = k /\
                Tree.shape q = (n, 1%nat).
Proof.
  intros T array_id a2si a2s sf root debug tables Hrun. unfold Julia.to_julia in Hrun.
  destruct (JuliaTables.find_symbols_grown array_id a2si a2s sf root _ _ Hrun)
    as [Hf Hs Hcol Hval].
  split; [by rewrite Hf, Hs|].
  intros k n Hget. destruct (Hval k n Hget) as [Hold|(q & Hq & Hem & Hid & ->)].
  { discriminate. }
  exists q. destruct Hem as [Hfq Hkq]. split_and!; try done.
  specialize (Hcol q Hq (conj Hfq Hkq)).
  destruct (Tree.shape q) as [rows cols]. cbn in *. by rewrite Hcol.
Qed.

Lemma julia_sizes_follow_fragments_witness :
  OrderedDict.keys [(1, 2%nat); (4, 2%nat); (80, 4%nat)] =
  OrderedDict.keys [(1, Julia.FStr "@view y[1:2]");
                    (4, Julia.FStr "@view y[3:4]");
                    (80, Julia.FList ["cache_00001"; "cache_00004"]%string)].
Proof.
  assert (Hrun : Julia.to_julia Examples.array_id (fun _ => ""%string)
                   (fun _ : list Z => ""%string)
                   (fun m => (Tree.sp_row m, Tree.sp_col m, Tree.sp_data m))
                   InlineFacts.concatenation_y false =
                 Ok (Julia.mkTables []
                       [(1, Julia.FStr "@view y[1:2]");
                        (4, Julia.FStr "@view y[3:4]");
                        (80, Julia.FList ["cache_00001"; "cache_00004"]%string)]
                       [(1, 2%nat); (4, 2%nat); (80, 4%nat)]))
    by (vm_compute; reflexivity).
  exact (proj1 (julia_sizes_follow_fragments Z Examples.array_id _ _ _
                  InlineFacts.concatenation_y false _ Hrun)).
Defined.

(** X8: after a successful [to_julia] the keys of the fragment table
    are exactly the ids of the reached non-constant nodes that are not
    [Variable]s: a [Variable] is passed over without an entry, while
    the nodes below it are still compiled. *)
Theorem julia_fragment_keys_skip_variables :
  forall (T : Type) (array_id : list Z -> Z)
         (array2string_int : list Z -> string) (array2string : list T -> string)
         (sparse_find : Tree.scipy_sparse T -> list Z * list Z * list T)
         (root : Tree.Symbol T) (debug : bool) (tables : @Julia.Tables T),
    Julia.to_julia array_id array2string_int array2string sparse_find root debug =
      Ok tables ->
    forall k : Z,
      k ∈ OrderedDict.keys (Julia.variable_symbols tables) <->
      exists q, Tree.reaches root q /\ Tree.folded q = None /\
                Tree.kind q <> Tree.Variable_ /\ Tree.id q = k.
Proof.
  intros T array_id a2si a2s sf root debug tables Hrun k.
  unfold Julia.to_julia in Hrun.
  destruct (JuliaTables.find_symbols_grown array_id a2si a2s sf root _ _ Hrun)
    as [Hf _ _ _].
  rewrite Hf.
  cbn [Julia.empty_tables Julia.variable_symbols OrderedDict.keys fmap list_fmap].
  rewrite CseFacts.record_keys_elem, elem_of_nil, JuliaTables.emissions_reached.
  unfold JuliaTables.emitting. split.
  - intros [[]|(q & Hq & [Hfq Hkq] & Hid)]. by exists q.
  - intros (q & Hq & Hfq & Hkq & Hid). right. by exists q.
Qed.

(** A [Variable] above the state vector [y[0:2]]. *)
Definition variable_over_y : Tree.Symbol Z :=
  Tree.mkSymbol 7 "u" Tree.Variable_ None Examples.dense_shape (2, 1)%nat
    [Examples.y01].

Lemma julia_fragment_keys_skip_variables_witness :
  7 ∈ OrderedDict.keys [(1, Julia.FStr "@view y[1:2]")] <->
  exists q, Tree.reaches variable_over_y q /\ Tree.folded q = None /\
            Tree.kind q <> Tree.Variable_ /\ Tree.id q = 7.
Proof.
  assert (Hrun : Julia.to_julia Examples.array_id (fun _ => ""%string)
                   (fun _ : list Z => ""%string)
                   (fun m => (Tree.sp_row m, Tree.sp_col m, Tree.sp_data m))
                   variable_over_y false =
                 Ok (Julia.mkTables [] [(1, Julia.FStr "@view y[1:2]")]
                       [(1, 2%nat)]))
    by (vm_compute; reflexivity).
  exact (julia_fragment_keys_skip_variables Z Examples.array_id _ _ _
           variable_over_y false _ Hrun 7).
Defined.

(** ** The order of the entries of a coordinate matrix *)

Module ScatterFacts.
Section Scatter.
Context {T : Type} (zero : T) (add mul : T -> T -> T).

Lemma foldl_permutation {A B} (f : B -> A -> B) (l l' : list A) :
  (forall x a b, f (f x a) b = f (f x b) a) ->
  l ≡ₚ l' -> forall x, foldl f x l = foldl f x l'.
Proof.
  intros Hcomm. induction 1 as [|a l l' _ IH|a b l|l l' l'' _ IH1 _ IH2];
    intros x; cbn [foldl].
  - done.
  - apply IH.
  - by rewrite Hcomm.
  - by rewrite IH1.
Qed.

(** Two updates of a scatter-add commute when the sum does. *)
Lemma at_add1_comm (x : list T) i u j v :
  (forall a u v, add (add a u) v = add (add a v) u) ->
  Jax.at_add1 add (Jax.at_add1 add x i u) j v =
  Jax.at_add1 add (Jax.at_add1 add x j v) i u.
Proof.
  intros Hcomm. unfold Jax.at_add1.
  destruct ((0 <=? Jax.normalize_index (length x) i) &&
            (Jax.normalize_index (length x) i <? Z.of_nat (length x))) eqn:Hi;
  destruct ((0 <=? Jax.normalize_index (length x) j) &&
            (Jax.normalize_index (length x) j <? Z.of_nat (length x))) eqn:Hj;
    rewrite ?length_alter, ?Hi, ?Hj; try reflexivity.
  destruct (decide (Z.to_nat (Jax.normalize_index (length x) i) =
                    Z.to_nat (Jax.normalize_index (length x) j))) as [->|Hne].
  - rewrite !list_alter_alter_eq. apply list_alter_ext; [|done].
    intros a _. cbn. apply Hcomm.
  - apply list_alter_alter_ne. congruence.
Qed.

(** The updates [dot_product] scatters, read off the entries
    [(row, (col, data))] of the matrix. *)
Lemma scattered_updates (b : list T) rows : forall cols ds,
  zip rows (zip_with mul ds (Jax.gather zero b cols)) =
  map (fun e : Z * (Z * T) => (e.1, mul e.2.2 (Jax.gather1 zero b e.2.1)))
    (zip rows (zip cols ds)).
Proof.
  unfold Jax.gather.
  induction rows as [|r rows IH]; intros [|c cols] [|d ds]; try reflexivity.
  cbn [map zip_with zip fst snd]. f_equal. apply IH.
Qed.

Lemma dot_product_permutation (m1 m2 : @Jax.JaxCooMatrix T) (b : list T) :
  (forall a u v, add (add a u) v = add (add a v) u) ->
  Jax.shape m1 = Jax.shape m2 ->
  zip (Jax.row m1) (zip (Jax.col m1) (Jax.data m1)) ≡ₚ
    zip (Jax.row m2) (zip (Jax.col m2) (Jax.data m2)) ->
  Jax.dot_product zero add mul m1 b = Jax.dot_product zero add mul m2 b.
Proof.
  intros Hcomm Hshape Hperm. unfold Jax.dot_product, Jax.at_add.
  rewrite !scattered_updates, Hshape.
  apply foldl_permutation.
  - intros x [i u] [j v]. by apply at_add1_comm.
  - by apply fmap_Permutation.
Qed.

End Scatter.
End ScatterFacts.

(** X9: [dot_product] does not depend on the order in which a
    coordinate matrix lists its entries.  Two matrices of the same
    shape, each with three arrays of one length, whose entries
    [(row, col, data)] are a rearrangement of one another give the same
    product with every vector, provided the sum of the scalars may be
    taken in any order. *)
Theorem dot_product_entry_order_irrelevant :
  forall (T : Type) (zero : T) (add mul : T -> T -> T)
         (m1 m2 : @Jax.JaxCooMatrix T) (b : list T),
    (forall a u v, add (add a u) v = add (add a v) u) ->
    length (Jax.row m1) = length (Jax.data m1) ->
    length (Jax.col m1) = length (Jax.data m1) ->
    length (Jax.row m2) = length (Jax.data m2) ->
    length (Jax.col m2) = length (Jax.data m2) ->
    Jax.shape m1 = Jax.shape m2 ->
    zip (Jax.row m1) (zip (Jax.col m1) (Jax.data m1)) ≡ₚ
      zip (Jax.row m2) (zip (Jax.col m2) (Jax.data m2)) ->
    Jax.dot_product zero add mul m1 b = Jax.dot_product zero add mul m2 b.
Proof.
  intros T zero add mul m1 m2 b Hcomm _ _ _ _ Hshape Hperm.
  by apply ScatterFacts.dot_product_permutation.
Qed.

(** [Examples.repeated_rows] with its entries listed backwards. *)
Definition repeated_rows_reversed : @Jax.JaxCooMatrix Z :=
  Jax.JaxCooMatrix_init [1; 0; 0] [0; 1; 0] [3; 2; 1] (2, 2).

Lemma dot_product_entry_order_irrelevant_witness :
  Jax.dot_product 0 Z.add Z.mul Examples.repeated_rows [10; 100] =
  Jax.dot_product 0 Z.add Z.mul repeated_rows_reversed [10; 100].
Proof.
  refine (dot_product_entry_order_irrelevant Z 0 Z.add Z.mul
            Examples.repeated_rows repeated_rows_reversed [10; 100]
            _ eq_refl eq_refl eq_refl eq_refl eq_refl _).
  - intros a u v. lia.
  - exact (Permutation_rev [(0, (0, 1)); (0, (1, 2)); (1, (0, 3))]).
Defined.

(** ** The argument list of a [Function] *)

Module ArgumentFacts.
Import Gen.
Local Open Scope string_scope.
Local Open Scope list_scope.

(** [l] without the empty strings it starts with. *)
Fixpoint skip_empty (l : list string) : list string :=
  match l with
  | [] => []
  | x :: l' => if decide (x = "") then skip_empty l' else l
  end.

(** One turn of the loop that builds [children_str]. *)
Definition add_argument (children_str child_var : string) : string :=
  if decide (children_str = "") then child_var
  else children_str +:+ ", " +:+ child_var.

Lemma append_nonempty (s1 s2 : string) : s1 <> "" -> s1 +:+ s2 <> "".
Proof. destruct s1; [done|]. intros _. discriminate. Qed.

Lemma app_assoc' (s1 s2 s3 : string) : (s1 +:+ s2) +:+ s3 = s1 +:+ (s2 +:+ s3).
Proof.
  induction s1 as [|a s1 IH]; [reflexivity|].
  change (String a ((s1 +:+ s2) +:+ s3) = String a (s1 +:+ (s2 +:+ s3))).
  by f_equal.
Qed.

(** Once [children_str] is not empty, every further argument is
    appended after a separator. *)
Lemma foldl_add_argument_nonempty (l : list string) : forall acc,
  acc <> "" ->
  foldl add_argument acc l =
  match l with
  | [] => acc
  | _ => acc +:+ ", " +:+ PyStr.join ", " l
  end.
Proof.
  induction l as [|x l IH]; intros acc Hacc; [reflexivity|].
  cbn [foldl]. unfold add_argument at 2. rewrite decide_False by done.
  rewrite IH by (by apply append_nonempty).
  destruct l as [|y l]; [reflexivity|].
  change (PyStr.join ", " (x :: y :: l))
    with (x +:+ ", " +:+ PyStr.join ", " (y :: l)).
  by rewrite !app_assoc'.
Qed.

Lemma function_args_join (l : list string) :
  function_args l = PyStr.join ", " (skip_empty l).
Proof.
  unfold function_args. change (foldl _ "" l) with (foldl add_argument "" l).
  induction l as [|x l IH]; [reflexivity|].
  cbn [foldl skip_empty]. unfold add_argument at 2. rewrite decide_True by done.
  destruct (decide (x = "")) as [->|Hx]; [exact IH|].
  rewrite foldl_add_argument_nonempty by done.
  by destruct l.
Qed.

End ArgumentFacts.

(** X10: the loop that builds the argument list of a [Function] call
    joins the children's names with [", "], after dropping the empty
    names the list starts with; when no name is empty (node names and
    number literals never are) the result is [", ".join(children_vars)]. *)
Theorem function_args_is_comma_join :
  forall children_vars : list string,
    Gen.function_args children_vars =
      PyStr.join ", " (ArgumentFacts.skip_empty children_vars) /\
    (""%string ∉ children_vars ->
     Gen.function_args children_vars = PyStr.join ", " children_vars).
Proof.
  intros l. split; [apply ArgumentFacts.function_args_join|].
  intros Hno. rewrite ArgumentFacts.function_args_join. f_equal.
  destruct l as [|x l]; [reflexivity|]. cbn [ArgumentFacts.skip_empty].
  rewrite decide_False; [reflexivity|].
  intros ->. apply Hno. by left.
Qed.

Lemma function_args_is_comma_join_witness :
  Gen.function_args ["var_00001"; "2.0"; "const_00003"]%string =
  PyStr.join ", " ["var_00001"; "2.0"; "const_00003"]%string.
Proof.
  refine (proj2 (function_args_is_comma_join
                   ["var_00001"; "2.0"; "const_00003"]%string) _).
  intros Hin. repeat (apply elem_of_cons in Hin as [Hin|Hin]; [discriminate|]).
  by apply elem_of_nil in Hin.
Defined.

(** ** [DomainConcatenation] over several secondary points *)

Module DomainPoints.
Import Tree Gen DomainFacts.
Local Open Scope string_scope.
Local Open Scope list_scope.
Local Open Scope Z_scope.

Lemma zip_app_same_length {A B} (l1 l2 : list A) (k : list B) :
  length l1 = length k -> zip (l1 ++ l2) k = zip l1 k.
Proof.
  revert k. induction l1 as [|a l1 IH]; intros [|b k] Hlen; try discriminate.
  - by destruct l2.
  - cbn. f_equal. apply IH. by injection Hlen.
Qed.

Section Points.
Context (dc : DomainConcatenationData) (render : string -> slice -> string).

Lemma declared_items_length i child_var items tagged :
  declared_items dc i render child_var items = Some tagged ->
  length tagged = length items.
Proof.
  revert tagged. induction items as [|item items IH]; intros tagged Hd.
  - by injection Hd as <-.
  - cbn [declared_items] in Hd.
    apply bind_Some in Hd as (x & _ & Hd).
    apply bind_Some in Hd as (xs & Hxs & Hd).
    injection Hd as <-. cbn [length]. f_equal. by apply IH.
Qed.

Lemma declared_children_length i cvs tagged :
  declared_children dc i render cvs = Some tagged ->
  length tagged = length (concat cvs.*2).
Proof.
  revert tagged. induction cvs as [|cv cvs IH]; intros tagged Hd.
  - by injection Hd as <-.
  - cbn [declared_children] in Hd.
    apply bind_Some in Hd as (xs & Hxs & Hd).
    apply bind_Some in Hd as (ys & Hys & Hd).
    injection Hd as <-. cbn [fmap list_fmap concat].
    rewrite !length_app, (declared_items_length _ _ _ _ Hxs). f_equal.
    by apply IH.
Qed.

(** The number of sub-fragments of a point does not depend on the
    point. *)
Lemma declared_same_length children_vars i j ti tj :
  declared dc render children_vars i = Some ti ->
  declared dc render children_vars j = Some tj ->
  length ti = length tj.
Proof.
  unfold declared. intros Hi Hj.
  by rewrite (declared_children_length _ _ _ Hi), (declared_children_length _ _ _ Hj).
Qed.

Lemma domain_point_at children_vars i tagged slice_starts all_child_vectors :
  declared dc render children_vars i = Some tagged ->
  domain_point dc render children_vars (slice_starts, all_child_vectors) i =
  Ok (slice_starts ++ tagged.*1,
      all_child_vectors ++
      (sorted (zip (slice_starts ++ tagged.*1) tagged.*2)).*2).
Proof.
  intros Hd. unfold domain_point, declared in *.
  by rewrite (foldM_domain_child dc render i _ tagged slice_starts [] Hd).
Qed.

(** [slice_starts] when the point [n] begins: the starts of all the
    points before it, since the list is created once, before the loop. *)
Definition starts_before (tagged : nat -> list (Z * string)) (n : nat) : list Z :=
  concat (map (fun j => (tagged j).*1) (seq 0 n)).

Lemma starts_before_S tagged n :
  starts_before tagged (S n) = starts_before tagged n ++ (tagged n).*1.
Proof.
  unfold starts_before. rewrite seq_S, map_app, concat_app. cbn.
  by rewrite app_nil_r.
Qed.

Lemma domain_points_from children_vars tagged len : forall first all_child_vectors,
  (forall i, (first <= i < first + len)%nat ->
             declared dc render children_vars i = Some (tagged i)) ->
  foldM (domain_point dc render children_vars)
    (starts_before tagged first, all_child_vectors) (seq first len) =
  Ok (starts_before tagged (first + len),
      all_child_vectors ++
      concat (map (fun i => (sorted (zip (starts_before tagged (S i))
                                       (tagged i).*2)).*2)
                (seq first len))).
Proof.
  induction len as [|len IH]; intros first acc Hd.
  - cbn. by rewrite Nat.add_0_r, app_nil_r.
  - cbn [seq foldM].
    rewrite (domain_point_at children_vars first (tagged first)) by (apply Hd; lia).
    cbn [rbind]. rewrite <- starts_before_S.
    rewrite IH by (intros i Hi; apply Hd; lia).
    cbn [map concat]. replace (first + S len)%nat with (S first + len)%nat by lia.
    by rewrite <- app_assoc.
Qed.

(** The starts that order the sub-fragments of every point are those
    of the first point. *)
Lemma stale_starts children_vars tagged i :
  (forall j, (j <= i)%nat ->
             declared dc render children_vars j = Some (tagged j)) ->
  zip (starts_before tagged (S i)) (tagged i).*2 =
  zip (tagged 0%nat).*1 (tagged i).*2.
Proof.
  intros Hd.
  assert (Hlen : length (tagged 0%nat).*1 = length (tagged i).*2).
  { rewrite !length_fmap.
    apply (declared_same_length children_vars 0 i); apply Hd; lia. }
  assert (Hsplit : exists rest,
            starts_before tagged (S i) = (tagged 0%nat).*1 ++ rest).
  { clear. induction i as [|i [rest IH]].
    - exists []. unfold starts_before. cbn. by rewrite !app_nil_r.
    - rewrite starts_before_S, IH. eexists. by rewrite <- app_assoc. }
  destruct Hsplit as [rest ->]. by apply zip_app_same_length.
Qed.

Lemma domain_vectors_points children_vars tagged :
  (forall i, (i < secondary_dimensions_npts dc)%nat ->
             declared dc render children_vars i = Some (tagged i)) ->
  domain_vectors dc render children_vars =
  Ok (concat (map (fun i => (sorted (zip (tagged 0%nat).*1 (tagged i).*2)).*2)
                (seq 0 (secondary_dimensions_npts dc)))).
Proof.
  intros Hd. unfold domain_vectors.
  change (@nil Z) with (starts_before tagged 0).
  rewrite (domain_points_from children_vars tagged) by (intros i Hi; apply Hd; lia).
  cbn [rbind app]. do 2 f_equal.
  apply map_ext_in. intros i Hi%in_seq.
  do 2 f_equal. apply (stale_starts children_vars). intros j Hj. apply Hd. lia.
Qed.

(** A missing declaration makes the loops raise. *)
Lemma foldM_domain_item_None i child_var items :
  declared_items dc i render child_var items = None ->
  forall acc, raises (foldM (domain_item dc i render child_var) acc items).
Proof.
  induction items as [|[dom csl] items IH]; intros Hd [ss vs]; [discriminate|].
  cbn [declared_items] in Hd. cbn [foldM].
  destruct (declared_item dc i render child_var (dom, csl)) as [x|] eqn:Hx.
  - destruct (declared_items dc i render child_var items) as [xs|] eqn:Hxs;
      [discriminate|].
    destruct (domain_item dc i render child_var (ss, vs) (dom, csl)) as [acc|e];
      [|by exists e].
    cbn [rbind]. by apply IH.
  - clear Hd. unfold declared_item in Hx. cbn [fst snd] in Hx.
    cbn [domain_item]. unfold dict_getitem, list_getitem.
    destruct (_slices dc !! dom) as [dom_slices|]; [|by eexists].
    cbn [rbind]. cbn [mbind option_bind] in Hx.
    destruct (dom_slices !! i) as [s|]; [|by eexists].
    cbn [rbind]. cbn [mbind option_bind] in Hx.
    destruct (csl !! i) as [cs|]; [discriminate|by eexists].
Qed.

Lemma foldM_domain_child_None i cvs :
  declared_children dc i render cvs = None ->
  forall acc, raises (foldM (domain_child dc i render) acc cvs).
Proof.
  induction cvs as [|[cv items] cvs IH]; intros Hd [ss vs]; [discriminate|].
  cbn [declared_children fst snd] in Hd. cbn [foldM].
  unfold domain_child at 1. cbn [fst snd].
  destruct (declared_items dc i render cv items) as [xs|] eqn:Hxs.
  - destruct (declared_children dc i render cvs) as [ys|] eqn:Hys; [discriminate|].
    rewrite (foldM_domain_item dc render i cv items xs ss vs Hxs). cbn [rbind].
    by apply IH.
  - destruct (foldM_domain_item_None i cv items Hxs (ss, vs)) as [e ->].
    by exists e.
Qed.

Lemma domain_point_None children_vars i :
  declared dc render children_vars i = None ->
  forall st, raises (domain_point dc render children_vars st i).
Proof.
  intros Hd [ss all]. unfold domain_point, declared in *.
  destruct (foldM_domain_child_None i _ Hd (ss, [])) as [e ->]. by exists e.
Qed.

Lemma domain_vectors_None children_vars i :
  (i < secondary_dimensions_npts dc)%nat ->
  declared dc render children_vars i = None ->
  raises (domain_vectors dc render children_vars).
Proof.
  intros Hi Hd. unfold domain_vectors.
  destruct (UnsupportedFacts.foldM_raises
              (domain_point dc render children_vars) i
              (seq 0 (secondary_dimensions_npts dc))) with (s := (@nil Z, @nil string))
    as [e ->].
  - apply list_elem_of_In, in_seq. lia.
  - by apply domain_point_None.
  - by exists e.
Qed.

Lemma domain_item_raise i child_var acc item e :
  domain_item dc i render child_var acc item = Raise e ->
  (e = KeyError item.1 /\ _slices dc !! item.1 = None) \/
  e = IndexError "list index out of range".
Proof.
  destruct acc as [ss vs], item as [dom csl]. cbn [domain_item fst].
  unfold dict_getitem, list_getitem.
  destruct (_slices dc !! dom) as [dom_slices|]; cbn [rbind].
  - destruct (dom_slices !! i) as [s|]; cbn [rbind]; [|intros [= <-]; by right].
    destruct (csl !! i) as [cs|]; cbn [rbind]; [discriminate|].
    intros [= <-]. by right.
  - intros [= <-]. by left.
Qed.

End Points.

(** A loop raises what one of its turns raises. *)
Lemma foldM_raise_inv {A S} (f : S -> A -> result S) (l : list A) e :
  forall s, foldM f s l = Raise e -> exists s' a, a ∈ l /\ f s' a = Raise e.
Proof.
  induction l as [|a l IH]; intros s Hrun; [discriminate|].
  cbn [foldM] in Hrun. apply rbind_raise_inv in Hrun as [Ha|(s1 & _ & Hrun)].
  - exists s, a. split; [by left|done].
  - destruct (IH _ Hrun) as (s' & a' & Hin & Ha').
    exists s', a'. split; [by right|done].
Qed.

Lemma domain_vectors_raise dc render children_vars e :
  domain_vectors dc render children_vars = Raise e ->
  (exists dom, e = KeyError dom /\ _slices dc !! dom = None) \/
  e = IndexError "list index out of range".
Proof.
  unfold domain_vectors. intros Hrun.
  apply rbind_raise_inv in Hrun as [Hrun|(st & _ & Hrun)].
  2: { by destruct st. }
  apply foldM_raise_inv in Hrun as ([ss all] & i & _ & Hpoint).
  unfold domain_point in Hpoint.
  apply rbind_raise_inv in Hpoint as [Hpoint|(st & _ & Hpoint)].
  2: { by destruct st. }
  apply foldM_raise_inv in Hpoint as (acc & cv & _ & Hchild).
  unfold domain_child in Hchild.
  apply foldM_raise_inv in Hchild as (acc' & item & _ & Hitem).
  apply domain_item_raise in Hitem as [[-> Hnone]| ->]; [left|by right].
  by exists item.1.
Qed.

End DomainPoints.

(** X11: a [DomainConcatenation] over any number of secondary points.
    When every slice the rule looks up is declared, the emitted vectors
    are, point after point, the sub-fragments of that point sorted on
    the tuples made of the slice starts of the FIRST point and the
    fragment texts: [slice_starts] is created once, before the loop over
    the points, and [zip] reads it from the beginning each time.  The
    node compiles to [np.concatenate] of these vectors when it has
    several children or several points. *)
Theorem domain_concatenation_orders_by_first_point :
  forall (dc : Tree.DomainConcatenationData)
         (render : string -> Tree.slice -> string)
         (children_vars : list string) (tagged : nat -> list (Z * string)),
    (forall i, (i < Tree.secondary_dimensions_npts dc)%nat ->
               DomainFacts.declared dc render children_vars i = Some (tagged i)) ->
    let vectors :=
      concat (map (fun i => (Gen.sorted (zip (tagged 0%nat).*1 (tagged i).*2)).*2)
                (seq 0 (Tree.secondary_dimensions_npts dc))) in
    Gen.domain_vectors dc render children_vars = Ok vectors /\
    ((1 < length children_vars \/ 1 < Tree.secondary_dimensions_npts dc)%nat ->
     Gen.domain_concatenation dc render children_vars =
     Ok (DomainFacts.concatenate_call vectors)).
Proof.
  intros dc render children_vars tagged Hd. cbv zeta.
  pose proof (DomainPoints.domain_vectors_points dc render children_vars tagged Hd)
    as Hv.
  split; [exact Hv|]. intros Hmany. unfold Gen.domain_concatenation.
  rewrite Hv. cbn [rbind]. by rewrite decide_True.
Qed.

(** Two secondary points, two children; at each point the second
    child's domain starts first. *)
Definition dc_two_points : Tree.DomainConcatenationData :=
  Tree.mk_domain_concatenation 2
    (list_to_map [("negative electrode"%string,
                   [Tree.mk_slice 5 10; Tree.mk_slice 15 20]);
                  ("separator"%string,
                   [Tree.mk_slice 0 5; Tree.mk_slice 10 15])])
    [[("negative electrode"%string, [Tree.mk_slice 0 5; Tree.mk_slice 5 10])];
     [("separator"%string, [Tree.mk_slice 0 5; Tree.mk_slice 5 10])]].

Definition tagged_two_points (i : nat) : list (Z * string) :=
  match i with
  | O => [(5, "var_00001[0:5]"%string); (0, "var_00002[0:5]"%string)]
  | _ => [(15, "var_00001[5:10]"%string); (10, "var_00002[5:10]"%string)]
  end.

Lemma domain_concatenation_orders_by_first_point_witness :
  Gen.domain_concatenation dc_two_points Python.render_slice
    ["var_00001"; "var_00002"]%string =
  Ok (DomainFacts.concatenate_call
        (concat (map (fun i => (Gen.sorted
                                  (zip (tagged_two_points 0).*1
                                       (tagged_two_points i).*2)).*2)
                   (seq 0 2)))).
Proof.
  refine (proj2 (domain_concatenation_orders_by_first_point dc_two_points
                   Python.render_slice ["var_00001"; "var_00002"]%string
                   tagged_two_points _) _).
  - intros [|[|i]] Hi; [vm_compute; reflexivity|vm_compute; reflexivity|].
    cbn in Hi. lia.
  - left. cbn. lia.
Defined.

(** X12: a [DomainConcatenation] compiles exactly when, for every
    secondary point, every domain a child declares is a key of
    [_slices] and both slice lists reach that point.  When it does not
    compile, the error is the [KeyError] of a domain missing from
    [_slices] or the [IndexError] of a slice list that is too short. *)
Theorem domain_concatenation_needs_every_slice :
  forall (dc : Tree.DomainConcatenationData)
         (render : string -> Tree.slice -> string) (children_vars : list string),
    ((exists symbol_str,
         Gen.domain_concatenation dc render children_vars = Ok symbol_str) <->
     (forall i, (i < Tree.secondary_dimensions_npts dc)%nat ->
                exists tagged,
                  DomainFacts.declared dc render children_vars i = Some tagged)) /\
    (forall e,
        Gen.domain_concatenation dc render children_vars = Raise e ->
        (exists dom, e = KeyError dom /\ Tree._slices dc !! dom = None) \/
        e = IndexError "list index out of range").
Proof.
  intros dc render children_vars. split; [split|].
  - intros [symbol_str Hrun] i Hi.
    destruct (DomainFacts.declared dc render children_vars i) as [t|] eqn:Hd;
      [by exists t|].
    destruct (DomainPoints.domain_vectors_None dc render children_vars i Hi Hd)
      as [e He].
    unfold Gen.domain_concatenation in Hrun. by rewrite He in Hrun.
  - intros Hall.
    pose (tagged := fun i =>
            default [] (DomainFacts.declared dc render children_vars i)).
    assert (Hd : forall i, (i < Tree.secondary_dimensions_npts dc)%nat ->
                   DomainFacts.declared dc render children_vars i =
                   Some (tagged i)).
    { intros i Hi. destruct (Hall i Hi) as [t Ht]. unfold tagged. by rewrite Ht. }
    unfold Gen.domain_concatenation.
    rewrite (DomainPoints.domain_vectors_points dc render children_vars tagged Hd).
    cbn [rbind]. destruct (decide _); by eexists.
  - intros e Hrun. unfold Gen.domain_concatenation in Hrun.
    apply rbind_raise_inv in Hrun as [Hrun|(v & _ & Hrun)].
    + by apply DomainPoints.domain_vectors_raise in Hrun.
    + by destruct (decide _).
Qed.

(** The child's domain is not a key of [_slices]. *)
Definition dc_missing_domain : Tree.DomainConcatenationData :=
  Tree.mk_domain_concatenation 1
    (list_to_map [("separator"%string, [Tree.mk_slice 0 5])])
    [[("negative electrode"%string, [Tree.mk_slice 0 5])]].

Lemma domain_concatenation_needs_every_slice_witness :
  (exists dom, KeyError "negative electrode" = KeyError dom /\
               Tree._slices dc_missing_domain !! dom = None) \/
  KeyError "negative electrode" = IndexError "list index out of range".
Proof.
  refine (proj2 (domain_concatenation_needs_every_slice dc_missing_domain
                   Python.render_slice ["var_00001"%string]) _ _).
  vm_compute. reflexivity.
Defined.

(** ** The constants a fragment names are stored *)

Module ConstantKeys.
Import Tree Gen Python CseFacts.
Local Open Scope list_scope.
Local Open Scope Z_scope.

Section Keys.
Context {T : Type} (array_id : list Z -> Z).

(** The nodes whose compiled form reads a stored constant named after
    the node: a constant node whose value is not a number, and a
    [Function] that is not a numpy ufunc. *)
Definition names_constant (q : Symbol T) : Prop :=
  (exists v, folded q = Some v /\ is_number v = false) \/
  (folded q = None /\
   exists label julia_name, kind q = Function_ (Callable label) julia_name).

Lemma set_keys_mono {V} k (v : V) d x :
  x ∈ OrderedDict.keys d -> x ∈ OrderedDict.keys (OrderedDict.set k v d).
Proof. rewrite OrderedDict.keys_set, record_key_elem. by left. Qed.

Lemma set_keys_here {V} k (v : V) d :
  k ∈ OrderedDict.keys (OrderedDict.set k v d).
Proof. rewrite OrderedDict.keys_set, record_key_elem. by right. Qed.

Lemma fold_constant_keys_mono (s : Symbol T) v constants no_sparse x :
  x ∈ OrderedDict.keys constants ->
  x ∈ OrderedDict.keys (fold_constant s v constants no_sparse).
Proof.
  intros Hx. unfold fold_constant.
  destruct v as [r|a|m]; [done|by apply set_keys_mono|].
  destruct no_sparse; by apply set_keys_mono.
Qed.

Lemma fold_constant_keys_here (s : Symbol T) v constants no_sparse :
  is_number v = false ->
  id s ∈ OrderedDict.keys (fold_constant s v constants no_sparse).
Proof.
  intros Hv. unfold fold_constant.
  destruct v as [r|a|m]; [done|apply set_keys_here|].
  destruct no_sparse; apply set_keys_here.
Qed.

Lemma select_keys_mono (s : Symbol T) vars constants no_sparse str constants' x :
  select array_id s vars constants no_sparse = Ok (str, constants') ->
  x ∈ OrderedDict.keys constants -> x ∈ OrderedDict.keys constants'.
Proof.
  unfold select, state_vector. intros Hsel Hx.
  repeat match type of Hsel with
         | context [match ?x with _ => _ end] => destruct x
         | context [rbind ?m _] => destruct m; cbn [rbind] in Hsel
         end;
    try discriminate; injection Hsel as _ <-; try done;
    by apply set_keys_mono.
Qed.

Lemma select_keys_callable (s : Symbol T) vars constants no_sparse str constants'
    label julia_name :
  kind s = Function_ (Callable label) julia_name ->
  select array_id s vars constants no_sparse = Ok (str, constants') ->
  id s ∈ OrderedDict.keys constants'.
Proof.
  unfold select. intros -> [= _ <-]. apply set_keys_here.
Qed.

Lemma find_symbols_constants_mono (s : Symbol T) no_sparse x :
  forall tables tables',
    find_symbols array_id s tables no_sparse = Ok tables' ->
    x ∈ OrderedDict.keys (constant_symbols tables) ->
    x ∈ OrderedDict.keys (constant_symbols tables').
Proof.
  induction s as [s IH] using Symbol_ind'. intros tables tables' Hrun Hx.
  rewrite PythonFacts.find_symbols_unfold in Hrun.
  destruct (folded s) as [v|].
  - injection Hrun as <-. by apply fold_constant_keys_mono.
  - apply rbind_ok_inv in Hrun as (t1 & H1 & Hrun).
    apply rbind_ok_inv in Hrun as ([str constants] & Hsel & Hrun).
    injection Hrun as <-. cbn [constant_symbols].
    apply (select_keys_mono _ _ _ _ _ _ _ Hsel).
    clear Hsel. revert tables t1 H1 Hx. unfold find_symbols_children.
    induction IH as [|c cs Hc _ IHcs]; intros tables t1 H1 Hx.
    + by injection H1 as <-.
    + cbn [foldM] in H1. apply rbind_ok_inv in H1 as (t0 & H0 & H1).
      apply (IHcs t0 t1 H1). by apply (Hc tables).
Qed.

Lemma find_symbols_names_stored (s : Symbol T) no_sparse :
  forall tables tables',
    find_symbols array_id s tables no_sparse = Ok tables' ->
    forall q, reaches s q -> names_constant q ->
      id q ∈ OrderedDict.keys (constant_symbols tables').
Proof.
  induction s as [s IH] using Symbol_ind'. intros tables tables' Hrun q Hq Hneed.
  rewrite PythonFacts.find_symbols_unfold in Hrun.
  apply JuliaTables.reaches_inv in Hq.
  destruct (folded s) as [v|] eqn:Hfold.
  - injection Hrun as <-. cbn [constant_symbols].
    destruct Hq as [->|[? _]]; [|discriminate].
    destruct Hneed as [(v' & Hv' & Hnum)|[? _]]; [|congruence].
    apply fold_constant_keys_here. congruence.
  - apply rbind_ok_inv in Hrun as (t1 & H1 & Hrun).
    apply rbind_ok_inv in Hrun as ([str constants] & Hsel & Hrun).
    injection Hrun as <-. cbn [constant_symbols].
    destruct Hq as [->|(_ & c & Hc & Hq)].
    + destruct Hneed as [(v' & Hv' & _)|(_ & label & jn & Hkind)]; [congruence|].
      by apply (select_keys_callable _ _ _ _ _ _ _ _ Hkind Hsel).
    + apply (select_keys_mono _ _ _ _ _ _ _ Hsel).
      clear Hsel Hfold. revert tables t1 H1 Hc. unfold find_symbols_children.
      induction IH as [|c0 cs Hc0 _ IHcs]; intros tables t1 H1 Hc.
      * by apply elem_of_nil in Hc.
      * cbn [foldM] in H1. apply rbind_ok_inv in H1 as (t0 & H0 & H1).
        apply elem_of_cons in Hc as [->|Hc].
        -- assert (Hin : id q ∈ OrderedDict.keys (constant_symbols t0))
             by (by apply (Hc0 tables t0 H0 q)).
           clear -H1 Hin. revert t0 t1 H1 Hin.
           induction cs as [|c1 cs IHmono]; intros t0 t1 H1 Hin.
           ++ by injection H1 as <-.
           ++ cbn [foldM] in H1. apply rbind_ok_inv in H1 as (t2 & H2 & H1).
              apply (IHmono t2 t1 H1).
              by apply (find_symbols_constants_mono c1 no_sparse _ t0 t2).
        -- by apply (IHcs t0 t1 H1).
Qed.

End Keys.
End ConstantKeys.

(** X13: every constant a fragment names is stored.  After a
    successful traversal from empty tables, each reached constant node
    whose value is not a number, and each reached [Function] that is
    not a numpy ufunc, has its id among the keys of the constant
    table, so the name [const_<id>] the fragments use for it is
    bound. *)
Theorem named_constants_are_stored :
  forall (T : Type) (array_id : list Z -> Z) (root q : Tree.Symbol T)
         (no_sparse : bool) (tables : @Python.Tables T),
    Python.find_symbols array_id root Python.empty_tables no_sparse = Ok tables ->
    Tree.reaches root q ->
    ((exists v, Tree.folded q = Some v /\ Tree.is_number v = false) \/
     (Tree.folded q = None /\
      exists label julia_name,
        Tree.kind q = Tree.Function_ (Tree.Callable label) julia_name)) ->
    Tree.id q ∈ OrderedDict.keys (Python.constant_symbols tables) /\
    (forall v, Tree.folded q = Some v ->
       Python.child_var q = Python.id_to_python_variable (Tree.id q) true).
Proof.
  intros T array_id root q no_sparse tables Hrun Hq Hneed. split.
  - by apply (ConstantKeys.find_symbols_names_stored array_id root no_sparse
                Python.empty_tables tables Hrun q Hq).
  - intros v Hv. unfold Python.child_var. rewrite Hv.
    destruct Hneed as [(v' & Hv' & Hnum)|[? _]]; [|congruence].
    assert (v' = v) as -> by congruence. by destruct v.
Qed.

Lemma named_constants_are_stored_witness :
  3 ∈ OrderedDict.keys
        [(3, @Python.CValue Z Examples.dense_shape)] /\
  (forall v, Tree.folded Examples.dense_vector = Some v ->
     Python.child_var Examples.dense_vector =
     Python.id_to_python_variable 3 true).
Proof.
  assert (Hrun : Python.find_symbols Examples.array_id shared_constant_sum
                   Python.empty_tables false =
                 Ok (Python.mkTables
                       [(3, Python.CValue Examples.dense_shape)]
                       [(1, "y[0:2]"%string);
                        (60, "var_00001 * const_00003"%string);
                        (61, "var_00001 / const_00003"%string);
                        (62, "var_00060 + var_00061"%string)]))
    by (vm_compute; reflexivity).
  refine (named_constants_are_stored Z Examples.array_id shared_constant_sum
            Examples.dense_vector false _ Hrun _ _).
  - apply (Tree.reaches_child _ y_times_v).
    + apply (Tree.reaches_child _ shared_constant_sum);
        [apply Tree.reaches_root|reflexivity|by left].
    + reflexivity.
    + right. by left.
  - left. by eexists.
Defined.

(** ** [get_julia_mtk_model] never gets past its first equation *)

Module MtkFacts.
Import Tree Gen Mtk.
Local Open Scope string_scope.
Local Open Scope list_scope.
Local Open Scope Z_scope.

Lemma ofoldM_all_return {A S} (f : S -> A -> outcome S) (l : list A) :
  Forall (fun a => forall s, exists s', f s a = Returns s') l ->
  forall s, exists s', ofoldM f s l = Returns s'.
Proof.
  induction 1 as [|a l Ha _ IH]; intros s; [by exists s|].
  cbn [ofoldM]. destruct (Ha s) as [s1 ->]. cbn [obind]. apply IH.
Qed.

Section Facts.
Context {T : Type}.
Context (array_id : list Z -> Z).
Context (array2string_int : list Z -> string).
Context (array2string : list T -> string).
Context (sparse_find : scipy_sparse T -> list Z * list Z * list T).
Context (format_constant : @Julia.Constant T -> string).

Lemma dict_setitem_nonempty (k v : Symbol T) d : dict_setitem k v d <> [].
Proof. destruct d as [|[k' v'] d]; cbn; [done|]. by destruct (decide _). Qed.

Lemma dict_merge_nil (a b : @SymbolDict T) :
  dict_merge a b = [] -> a = [] /\ b = [].
Proof.
  unfold dict_merge. intros Hm.
  assert (Hnil : a ++ b = []).
  { destruct (a ++ b) as [|kv l]; [done|]. exfalso. cbn [foldl] in Hm.
    revert Hm. generalize (dict_setitem_nonempty kv.1 kv.2 []).
    generalize (dict_setitem kv.1 kv.2 []). clear.
    induction l as [|kv' l IH]; intros d Hd; cbn [foldl]; [done|].
    apply IH. apply dict_setitem_nonempty. }
  by apply app_eq_nil in Hnil.
Qed.

(** Every variable has a number. *)
Lemma numbered (l : list (nat * Symbol T)) (text : nat * Symbol T -> string) :
  forall d x,
    (x ∈ OrderedDict.keys d \/ exists iv, iv ∈ l /\ id iv.2 = x) ->
    x ∈ OrderedDict.keys
          (foldl (fun d iv => OrderedDict.set (id iv.2) (text iv) d) d l).
Proof.
  induction l as [|iv l IH]; intros d x Hx; cbn [foldl].
  - destruct Hx as [Hx|(iv & Hin & _)]; [done|]. by apply elem_of_nil in Hin.
  - apply IH. rewrite OrderedDict.keys_set, CseFacts.record_key_elem.
    destruct Hx as [Hx|(iv' & [->|Hin]%elem_of_cons & Hid)]; eauto.
Qed.

Lemma number_of_variable (variables : list (Symbol T)) var :
  var ∈ variables ->
  exists x, number_of (number_variables variables) (id var) = Returns x.
Proof.
  intros Hvar. unfold number_of, number_variables.
  destruct (OrderedDict.get (id var) _) as [x|] eqn:Hget; [by exists x|].
  apply OrderedDict.get_None_keys in Hget. destruct Hget.
  apply (numbered _ (fun iv => "x" +:+ PyStr.of_Z (Z.of_nat iv.1 + 1))).
  right. apply list_elem_of_lookup in Hvar as [i Hi].
  exists (i, var). split; [|done].
  apply list_elem_of_lookup. exists i. by rewrite list_lookup_imap, Hi.
Qed.

(** The header of the model text is always built. *)
Lemma header_returns (variables : list (Symbol T)) mtk_str :
  exists mtk_str',
    ofoldM (fun s var =>
              run x <- number_of (number_variables variables) (id var);
              Returns (s +:+ "# " +:+ name var +:+ " -> " +:+ x +:+ nl))
      mtk_str variables = Returns mtk_str'.
Proof.
  apply ofoldM_all_return. apply Forall_forall. intros var Hvar s.
  destruct (number_of_variable variables var Hvar) as [x ->]. by eexists.
Qed.

(** What one turn of either loop yields: the error of [to_julia], or
    the error of the assignment to two names. *)
Definition first_turn (eqn : Symbol T) : raised :=
  match Julia.to_julia array_id array2string_int array2string sparse_find
          eqn false with
  | Ok _ => Builtin (ValueError "too many values to unpack (expected 2)")
  | Raise e => Builtin e
  end.

Lemma equation_raises model numbers st var eqn :
  equation array_id array2string_int array2string sparse_find format_constant
    model numbers st (var, eqn) = Raises (first_turn eqn).
Proof.
  destruct st as [[eqns consts] jl]. unfold equation, first_turn.
  by destruct (Julia.to_julia _ _ _ _ eqn false).
Qed.

Lemma initial_condition_raises numbers st var eqn :
  initial_condition array_id array2string_int array2string sparse_find
    format_constant numbers st (var, eqn) = Raises (first_turn eqn).
Proof.
  destruct st as [[ics consts] jl]. unfold initial_condition, first_turn.
  by destruct (Julia.to_julia _ _ _ _ eqn false).
Qed.

Lemma model_with_equation (model : BaseModel T) var eqn rest :
  dict_merge (rhs model) (algebraic model) = (var, eqn) :: rest ->
  get_julia_mtk_model array_id array2string_int array2string sparse_find
    format_constant model = Raises (first_turn eqn).
Proof.
  intros Hm. unfold get_julia_mtk_model. cbv zeta.
  match goal with
  | |- obind (ofoldM _ ?s ?vars) _ = _ =>
      destruct (header_returns ((dict_merge (rhs model) (algebraic model)).*1) s)
        as [s' Hs]
  end.
  rewrite Hs. cbn [obind]. rewrite Hm. cbn [ofoldM].
  by rewrite equation_raises.
Qed.

Lemma model_with_initial_condition (model : BaseModel T) var eqn rest :
  rhs model = [] -> algebraic model = [] ->
  initial_conditions model = (var, eqn) :: rest ->
  get_julia_mtk_model array_id array2string_int array2string sparse_find
    format_constant model = Raises (first_turn eqn).
Proof.
  intros Hr Ha Hi. unfold get_julia_mtk_model. cbv zeta.
  rewrite Hr, Ha, Hi. cbn [dict_merge app foldl fmap list_fmap ofoldM obind].
  by rewrite initial_condition_raises.
Qed.

Lemma empty_model_returns (model : BaseModel T) :
  rhs model = [] -> algebraic model = [] -> initial_conditions model = [] ->
  exists mtk_str,
    get_julia_mtk_model array_id array2string_int array2string sparse_find
      format_constant model = Returns mtk_str.
Proof.
  intros Hr Ha Hi. unfold get_julia_mtk_model. cbv zeta.
  rewrite Hr, Ha, Hi. cbn [dict_merge app foldl fmap list_fmap ofoldM obind].
  by eexists.
Qed.

End Facts.
End MtkFacts.

(** X14: [get_julia_mtk_model] builds a model text only for a model
    with no equation and no initial condition.  With an equation (or,
    failing that, an initial condition) the first turn of the loop
    raises: the error of [to_julia] if the expression does not compile,
    and otherwise [ValueError], because [to_julia] returns three values
    and the loop assigns them to two names. *)
Theorem mtk_model_only_without_equations :
  forall (T : Type) (array_id : list Z -> Z)
         (array2string_int : list Z -> string) (array2string : list T -> string)
         (sparse_find : Tree.scipy_sparse T -> list Z * list Z * list T)
         (format_constant : @Julia.Constant T -> string)
         (model : Mtk.BaseModel T),
    let build := Mtk.get_julia_mtk_model array_id array2string_int array2string
                   sparse_find format_constant model in
    let compiled eqn := Julia.to_julia array_id array2string_int array2string
                          sparse_find eqn false in
    ((exists mtk_str, build = Mtk.Returns mtk_str) <->
     Mtk.rhs model = [] /\ Mtk.algebraic model = [] /\
     Mtk.initial_conditions model = []) /\
    (forall var eqn rest tables,
        Mtk.dict_merge (Mtk.rhs model) (Mtk.algebraic model) = (var, eqn) :: rest ->
        compiled eqn = Ok tables ->
        build = Mtk.Raises
                  (Mtk.Builtin
                     (ValueError "too many values to unpack (expected 2)"))) /\
    (forall var eqn rest tables,
        Mtk.rhs model = [] -> Mtk.algebraic model = [] ->
        Mtk.initial_conditions model = (var, eqn) :: rest ->
        compiled eqn = Ok tables ->
        build = Mtk.Raises
                  (Mtk.Builtin
                     (ValueError "too many values to unpack (expected 2)"))).
Proof.
  intros T array_id a2si a2s sf fc model. cbv zeta. split_and!.
  - split.
    + intros [mtk_str Hrun].
      destruct (Mtk.dict_merge (Mtk.rhs model) (Mtk.algebraic model))
        as [|[var eqn] rest] eqn:Hm.
      2: { by rewrite (MtkFacts.model_with_equation array_id a2si a2s sf fc
                         model var eqn rest Hm) in Hrun. }
      apply MtkFacts.dict_merge_nil in Hm as [Hr Ha].
      destruct (Mtk.initial_conditions model) as [|[var eqn] rest] eqn:Hi; [done|].
      by rewrite (MtkFacts.model_with_initial_condition array_id a2si a2s sf fc
                    model var eqn rest Hr Ha Hi) in Hrun.
    + intros (Hr & Ha & Hi). by apply MtkFacts.empty_model_returns.
  - intros var eqn rest tables Hm Hc.
    rewrite (MtkFacts.model_with_equation array_id a2si a2s sf fc
               model var eqn rest Hm).
    unfold MtkFacts.first_turn. by rewrite Hc.
  - intros var eqn rest tables Hr Ha Hi Hc.
    rewrite (MtkFacts.model_with_initial_condition array_id a2si a2s sf fc
               model var eqn rest Hr Ha Hi).
    unfold MtkFacts.first_turn. by rewrite Hc.
Qed.

(** The model [du/dt = y[0:2]] for the variable [u]. *)
Definition decay_variable : Tree.Symbol Z :=
  Tree.mkSymbol 8 "u" Tree.Variable_ None Examples.dense_shape (2, 1)%nat [].

Definition decay_model : Mtk.BaseModel Z :=
  Mtk.mkBaseModel [] [(decay_variable, Examples.y01)] [] [].

Lemma mtk_model_only_without_equations_witness :
  Mtk.get_julia_mtk_model Examples.array_id (fun _ => ""%string)
    (fun _ : list Z => ""%string)
    (fun m => (Tree.sp_row m, Tree.sp_col m, Tree.sp_data m))
    (fun _ => ""%string) decay_model =
  Mtk.Raises (Mtk.Builtin (ValueError "too many values to unpack (expected 2)")).
Proof.
  refine (proj1 (proj2 (mtk_model_only_without_equations Z Examples.array_id
                          (fun _ => ""%string) (fun _ : list Z => ""%string)
                          (fun m => (Tree.sp_row m, Tree.sp_col m, Tree.sp_data m))
                          (fun _ => ""%string) decay_model))
            decay_variable Examples.y01 []
            (Julia.mkTables [] [(1, Julia.FStr "@view y[1:2]")] [(1, 2%nat)]) _ _).
  - reflexivity.
  - vm_compute. reflexivity.
Defined.

(** ** The inlining pass when nothing is inlined *)

Module StatementFacts.
Import Tree Gen Julia.
Local Open Scope string_scope.
Local Open Scope list_scope.
Local Open Scope Z_scope.

(** An entry the pass turns into a statement of its own: a text with
    the marker [" * "], or a fragment with none of the markers. *)
Definition assigned (f : Fragment) : Prop :=
  (exists line, f = FStr line /\ PyStr.contains " * " line = true) \/
  (fragment_contains " * " f = false /\ inlineable f = false).

(** The statement of such an entry, after the code emitted so far. *)
Definition statement (var_str : string) (entry : Z * Fragment) : string :=
  let julia_var := id_to_julia_variable entry.1 false in
  match entry.2 with
  | FStr line =>
      if PyStr.contains " * " line
      then var_str +:+ "mul!(" +:+ julia_var +:+ ", " +:+
           PyStr.replace " * " ", " line +:+ ")" +:+ nl
      else var_str +:+ julia_var +:+ " .= " +:+ line +:+ nl
  | FList l => var_str +:+ julia_var +:+ " .= " +:+ list_repr l +:+ nl
  end.

Lemma inline_body_assigned k f rest var_str :
  assigned f ->
  inline_body k f rest var_str = Ok (rest, statement var_str (k, f)).
Proof.
  intros [(line & -> & Hmul)|[Hmul Hno]]; unfold inline_body, statement;
    cbn [fst snd].
  - cbn [fragment_contains]. by rewrite Hmul.
  - rewrite Hmul, Hno. destruct f as [line|l]; cbn [fragment_format]; [|done].
    cbn [fragment_contains] in Hmul. by rewrite Hmul.
Qed.

Lemma inline_loop_assigned table : forall turns var_str,
  Forall (fun entry => assigned entry.2) table ->
  (length table <= turns)%nat ->
  inline_loop turns table var_str = Ok ([], foldl statement var_str table).
Proof.
  induction table as [|[k f] table IH]; intros turns var_str Hall Hlen.
  - by destruct turns.
  - apply Forall_cons in Hall as [Hf Hall].
    destruct turns as [|turns]; [cbn in Hlen; lia|].
    cbn [inline_loop OrderedDict.popitem_first].
    rewrite (inline_body_assigned k f table var_str Hf). cbn [rbind foldl].
    apply IH; [done|]. cbn [length] in Hlen. lia.
Qed.

End StatementFacts.

(** X15: when no entry of the fragment table is inlined, that is, when
    every entry is a text with the marker [" * "] or carries none of
    the markers [" * "], ["@view"], [".+"], [".-"], [".*"], ["./"], the
    inlining pass empties the table and emits exactly one statement per
    entry, in table order: [mul!(name, ...)] for a text with [" * "],
    [name .= fragment] otherwise. *)
Theorem inline_pass_one_statement_per_entry :
  forall table : OrderedDict.t Julia.Fragment,
    Forall (fun entry => StatementFacts.assigned entry.2) table ->
    Julia.inline_pass table =
    Ok ([], foldl StatementFacts.statement ""%string table).
Proof.
  intros table Hall. unfold Julia.inline_pass.
  by apply StatementFacts.inline_loop_assigned.
Qed.

Lemma inline_pass_one_statement_per_entry_witness :
  Julia.inline_pass
    [(20, Julia.FStr "const_00002 * cache_00001");
     (21, Julia.FList ["cache_00020"; "cache_00020"]%string)] =
  Ok ([], foldl StatementFacts.statement ""%string
            [(20, Julia.FStr "const_00002 * cache_00001");
             (21, Julia.FList ["cache_00020"; "cache_00020"]%string)]).
Proof.
  apply inline_pass_one_statement_per_entry.
  constructor; [|constructor; [|constructor]].
  - left. by eexists.
  - right. split; vm_compute; reflexivity.
Defined.

(** ** Names of variables and constants *)

Module NameFacts.
Local Open Scope string_scope.
Local Open Scope Z_scope.

(** The text of [- -> m], character by character. *)
Definition dash_to_m (c : ascii) : ascii :=
  if Ascii.eqb c "-" then "m"%char else c.

Fixpoint map_string (f : ascii -> ascii) (s : string) : string :=
  match s with
  | EmptyString => EmptyString
  | String c s' => String (f c) (map_string f s')
  end.

Lemma replace_dash s : PyStr.replace "-" "m" s = map_string dash_to_m s.
Proof.
  unfold PyStr.replace. induction s as [|c s IH]; [reflexivity|].
  cbn [PyStr.replace_from map_string String.prefix String.length Nat.sub].
  rewrite <- IH. unfold dash_to_m.
  destruct (Ascii.eqb_spec c "-") as [->|Hne].
  - cbn. by destruct s.
  - destruct (ascii_dec "-" c) as [Heq|_]; [by destruct Hne|reflexivity].
Qed.

Lemma map_string_app f s1 s2 :
  map_string f (s1 +:+ s2) = map_string f s1 +:+ map_string f s2.
Proof.
  induction s1 as [|c s1 IH]; [reflexivity|].
  change (String c s1 +:+ s2) with (String c (s1 +:+ s2)).
  cbn [map_string]. rewrite IH. reflexivity.
Qed.

(** Digits are left alone. *)
Lemma map_digits u :
  map_string dash_to_m (NilEmpty.string_of_uint u) = NilEmpty.string_of_uint u.
Proof. induction u; cbn [NilEmpty.string_of_uint map_string]; by f_equal. Qed.

Lemma digits_inj u v :
  NilEmpty.string_of_uint u = NilEmpty.string_of_uint v -> u = v.
Proof.
  intros Heq. apply (f_equal NilEmpty.uint_of_string) in Heq.
  rewrite !NilEmpty.usu in Heq. congruence.
Qed.

Lemma digits_not_m u s : NilEmpty.string_of_uint u <> String "m" s.
Proof. destruct u; discriminate. Qed.

(** Zero padding, on the digits. *)
Lemma zeros_digits k u :
  PyStr.zeros k +:+ NilEmpty.string_of_uint u =
  NilEmpty.string_of_uint (Nat.iter k Decimal.D0 u).
Proof.
  induction k as [|k IH]; [reflexivity|].
  cbn [PyStr.zeros Nat.iter NilEmpty.string_of_uint].
  change ("0" +:+ PyStr.zeros k) with (String "0" (PyStr.zeros k)).
  change (String "0" (PyStr.zeros k) +:+ NilEmpty.string_of_uint u)
    with (String "0" (PyStr.zeros k +:+ NilEmpty.string_of_uint u)).
  by rewrite IH.
Qed.

Lemma of_uint_padded k u : Z.of_uint (Nat.iter k Decimal.D0 u) = Z.of_uint u.
Proof. induction k as [|k IH]; [reflexivity|]. exact IH. Qed.

(** The digits of a number that is not negative. *)
Definition digits_of (n : Z) : Decimal.uint :=
  match Z.to_int n with
  | Decimal.Pos u => u
  | Decimal.Neg u => u
  end.

Lemma of_Z_nonneg n :
  0 <= n ->
  PyStr.of_Z n = NilEmpty.string_of_uint (digits_of n) /\
  Z.of_uint (digits_of n) = n.
Proof.
  intros Hn. unfold PyStr.of_Z, digits_of.
  pose proof (DecimalZ.of_to n) as Hback.
  destruct n as [|p|p]; [split; reflexivity| |lia].
  cbn [Z.to_int NilZero.string_of_int] in *. split; [|exact Hback].
  unfold NilZero.string_of_uint.
  pose proof (DecimalPos.Unsigned.to_uint_nonnil p) as Hnil.
  by destruct (Pos.to_uint p).
Qed.

(** [format_05d], after the dash has become an [m]: digits that
    spell [n], after an [m] when [n] is negative. *)
Lemma formatted n :
  exists u,
    map_string dash_to_m (PyStr.format_05d n) =
      (if n <? 0 then String "m" (NilEmpty.string_of_uint u)
       else NilEmpty.string_of_uint u) /\
    Z.of_uint u = Z.abs n.
Proof.
  unfold PyStr.format_05d. destruct (Z.ltb_spec n 0) as [Hneg|Hpos].
  - destruct (of_Z_nonneg (- n)) as [-> Hval]; [lia|].
    eexists. split.
    + change ("-" +:+ ?s) with (String "-" s). cbn [map_string].
      rewrite zeros_digits, map_digits. reflexivity.
    + rewrite of_uint_padded, Hval. lia.
  - destruct (of_Z_nonneg n Hpos) as [-> Hval].
    eexists. split.
    + rewrite zeros_digits, map_digits. reflexivity.
    + rewrite of_uint_padded, Hval. lia.
Qed.

Lemma formatted_inj i j :
  map_string dash_to_m (PyStr.format_05d i) =
  map_string dash_to_m (PyStr.format_05d j) -> i = j.
Proof.
  destruct (formatted i) as (u & -> & Hu), (formatted j) as (v & -> & Hv).
  destruct (Z.ltb_spec i 0), (Z.ltb_spec j 0); intros Heq.
  - injection Heq as Heq. apply digits_inj in Heq as ->. lia.
  - symmetry in Heq. by apply digits_not_m in Heq.
  - by apply digits_not_m in Heq.
  - apply digits_inj in Heq as ->. lia.
Qed.

Lemma named_inj (p q : string) i j :
  map_string dash_to_m p = p -> map_string dash_to_m q = q ->
  (forall s t, p +:+ s = q +:+ t -> p = q /\ s = t) ->
  PyStr.replace "-" "m" (p +:+ PyStr.format_05d i) =
  PyStr.replace "-" "m" (q +:+ PyStr.format_05d j) ->
  p = q /\ i = j.
Proof.
  intros Hp Hq Hsplit. rewrite !replace_dash, !map_string_app, Hp, Hq.
  intros Heq. apply Hsplit in Heq as [-> Heq]. split; [done|].
  by apply formatted_inj.
Qed.

End NameFacts.

(** X16: names are unique.  [id_to_python_variable] and
    [id_to_julia_variable] give different names to different ids, and
    never give a constant the name of a variable: equal names come from
    equal ids and equal flags. *)
Theorem variable_names_are_unique :
  forall (i j : Z) (c d : bool),
    (Python.id_to_python_variable i c = Python.id_to_python_variable j d ->
     i = j /\ c = d) /\
    (Julia.id_to_julia_variable i c = Julia.id_to_julia_variable j d ->
     i = j /\ c = d).
Proof.
  intros i j c d.
  unfold Python.id_to_python_variable, Julia.id_to_julia_variable. split.
  - intros Heq. apply NameFacts.named_inj in Heq as [Hp ->].
    + split; [done|]. by destruct c, d.
    + by destruct c.
    + by destruct d.
    + intros s t. destruct c, d; intros Hst;
        cbv beta iota delta [append] in Hst; try discriminate;
        by injection Hst as ->.
  - intros Heq. apply NameFacts.named_inj in Heq as [Hp ->].
    + split; [done|]. by destruct c, d.
    + by destruct c.
    + by destruct d.
    + intros s t. destruct c, d; intros Hst;
        cbv beta iota delta [append] in Hst; try discriminate;
        by injection Hst as ->.
Qed.

Lemma variable_names_are_unique_witness :
  (-12 = -12 /\ false = false) /\ (-12 = -12 /\ true = true).
Proof.
  split.
  - exact (proj1 (variable_names_are_unique (-12) (-12) false false) eq_refl).
  - exact (proj2 (variable_names_are_unique (-12) (-12) true true) eq_refl).
Defined.

(** ** The two generators on the same tree *)

Module BackendFacts.
Import Tree Gen CseFacts JuliaTables.
Local Open Scope list_scope.
Local Open Scope Z_scope.

Section Same.
Context {T : Type}.

(** Without a reachable [Variable], the Julia traversal writes the
    entries the Python traversal writes. *)
Lemma emissions_completions (s : Symbol T) :
  (forall q, reaches s q -> folded q = None -> kind q <> Variable_) ->
  emissions s = completions s.
Proof.
  induction s as [s IH] using Symbol_ind'. intros Hno.
  rewrite emissions_unfold, completions_unfold.
  destruct (folded s) as [v|] eqn:Hs; [done|]. f_equal.
  - unfold completions_children. f_equal.
    apply map_ext_Forall. rewrite Forall_forall in IH. apply Forall_forall.
    intros c Hc. apply (IH c Hc). intros q Hq.
    apply Hno. by apply (reaches_below s c q).
  - specialize (Hno s (reaches_root s) Hs). by destruct (kind s).
Qed.

End Same.
End BackendFacts.

(** X17: when both generators compile a tree, their fragment tables
    (and the size table of the Julia generator) have the same keys in
    the same order: the two generated programs assign the same nodes in
    the same sequence. *)
Theorem generators_assign_the_same_nodes :
  forall (T : Type) (array_id : list Z -> Z)
         (array2string_int : list Z -> string) (array2string : list T -> string)
         (sparse_find : Tree.scipy_sparse T -> list Z * list Z * list T)
         (root : Tree.Symbol T) (no_sparse debug : bool)
         (python : @Python.Tables T) (julia : @Julia.Tables T),
    Python.find_symbols array_id root Python.empty_tables no_sparse = Ok python ->
    Julia.to_julia array_id array2string_int array2string sparse_find root debug =
      Ok julia ->
    OrderedDict.keys (Julia.variable_symbols julia) =
      OrderedDict.keys (Python.variable_symbols python) /\
    OrderedDict.keys (Julia.variable_symbol_sizes julia) =
      OrderedDict.keys (Python.variable_symbols python).
Proof.
  intros T array_id a2si a2s sf root no_sparse debug python julia Hpy Hjl.
  unfold Julia.to_julia in Hjl.
  destruct (JuliaTables.find_symbols_grown array_id a2si a2s sf root _ _ Hjl)
    as [Hf Hs _ _].
  rewrite (CseFacts.find_symbols_keys array_id root no_sparse _ _ Hpy), Hf, Hs.
  cbn [Python.empty_tables Julia.empty_tables Python.variable_symbols
       Julia.variable_symbols Julia.variable_symbol_sizes].
  rewrite BackendFacts.emissions_completions; [done|].
  intros q Hq Hfq Hkind.
  destruct (UnsupportedFacts.python_raises_reached array_id no_sparse root q Hq)
    with (tables := @Python.empty_tables T) as [e He].
  - apply UnsupportedFacts.python_raises_at; [done|]. by left.
  - by rewrite He in Hpy.
Qed.

Lemma generators_assign_the_same_nodes_witness :
  OrderedDict.keys [(1, Julia.FStr "@view y[1:2]");
                    (50, Julia.FStr "cache_00001 .+ cache_00001")] =
    OrderedDict.keys [(1, "y[0:2]"%string); (50, "var_00001 + var_00001"%string)] /\
  OrderedDict.keys [(1, 2%nat); (50, 2%nat)] =
    OrderedDict.keys [(1, "y[0:2]"%string); (50, "var_00001 + var_00001"%string)].
Proof.
  assert (Hpy : Python.find_symbols Examples.array_id shared_sum
                  Python.empty_tables false =
                Ok (Python.mkTables []
                      [(1, "y[0:2]"%string);
                       (50, "var_00001 + var_00001"%string)]))
    by (vm_compute; reflexivity).
  assert (Hjl : Julia.to_julia Examples.array_id (fun _ => ""%string)
                  (fun _ : list Z => ""%string)
                  (fun m => (Tree.sp_row m, Tree.sp_col m, Tree.sp_data m))
                  shared_sum false =
                Ok (Julia.mkTables []
                      [(1, Julia.FStr "@view y[1:2]");
                       (50, Julia.FStr "cache_00001 .+ cache_00001")]
                      [(1, 2%nat); (50, 2%nat)]))
    by (vm_compute; reflexivity).
  exact (generators_assign_the_same_nodes Z Examples.array_id _ _ _
           shared_sum false false _ _ Hpy Hjl).
Defined.

(** ** [dot_product] is the product with the matrix the entries denote *)

Module DenseFacts.
Section Dense.
Context {T : Type} (zero : T) (add mul : T -> T -> T).

(** The data of the entries at position [(r, c)], in entry order. *)
Fixpoint data_at (rows cols : list Z) (ds : list T) (r c : nat) : list T :=
  match rows, cols, ds with
  | rk :: rows', ck :: cols', dk :: ds' =>
      let rest := data_at rows' cols' ds' r c in
      if decide (rk = Z.of_nat r /\ ck = Z.of_nat c) then dk :: rest else rest
  | _, _, _ => []
  end.

(** Entry [(r, c)] of the matrix that a coordinate matrix denotes:
    entries that share a position add up. *)
Definition dense_entry (m : @Jax.JaxCooMatrix T) (r c : nat) : T :=
  Jax.accumulate add zero (data_at (Jax.row m) (Jax.col m) (Jax.data m) r c).

(** Row [r] of the matrix times the column vector [b]. *)
Definition row_times (m : @Jax.JaxCooMatrix T) (b : list T) (r : nat) : T :=
  Jax.accumulate add zero
    (map (fun c => mul (dense_entry m r c) (nth c b zero))
       (seq 0 (Z.to_nat (Jax.shape m).2))).

Context (add_assoc : forall a b c, add (add a b) c = add a (add b c)).
Context (add_comm : forall a b, add a b = add b a).
Context (add_zero_l : forall a, add zero a = a).
Context (mul_add_distr_r : forall d e x, mul (add d e) x = add (mul d x) (mul e x)).
Context (mul_zero_l : forall x, mul zero x = zero).

Lemma accumulate_from (l : list T) : forall a,
  foldl add a l = add a (Jax.accumulate add zero l).
Proof using add_assoc add_comm add_zero_l.
  unfold Jax.accumulate. induction l as [|x l IH]; intros a; cbn [foldl].
  - by rewrite add_comm, add_zero_l.
  - rewrite (IH (add a x)), (IH (add zero x)), add_zero_l. apply add_assoc.
Qed.

Lemma accumulate_cons x (l : list T) :
  Jax.accumulate add zero (x :: l) = add x (Jax.accumulate add zero l).
Proof using add_assoc add_comm add_zero_l.
  unfold Jax.accumulate at 1. cbn [foldl]. by rewrite accumulate_from, add_zero_l.
Qed.

(** Adding [x] to the term of one index adds [x] to the sum. *)
Lemma accumulate_bump (f : nat -> T) (x : T) (k : nat) (l : list nat) :
  NoDup l ->
  Jax.accumulate add zero
    (map (fun c => if decide (c = k) then add x (f c) else f c) l) =
  if decide (k ∈ l) then add x (Jax.accumulate add zero (map f l))
  else Jax.accumulate add zero (map f l).
Proof using add_assoc add_comm add_zero_l.
  induction 1 as [|c l Hc Hl IH]; cbn [map].
  - by rewrite decide_False by apply not_elem_of_nil.
  - rewrite !accumulate_cons, IH. destruct (decide (c = k)) as [->|Hne].
    + rewrite (decide_True (P := k ∈ k :: l)) by (by left).
      rewrite decide_False by done. by rewrite add_assoc.
    + destruct (decide (k ∈ l)) as [Hin|Hnin].
      * rewrite decide_True by (by right).
        by rewrite <- !add_assoc, (add_comm (f c) x).
      * rewrite decide_False; [done|].
        intros [?|?]%elem_of_cons; congruence.
Qed.

Lemma contributions_dense (b : list T) (n r : nat) rows : forall cols ds,
  Forall (fun c => 0 <= c < Z.of_nat n) cols ->
  Jax.accumulate add zero (Jax.contributions_aux zero mul rows cols ds b r) =
  Jax.accumulate add zero
    (map (fun c => mul (Jax.accumulate add zero (data_at rows cols ds r c))
                     (nth c b zero))
       (seq 0 n)).
Proof using add_assoc add_comm add_zero_l mul_add_distr_r mul_zero_l.
  assert (Hzero : forall l : list nat,
            Jax.accumulate add zero (map (fun c => mul zero (nth c b zero)) l) =
            zero).
  { induction l as [|c l IH]; [reflexivity|]. cbn [map].
    by rewrite accumulate_cons, IH, mul_zero_l, add_zero_l. }
  induction rows as [|rk rows IH]; intros [|ck cols] [|dk ds] Hcols;
    cbn [Jax.contributions_aux data_at]; try (symmetry; apply Hzero).
  apply Forall_cons in Hcols as [Hck Hcols].
  destruct (decide (rk = Z.of_nat r)) as [Hr|Hr].
  - rewrite accumulate_cons, (IH cols ds Hcols).
    rewrite (map_ext
               (fun c => mul (Jax.accumulate add zero
                                (if decide (rk = Z.of_nat r /\ ck = Z.of_nat c)
                                 then dk :: data_at rows cols ds r c
                                 else data_at rows cols ds r c))
                           (nth c b zero))
               (fun c => if decide (c = Z.to_nat ck)
                         then add (mul dk (nth (Z.to_nat ck) b zero))
                                  (mul (Jax.accumulate add zero
                                          (data_at rows cols ds r c))
                                       (nth c b zero))
                         else mul (Jax.accumulate add zero
                                     (data_at rows cols ds r c))
                                  (nth c b zero))).
    2: { intros c. destruct (decide (c = Z.to_nat ck)) as [->|Hne].
         - rewrite decide_True by (split; [done|lia]).
           by rewrite accumulate_cons, mul_add_distr_r.
         - rewrite decide_False; [done|]. intros [_ ->]. apply Hne. lia. }
    rewrite (accumulate_bump
               (fun c => mul (Jax.accumulate add zero (data_at rows cols ds r c))
                             (nth c b zero))) by apply NoDup_seq.
    rewrite decide_True; [done|].
    apply list_elem_of_In, in_seq. lia.
  - rewrite (IH cols ds Hcols). f_equal. apply map_ext. intros c.
    rewrite decide_False; [done|]. by intros [? _].
Qed.

Lemma dot_product_row_times (m : @Jax.JaxCooMatrix T) (b : list T) (r : nat) :
  Jax.wf_coo m ->
  Z.of_nat (length b) = (Jax.shape m).2 ->
  (r < Z.to_nat (Jax.shape m).1)%nat ->
  Jax.dot_product zero add mul m b !! r = Some (row_times m b r).
Proof using add_assoc add_comm add_zero_l mul_add_distr_r mul_zero_l.
  intros Hwf Hb Hr. rewrite (Jax.dot_product_lookup zero add mul m b r Hwf Hb Hr).
  f_equal. unfold Jax.contributions, row_times, dense_entry.
  apply contributions_dense. destruct Hwf as (_ & _ & _ & Hcol).
  eapply Forall_impl; [exact Hcol|]. cbn. intros c Hc. lia.
Qed.

End Dense.
End DenseFacts.

(** X18: [dot_product] is the matrix-vector product.  A well-formed
    coordinate matrix denotes the matrix whose entry [(r, c)] is the
    sum of the data listed at [(r, c)]; over scalars whose sum is
    associative and commutative with the zero as neutral element,
    whose product distributes over the sum, and where zero times
    anything is zero, entry [r] of [dot_product(b)] is row [r] of that
    matrix times [b]. *)
Theorem dot_product_is_matrix_vector_product :
  forall (T : Type) (zero : T) (add mul : T -> T -> T)
         (m : @Jax.JaxCooMatrix T) (b : list T) (r : nat),
    (forall a b c, add (add a b) c = add a (add b c)) ->
    (forall a b, add a b = add b a) ->
    (forall a, add zero a = a) ->
    (forall d e x, mul (add d e) x = add (mul d x) (mul e x)) ->
    (forall x, mul zero x = zero) ->
    Jax.wf_coo m ->
    Z.of_nat (length b) = (Jax.shape m).2 ->
    (r < Z.to_nat (Jax.shape m).1)%nat ->
    Jax.dot_product zero add mul m b !! r =
    Some (DenseFacts.row_times zero add mul m b r).
Proof.
  intros T zero add mul m b r Hassoc Hcomm Hzero Hdistr Hmul Hwf Hb Hr.
  by apply DenseFacts.dot_product_row_times.
Qed.

Lemma dot_product_is_matrix_vector_product_witness :
  Jax.dot_product 0 Z.add Z.mul Examples.repeated_rows [10; 100] !! 0%nat =
  Some (DenseFacts.row_times 0 Z.add Z.mul Examples.repeated_rows [10; 100] 0).
Proof.
  refine (dot_product_is_matrix_vector_product Z 0 Z.add Z.mul
            Examples.repeated_rows [10; 100] 0 _ _ _ _ _ _ eq_refl _).
  - intros; lia.
  - intros; lia.
  - intros; lia.
  - intros; lia.
  - intros; lia.
  - unfold Jax.wf_coo. simpl. split_and!; try done.
    + repeat constructor; lia.
    + repeat constructor; lia.
  - simpl. lia.
Defined.

(** ** Inlining replaces text, not names *)

Module SubstringFacts.
Local Open Scope string_scope.
Local Open Scope Z_scope.

Lemma prefix_app (t s : string) : String.prefix t (t +:+ s) = true.
Proof.
  induction t as [|c t IH]; [by destruct s|].
  change (String c t +:+ s) with (String c (t +:+ s)). cbn [String.prefix].
  destruct (ascii_dec c c); [exact IH|done].
Qed.

(** Skipping the characters of a matched occurrence. *)
Lemma replace_from_skip (old new t s : string) :
  PyStr.replace_from old new (String.length t) (t +:+ s) =
  PyStr.replace_from old new 0 s.
Proof.
  induction t as [|c t IH]; [reflexivity|].
  change (String c t +:+ s) with (String c (t +:+ s)).
  cbn [String.length PyStr.replace_from]. exact IH.
Qed.

(** An occurrence at the very beginning is replaced, whatever follows
    it. *)
Lemma replace_at_start (old new s : string) :
  old <> "" ->
  PyStr.replace old new (old +:+ s) = new +:+ PyStr.replace old new s.
Proof.
  destruct old as [|a old]; [done|]. intros _. unfold PyStr.replace.
  change (String a old +:+ s) with (String a (old +:+ s)).
  cbn [PyStr.replace_from].
  change (String a (old +:+ s)) with (String a old +:+ s).
  rewrite prefix_app. cbn [String.length]. rewrite Nat.sub_succ, Nat.sub_0_r.
  by rewrite replace_from_skip.
Qed.

Lemma julia_name_nonempty i c : Julia.id_to_julia_variable i c <> "".
Proof.
  unfold Julia.id_to_julia_variable.
  rewrite NameFacts.replace_dash, NameFacts.map_string_app. by destruct c.
Qed.

End SubstringFacts.

(** X19: inlining replaces text, not names.  When the line of node [i]
    is inlined (it contains [@view]), a later fragment that starts with
    the name of [i] followed by anything, a further digit included, has
    that beginning replaced by the line.  The names of the nodes 12345
    and 123456 are such a pair, so inlining node 12345 also rewrites
    the references to node 123456. *)
Theorem inlining_rewrites_longer_names :
  (forall (i key : Z) (line rest : string),
      PyStr.contains "@view" line = true ->
      Julia.inline_into (Julia.id_to_julia_variable i false) (Julia.FStr line)
        (key, Julia.FStr (Julia.id_to_julia_variable i false +:+ rest)) =
      Ok (key,
          Julia.FStr
            (line +:+
             PyStr.replace (Julia.id_to_julia_variable i false) line rest))) /\
  Julia.id_to_julia_variable 123456 false =
    (Julia.id_to_julia_variable 12345 false +:+ "6")%string /\
  Julia.inline_body 12345 (Julia.FStr "@view y[1:2]")
    [(123456, Julia.FStr "@view y[3:4]");
     (9, Julia.FStr "cache_12345 .+ cache_123456")] ""%string =
  Ok ([(123456, Julia.FStr "@view y[3:4]");
       (9, Julia.FStr "@view y[1:2] .+ @view y[1:2]6")], ""%string).
Proof.
  split_and!; [|reflexivity|reflexivity].
  intros i key line rest Hview. unfold Julia.inline_into.
  cbn [Julia.fragment_contains]. rewrite Hview. cbn [negb].
  rewrite andb_false_r. cbn [negb].
  by rewrite SubstringFacts.replace_at_start
    by apply SubstringFacts.julia_name_nonempty.
Qed.

Lemma inlining_rewrites_longer_names_witness :
  Julia.inline_into (Julia.id_to_julia_variable 12345 false)
    (Julia.FStr "@view y[1:2]")
    (9, Julia.FStr (Julia.id_to_julia_variable 12345 false +:+ "6")) =
  Ok (9,
      Julia.FStr
        ("@view y[1:2]" +:+
         PyStr.replace (Julia.id_to_julia_variable 12345 false)
           "@view y[1:2]" "6")).
Proof.
  exact (proj1 inlining_rewrites_longer_names 12345 9
           "@view y[1:2]"%string "6"%string eq_refl).
Defined.

(** ** The tables only grow *)

Module GrowthFacts.
Import Tree Gen Python CseFacts.
Local Open Scope list_scope.
Local Open Scope Z_scope.

(** [ks'] continues [ks]. *)
Definition continues (ks ks' : list Z) : Prop := exists more, ks' = ks ++ more.

Lemma continues_refl ks : continues ks ks.
Proof. exists []. by rewrite app_nil_r. Qed.

Lemma continues_trans a b c : continues a b -> continues b c -> continues a c.
Proof. intros [m1 ->] [m2 ->]. exists (m1 ++ m2). by rewrite app_assoc. Qed.

Lemma set_continues {V} k (v : V) d :
  continues (OrderedDict.keys d) (OrderedDict.keys (OrderedDict.set k v d)).
Proof. rewrite OrderedDict.keys_set. apply record_key_prefix. Qed.

Section Growth.
Context {T : Type} (array_id : list Z -> Z).

Lemma fold_constant_continues (s : Symbol T) v constants no_sparse :
  continues (OrderedDict.keys constants)
    (OrderedDict.keys (fold_constant s v constants no_sparse)).
Proof.
  unfold fold_constant. destruct v as [r|a|m];
    [apply continues_refl|apply set_continues|].
  destruct no_sparse; apply set_continues.
Qed.

Lemma select_continues (s : Symbol T) vars constants no_sparse str constants' :
  select array_id s vars constants no_sparse = Ok (str, constants') ->
  continues (OrderedDict.keys constants) (OrderedDict.keys constants').
Proof.
  unfold select, state_vector. intros Hsel.
  repeat match type of Hsel with
         | context [match ?x with _ => _ end] => destruct x
         | context [rbind ?m _] => destruct m; cbn [rbind] in Hsel
         end;
    try discriminate; injection Hsel as _ <-;
    first [apply continues_refl | apply set_continues].
Qed.

Lemma find_symbols_constants_continue (s : Symbol T) no_sparse :
  forall tables tables',
    find_symbols array_id s tables no_sparse = Ok tables' ->
    continues (OrderedDict.keys (constant_symbols tables))
      (OrderedDict.keys (constant_symbols tables')).
Proof.
  induction s as [s IH] using Symbol_ind'. intros tables tables' Hrun.
  rewrite PythonFacts.find_symbols_unfold in Hrun.
  destruct (folded s) as [v|].
  - injection Hrun as <-. apply fold_constant_continues.
  - apply rbind_ok_inv in Hrun as (t1 & H1 & Hrun).
    apply rbind_ok_inv in Hrun as ([str constants] & Hsel & Hrun).
    injection Hrun as <-. cbn [constant_symbols].
    apply (continues_trans _ (OrderedDict.keys (constant_symbols t1)));
      [|by apply (select_continues _ _ _ _ _ _ Hsel)].
    clear Hsel. revert tables t1 H1. unfold find_symbols_children.
    induction IH as [|c cs Hc _ IHcs]; intros tables t1 H1.
    + injection H1 as <-. apply continues_refl.
    + cbn [foldM] in H1. apply rbind_ok_inv in H1 as (t0 & H0 & H1).
      apply (continues_trans _ (OrderedDict.keys (constant_symbols t0)));
        [by apply (Hc tables)|by apply IHcs].
Qed.

(** The fragment of a key that no visited node has is left alone. *)
Lemma find_symbols_other_fragment (s : Symbol T) no_sparse k :
  k ∉ completions s ->
  forall tables tables',
    find_symbols array_id s tables no_sparse = Ok tables' ->
    OrderedDict.get k (variable_symbols tables') =
    OrderedDict.get k (variable_symbols tables).
Proof.
  induction s as [s IH] using Symbol_ind'. intros Hk tables tables' Hrun.
  rewrite PythonFacts.find_symbols_unfold in Hrun.
  rewrite completions_unfold in Hk.
  destruct (folded s) as [v|].
  - by injection Hrun as <-.
  - apply rbind_ok_inv in Hrun as (t1 & H1 & Hrun).
    apply rbind_ok_inv in Hrun as ([str constants] & _ & Hrun).
    injection Hrun as <-. cbn [variable_symbols].
    apply not_elem_of_app in Hk as [Hcs Hs].
    rewrite OrderedDict.get_set_ne.
    2: { intros Heq. apply Hs. by apply list_elem_of_singleton. }
    clear Hs. revert tables t1 H1 Hcs.
    unfold find_symbols_children, completions_children.
    induction IH as [|c cs Hc _ IHcs]; intros tables t1 H1 Hcs.
    + by injection H1 as <-.
    + cbn [foldM] in H1. apply rbind_ok_inv in H1 as (t0 & H0 & H1).
      cbn [map concat] in Hcs. apply not_elem_of_app in Hcs as [Hc0 Hcs].
      rewrite (IHcs t0 t1 H1 Hcs). by apply Hc.
Qed.

End Growth.
End GrowthFacts.

(** X20: the tables only grow.  [find_symbols] may be handed tables
    that already hold entries: after a successful traversal the keys
    it was given are still there, in the same order, at the beginning
    of both tables, and the fragment stored under a key that is not the
    id of a reached non-constant node is unchanged. *)
Theorem tables_only_grow :
  forall (T : Type) (array_id : list Z -> Z) (symbol : Tree.Symbol T)
         (no_sparse : bool) (tables tables' : @Python.Tables T),
    Python.find_symbols array_id symbol tables no_sparse = Ok tables' ->
    (exists more,
        OrderedDict.keys (Python.variable_symbols tables') =
        OrderedDict.keys (Python.variable_symbols tables) ++ more) /\
    (exists more,
        OrderedDict.keys (Python.constant_symbols tables') =
        OrderedDict.keys (Python.constant_symbols tables) ++ more) /\
    (forall k : Z,
        (forall q, Tree.reaches symbol q -> Tree.folded q = None ->
                   Tree.id q <> k) ->
        OrderedDict.get k (Python.variable_symbols tables') =
        OrderedDict.get k (Python.variable_symbols tables)).
Proof.
  intros T array_id symbol no_sparse tables tables' Hrun. split_and!.
  - rewrite (CseFacts.find_symbols_keys array_id symbol no_sparse _ _ Hrun).
    apply CseFacts.record_keys_prefix.
  - by apply (GrowthFacts.find_symbols_constants_continue array_id symbol
                no_sparse).
  - intros k Hk.
    apply (GrowthFacts.find_symbols_other_fragment array_id symbol no_sparse k);
      [|done].
    intros Hin. apply OrderFacts.completions_from_reached in Hin
      as (q & Hq & Hfq & Hid).
    by apply (Hk q).
Qed.

Lemma tables_only_grow_witness :
  exists more,
    OrderedDict.keys [(77, "t"%string); (1, "y[0:2]"%string)] =
    OrderedDict.keys [(77, "t"%string)] ++ more.
Proof.
  assert (Hrun : Python.find_symbols Examples.array_id Examples.y01
                   (Python.mkTables [] [(77, "t"%string)]) false =
                 Ok (Python.mkTables []
                       [(77, "t"%string); (1, "y[0:2]"%string)]))
    by (vm_compute; reflexivity).
  exact (proj1 (tables_only_grow Z Examples.array_id Examples.y01 false
                  _ _ Hrun)).
Defined.

(** ** Compilation succeeds node by node *)

Module LocalFacts.
Import Tree Gen UnsupportedFacts OutcomeFacts JuliaTables.
Local Open Scope list_scope.
Local Open Scope Z_scope.

Lemma foldM_ok_each {A S} (f : S -> A -> result S) (l : list A) :
  forall s s', foldM f s l = Ok s' ->
  forall a, a ∈ l -> exists s1 s2, f s1 a = Ok s2.
Proof.
  induction l as [|x l IH]; intros s s' Hrun a Ha; [by apply elem_of_nil in Ha|].
  cbn [foldM] in Hrun. apply rbind_ok_inv in Hrun as (s1 & H1 & Hrun).
  apply elem_of_cons in Ha as [->|Ha]; [by exists s, s1|].
  by apply (IH s1 s' Hrun).
Qed.

Section PythonSide.
Context {T : Type} (array_id : list Z -> Z) (no_sparse : bool).

(** The rule of the node [p] yields a fragment. *)
Definition rule_python (p : Symbol T) : Prop :=
  exists constants symbol_str constants',
    Python.select array_id p (map Python.child_var (children p)) constants
      no_sparse = Ok (symbol_str, constants').

Lemma python_success_local (s : Symbol T) :
  (exists tables tables',
      Python.find_symbols array_id s tables no_sparse = Ok tables') <->
  (forall p, reaches s p -> folded p = None -> rule_python p).
Proof.
  induction s as [s IH] using Symbol_ind'. split.
  - intros (tables & tables' & Hrun) p Hp Hfp.
    rewrite PythonFacts.find_symbols_unfold in Hrun.
    apply reaches_inv in Hp as [->|(Hfs & c & Hc & Hp)].
    + rewrite Hfp in Hrun. apply rbind_ok_inv in Hrun as (t1 & _ & Hrun).
      apply rbind_ok_inv in Hrun as ([str constants] & Hsel & _).
      by exists (Python.constant_symbols t1), str, constants.
    + rewrite Hfs in Hrun. apply rbind_ok_inv in Hrun as (t1 & H1 & _).
      destruct (foldM_ok_each _ _ _ _ H1 c Hc) as (ta & tb & Hrun_c).
      rewrite Forall_forall in IH. apply (IH c Hc); [|done|done].
      by exists ta, tb.
  - intros Hall. exists Python.empty_tables.
    assert (Hany : forall tables, exists tables',
               Python.find_symbols array_id s tables no_sparse = Ok tables').
    2: { apply Hany. }
    intros tables. rewrite PythonFacts.find_symbols_unfold.
    destruct (folded s) as [v|] eqn:Hfs; [by eexists|].
    assert (Hcs : Forall (compiles_python array_id no_sparse) (children s)).
    { rewrite Forall_forall in IH. apply Forall_forall. intros c Hc.
      apply compiles_alone_python_anywhere.
      destruct (proj2 (IH c Hc)) as (ta & tb & Hrun_c).
      - intros p Hp. apply Hall. by apply (reaches_below s c p).
      - destruct (python_ok_independent array_id no_sparse c ta tb Hrun_c
                    Python.empty_tables) as [t' Ht'].
        by exists t'. }
    destruct (foldM_all_ok
                (fun tables child =>
                   Python.find_symbols array_id child tables no_sparse)
                (children s) Hcs tables) as [t1 H1].
    unfold Python.find_symbols_children. rewrite H1. cbn [rbind].
    destruct (Hall s (reaches_root s) Hfs) as (c0 & str & c0' & Hsel).
    destruct (python_select_ok_independent array_id no_sparse _ _ _ _ _ Hsel
                (Python.constant_symbols t1)) as [c1' ->].
    by eexists.
Qed.

End PythonSide.

Section JuliaSide.
Context {T : Type}.
Context (array_id : list Z -> Z).
Context (array2string_int : list Z -> string).
Context (array2string : list T -> string).
Context (sparse_find : scipy_sparse T -> list Z * list Z * list T).

(** What the Julia generator asks of the node [p]: a constant can be
    stored; the rule of any other node yields an outcome, and the node
    is a column unless it is a [Variable]. *)
Definition rule_julia (p : Symbol T) : Prop :=
  match folded p with
  | Some v =>
      exists constants constants',
        Julia.fold_constant array2string_int array2string sparse_find
          p v constants = Ok constants'
  | None =>
      (exists constants selected,
          Julia.select array_id p (map Julia.child_var (children p))
            constants = Ok selected) /\
      (kind p <> Variable_ -> (shape p).2 = 1%nat)
  end.

Lemma julia_success_local (s : Symbol T) :
  (exists tables tables',
      Julia.find_symbols array_id array2string_int array2string sparse_find
        s tables = Ok tables') <->
  (forall p, reaches s p -> rule_julia p).
Proof.
  induction s as [s IH] using Symbol_ind'. split.
  - intros (tables & tables' & Hrun) p Hp.
    rewrite JuliaFacts.julia_find_symbols_unfold in Hrun.
    apply reaches_inv in Hp as [->|(Hfs & c & Hc & Hp)].
    + unfold rule_julia. destruct (folded s) as [v|].
      * apply rbind_ok_inv in Hrun as (c' & Hc' & _). by eexists _, _.
      * apply rbind_ok_inv in Hrun as (t1 & _ & Hrun).
        apply rbind_ok_inv in Hrun as (sel & Hsel & Hrec). split.
        -- by eexists _, _.
        -- intros Hkind. destruct sel as [f c'|].
           ++ unfold JuliaFacts.record in Hrec.
              destruct (decide ((shape s).2 <> 1%nat)) as [|Hcol];
                [discriminate|]. by apply dec_stable in Hcol.
           ++ by apply select_return in Hsel.
    + rewrite Hfs in Hrun. apply rbind_ok_inv in Hrun as (t1 & H1 & _).
      destruct (foldM_ok_each _ _ _ _ H1 c Hc) as (ta & tb & Hrun_c).
      rewrite Forall_forall in IH. apply (IH c Hc); [|done].
      by exists ta, tb.
  - intros Hall. exists Julia.empty_tables.
    assert (Hany : forall tables, exists tables',
               Julia.find_symbols array_id array2string_int array2string
                 sparse_find s tables = Ok tables').
    2: { apply Hany. }
    intros tables. rewrite JuliaFacts.julia_find_symbols_unfold.
    pose proof (Hall s (reaches_root s)) as Hs. unfold rule_julia in Hs.
    destruct (folded s) as [v|] eqn:Hfs.
    { destruct Hs as (c0 & c0' & Hfold).
      destruct (julia_fold_constant_ok_independent array2string_int array2string
                  sparse_find s v c0 c0' Hfold (Julia.constant_symbols tables))
        as [c1 ->].
      by eexists. }
    destruct Hs as [(c0 & sel & Hsel) Hcol].
    assert (Hcs : Forall (JuliaFacts.compiles_julia array_id array2string_int
                            array2string sparse_find) (children s)).
    { rewrite Forall_forall in IH. apply Forall_forall. intros c Hc.
      apply compiles_alone_julia_anywhere.
      destruct (proj2 (IH c Hc)) as (ta & tb & Hrun_c).
      - intros p Hp. apply Hall. by apply (reaches_below s c p).
      - destruct (julia_ok_independent array_id array2string_int array2string
                    sparse_find c ta tb Hrun_c Julia.empty_tables) as [t' Ht'].
        by exists t'. }
    destruct (foldM_all_ok
                (fun tables child =>
                   Julia.find_symbols array_id array2string_int array2string
                     sparse_find child tables)
                (children s) Hcs tables) as [t1 H1].
    unfold JuliaFacts.find_symbols_children. rewrite H1. cbn [rbind].
    destruct (julia_select_ok_independent array_id _ _ _ _ Hsel
                (Julia.constant_symbols t1)) as (sel2 & Hsel2 & _).
    rewrite Hsel2. cbn [rbind]. destruct sel2 as [f c2|]; [|by eexists].
    unfold JuliaFacts.record. rewrite decide_False; [by eexists|].
    intros Hne. apply Hne, Hcol. by apply (select_emit _ _ _ _ _ _ Hsel2).
Qed.

End JuliaSide.
End LocalFacts.

(** X21: compilation succeeds node by node.  The Python traversal of a
    tree succeeds, from whatever tables, exactly when the rule of every
    reached non-constant node yields a fragment for the names of its
    children; whether a rule does so depends on the node alone, not on
    the constants collected so far. *)
Theorem python_compiles_iff_every_rule_does :
  forall (T : Type) (array_id : list Z -> Z) (no_sparse : bool)
         (root : Tree.Symbol T),
    ((exists tables,
         Python.find_symbols array_id root Python.empty_tables no_sparse =
         Ok tables) <->
     (forall p, Tree.reaches root p -> Tree.folded p = None ->
        exists constants symbol_str constants',
          Python.select array_id p (map Python.child_var (Tree.children p))
            constants no_sparse = Ok (symbol_str, constants'))) /\
    (forall (p : Tree.Symbol T) vars constants symbol_str constants',
        Python.select array_id p vars constants no_sparse =
          Ok (symbol_str, constants') ->
        forall other, exists other',
          Python.select array_id p vars other no_sparse =
          Ok (symbol_str, other')).
Proof.
  intros T array_id no_sparse root. split.
  - rewrite <- (LocalFacts.python_success_local array_id no_sparse root). split.
    + intros [tables Hrun]. by exists Python.empty_tables, tables.
    + intros (ta & tb & Hrun).
      by apply (OutcomeFacts.python_ok_independent array_id no_sparse root ta tb).
  - intros p vars constants symbol_str constants' Hsel other.
    by apply (OutcomeFacts.python_select_ok_independent array_id no_sparse
                p vars constants constants').
Qed.

Lemma python_compiles_iff_every_rule_does_witness :
  exists other',
    Python.select Examples.array_id Examples.y01 [] [(3, Python.CIndices [0])]
      false = Ok ("y[0:2]"%string, other').
Proof.
  exact (proj2 (python_compiles_iff_every_rule_does Z Examples.array_id false
                  Examples.y01)
           Examples.y01 [] [] "y[0:2]"%string [] eq_refl
           [(3, Python.CIndices [0])]).
Defined.

(** X22: the Julia traversal succeeds node by node as well.
    [to_julia] succeeds exactly when every reached constant node can be
    stored, the rule of every other reached node yields an outcome, and
    every reached non-constant node that is not a [Variable] is a
    column ([shape[1] == 1]). *)
Theorem julia_compiles_iff_every_rule_does :
  forall (T : Type) (array_id : list Z -> Z)
         (array2string_int : list Z -> string) (array2string : list T -> string)
         (sparse_find : Tree.scipy_sparse T -> list Z * list Z * list T)
         (root : Tree.Symbol T) (debug : bool),
    (exists tables,
        Julia.to_julia array_id array2string_int array2string sparse_find
          root debug = Ok tables) <->
    (forall p, Tree.reaches root p ->
       match Tree.folded p with
       | Some v =>
           exists constants constants',
             Julia.fold_constant array2string_int array2string sparse_find
               p v constants = Ok constants'
       | None =>
           (exists constants selected,
               Julia.select array_id p (map Julia.child_var (Tree.children p))
                 constants = Ok selected) /\
           (Tree.kind p <> Tree.Variable_ -> (Tree.shape p).2 = 1%nat)
       end).
Proof.
  intros T array_id a2si a2s sf root debug. unfold Julia.to_julia.
  pose proof (LocalFacts.julia_success_local array_id a2si a2s sf root) as Hloc.
  unfold LocalFacts.rule_julia in Hloc. rewrite <- Hloc. split.
  - intros [tables Hrun]. by exists Julia.empty_tables, tables.
  - intros (ta & tb & Hrun).
    by apply (OutcomeFacts.julia_ok_independent array_id a2si a2s sf root ta tb).
Qed.

Lemma julia_compiles_iff_every_rule_does_witness :
  (exists constants selected,
      Julia.select Examples.array_id Examples.y01
        (map Julia.child_var (Tree.children Examples.y01)) constants =
      Ok selected) /\
  (Tree.kind Examples.y01 <> Tree.Variable_ ->
   (Tree.shape Examples.y01).2 = 1%nat).
Proof.
  assert (Hrun : Julia.to_julia Examples.array_id (fun _ => ""%string)
                   (fun _ : list Z => ""%string)
                   (fun m => (Tree.sp_row m, Tree.sp_col m, Tree.sp_data m))
                   Examples.y01 false =
                 Ok (Julia.mkTables [] [(1, Julia.FStr "@view y[1:2]")]
                       [(1, 2%nat)]))
    by (vm_compute; reflexivity).
  exact (proj1 (julia_compiles_iff_every_rule_does Z Examples.array_id
                  (fun _ => ""%string) (fun _ : list Z => ""%string)
                  (fun m => (Tree.sp_row m, Tree.sp_col m, Tree.sp_data m))
                  Examples.y01 false)
           (ex_intro _ _ Hrun) Examples.y01 (Tree.reaches_root _)).
Defined.
